(** * datasets.utils.py_utils: a shallow embedding and its properties

    The Python module [src/datasets/utils/py_utils.py] is embedded function
    by function.  Part I holds the definitions, Part II the theorems.

    Conventions.
    - A Python [int] is a [Z]; [//] and [%] are [Z.div] and [Z.modulo]
      (both round towards minus infinity, like Python's).
    - A Python [str] is a [string]; only ASCII text is modelled.
    - A [dict] whose iteration order matters is an association list in
      insertion order; a [dict] used as a finite map is a [gmap].
    - A raised exception is the [Raise] case of [result]. *)

From Stdlib Require Import ZArith Lia String Ascii List.
From stdpp Require Import base option list sorting gmap strings.

Set Warnings "-register-all".

Local Open Scope Z_scope.

(** * Part I: definitions *)

(** ** Exceptions *)

Inductive exn : Type :=
| ValueError (msg : string)
| TypeError (msg : string)
| RuntimeError (msg : string)
| ImportError (msg : string)
| OtherError (msg : string).

Inductive result (X : Type) : Type :=
| Ok (x : X)
| Raise (e : exn).
Arguments Ok {X} x.
Arguments Raise {X} e.

Definition is_ok {X} (r : result X) : bool :=
  match r with Ok _ => true | Raise _ => false end.

Definition raises_ValueError {X} (r : result X) : bool :=
  match r with Raise (ValueError _) => true | _ => false end.

Definition raises_ImportError {X} (r : result X) : bool :=
  match r with Raise (ImportError _) => true | _ => false end.

(** ** Python slicing [l[start:stop]] (step 1): a negative index counts from
    the end, and both indices are clamped to [0, len]. *)

Definition slice_index (len i : Z) : Z :=
  if i <? 0 then Z.max 0 (i + len) else Z.min i len.

Definition py_slice {X} (l : list X) (start stop : Z) : list X :=
  let len := Z.of_nat (length l) in
  let s := slice_index len start in
  let e := slice_index len stop in
  take (Z.to_nat (e - s)) (drop (Z.to_nat s) l).

(** [range(n)] *)
Definition py_range (n : Z) : list Z := Z.of_nat <$> seq 0 (Z.to_nat n).

(** ** map_nested *)

Module MapNested.

(** The classes [isinstance] is asked about by [map_nested]. *)
Inductive pytype : Type := TyList | TyTuple | TyNdarray.

Definition pytype_eqb (a b : pytype) : bool :=
  match a, b with
  | TyList, TyList | TyTuple, TyTuple | TyNdarray, TyNdarray => true
  | _, _ => false
  end.

Section nested.
(** [A] is the type of the Python objects that are neither a [dict], a
    [list], a [tuple] nor a [numpy.ndarray]; dict keys are such objects. *)
Context {A : Type}.

Inductive value : Type :=
| VObj (a : A)
| VDict (items : list (A * value))
| VList (l : list value)
| VTuple (l : list value)
| VArray (l : list value).

(** What a [for] loop over an object of [A] visits, [None] when the object
    is not iterable. *)
Variable obj_iter : A -> option (list value).

(** [isinstance(v, dict)] *)
Definition is_dict (v : value) : bool :=
  match v with VDict _ => true | _ => false end.

(** [isinstance(v, types)], [types] a tuple of classes among [list],
    [tuple] and [np.ndarray]. *)
Definition isinstance (v : value) (types : list pytype) : bool :=
  match v with
  | VList _ => existsb (pytype_eqb TyList) types
  | VTuple _ => existsb (pytype_eqb TyTuple) types
  | VArray _ => existsb (pytype_eqb TyNdarray) types
  | VObj _ | VDict _ => false
  end.

(** [function] is pure: a function of its argument that returns for every
    argument.  Its calls are recorded: a computation returns its value
    together with the arguments [function] was called on, in call order (for
    a pool, in the order of the workers' ranks). *)
Definition traced (X : Type) : Type := X * list value.

Definition ret {X} (x : X) : traced X := (x, []).

Definition bind {X Y} (m : traced X) (k : X -> traced Y) : traced Y :=
  let r := k m.1 in (r.1, m.2 ++ r.2).

Definition call (function : value -> value) (x : value) : traced value :=
  (function x, [x]).

(** A list comprehension whose body is a traced computation. *)
Fixpoint collect {X} (ms : list (traced X)) : traced (list X) :=
  match ms with
  | [] => ret []
  | m :: ms' => bind m (fun x => bind (collect ms') (fun xs => ret (x :: xs)))
  end.

(** [_single_map_nested((function, data_struct, types, rank, disable_tqdm,
    desc))].  [rank], [disable_tqdm] and [desc] only drive logging and the
    progress bar.  The last case of the match is not reached: an object of
    [A] is no dict and no instance of [types], so it takes the singleton
    branch.  [np.array(mapped)] is the array of the results as numpy keeps
    them as its elements (numbers, rows of one shape); results that are
    lists or tuples, which numpy turns into further dimensions, are not
    modelled apart. *)
Fixpoint _single_map_nested (function : value -> value) (types : list pytype)
    (data_struct : value) {struct data_struct} : traced value :=
  if negb (is_dict data_struct) && negb (isinstance data_struct types)
  then call function data_struct
  else
    match data_struct with
    | VDict items =>
        bind (collect ((fun kv : A * value =>
                          let (k, v) := kv in
                          bind (_single_map_nested function types v)
                               (fun r => ret (k, r))) <$> items))
             (fun kvs => ret (VDict kvs))
    | VList l =>
        bind (collect (_single_map_nested function types <$> l))
             (fun mapped => ret (VList mapped))
    | VTuple l =>
        bind (collect (_single_map_nested function types <$> l))
             (fun mapped => ret (VTuple mapped))
    | VArray l =>
        bind (collect (_single_map_nested function types <$> l))
             (fun mapped => ret (VArray mapped))
    | VObj _ => call function data_struct
    end.

(** The leaves of a value under a type filter, in the order of traversal:
    the values reached that are no dict and no instance of [types]. *)
Fixpoint leaves (types : list pytype) (v : value) {struct v} : list value :=
  if negb (is_dict v) && negb (isinstance v types)
  then [v]
  else
    match v with
    | VDict items =>
        concat ((fun kv : A * value => let (_, x) := kv in leaves types x)
                  <$> items)
    | VList l | VTuple l | VArray l => concat (leaves types <$> l)
    | VObj _ => [v]
    end.

(** [types] as [map_nested] builds it when the argument is [None]. *)
Definition default_types (dict_only map_list map_tuple map_numpy : bool)
  : list pytype :=
  if negb dict_only
  then (if map_list then [TyList] else [])
         ++ (if map_tuple then [TyTuple] else [])
         ++ (if map_numpy then [TyNdarray] else [])
  else [].

(** [types] after the first statement of [map_nested]. *)
Definition types_in_force (dict_only map_list map_tuple map_numpy : bool)
    (types : option (list pytype)) : list pytype :=
  match types with
  | None => default_types dict_only map_list map_tuple map_numpy
  | Some ts => ts
  end.

(** [list(data_struct.values()) if isinstance(data_struct, dict) else
    data_struct] *)
Definition iterable_of (data_struct : value) : value :=
  match data_struct with
  | VDict items => VList (items.*2)
  | _ => data_struct
  end.

(** The elements of a list, tuple or array, in order.  [map_nested] asks
    for the elements, the length and the slices of lists, tuples and arrays
    only; the other cases are there to make the functions total. *)
Definition elements (v : value) : list value :=
  match v with
  | VList l | VTuple l | VArray l => l
  | VDict _ | VObj _ => []
  end.

(** [len(v)] for a list, tuple or array. *)
Definition py_len (v : value) : Z := Z.of_nat (length (elements v)).

(** [v[start:stop]]: a slice of a list is a list, of a tuple a tuple, of
    an array an array. *)
Definition getslice (v : value) (start stop : Z) : value :=
  match v with
  | VList l => VList (py_slice l start stop)
  | VTuple l => VTuple (py_slice l start stop)
  | VArray l => VArray (py_slice l start stop)
  | VDict _ | VObj _ => v
  end.

(** Lists, tuples and arrays. *)
Definition is_seq (v : value) : bool :=
  match v with
  | VList _ | VTuple _ | VArray _ => true
  | VDict _ | VObj _ => false
  end.

(** The sequence of the kind of [v] with the elements [l]. *)
Definition rewrap (v : value) (l : list value) : value :=
  match v with
  | VList _ => VList l
  | VTuple _ => VTuple l
  | VArray _ => VArray l
  | VDict _ | VObj _ => v
  end.

(** [for obj in v]: a dict yields its keys, an object of [A] what
    [obj_iter] says. *)
Definition py_iter (v : value) : result (list value) :=
  match v with
  | VList l | VTuple l | VArray l => Ok l
  | VDict items => Ok (VObj <$> items.*1)
  | VObj a =>
      match obj_iter a with
      | Some l => Ok l
      | None => Raise (TypeError "object is not iterable")
      end
  end.

(** The bounds of the slice of worker [index]. *)
Definition split_bounds (len num_proc index : Z) : Z * Z :=
  let div := len / num_proc in
  let mod_ := len mod num_proc in
  let start := div * index + Z.min index mod_ in
  let end_ := start + div + (if index <? mod_ then 1 else 0) in
  (start, end_).

(** The start of slice [i]; slice [i] ends where slice [i + 1] starts. *)
Definition cut (len num_proc i : Z) : Z :=
  len / num_proc * i + Z.min i (len mod num_proc).

(** The second component of the entries of [split_kwds]. *)
Definition split_kwds (iterable : value) (num_proc : Z) : list value :=
  (fun index =>
     let '(start, end_) := split_bounds (py_len iterable) num_proc index in
     getslice iterable start end_) <$> py_range num_proc.

(** [sum(len(i[1]) for i in split_kwds)] *)
Definition total_len (chunks : list value) : Z :=
  foldr Z.add 0 (py_len <$> chunks).

(** [[obj for proc_res in mapped for obj in proc_res]] *)
Fixpoint unpack (mapped : list value) : result (list value) :=
  match mapped with
  | [] => Ok []
  | proc_res :: rest =>
      match py_iter proc_res with
      | Raise e => Raise e
      | Ok objs =>
          match unpack rest with
          | Raise e => Raise e
          | Ok objs' => Ok (objs ++ objs')
          end
      end
  end.

(** The last lines of [map_nested]: the container is rebuilt around the
    mapped elements.  [zip] stops at the shorter argument; the keys of a
    dict are distinct, so [dict] keeps every pair.  What is no dict, list or
    tuple here is an array, and [np.array(mapped)] is taken as in
    [_single_map_nested]. *)
Definition rebuild (data_struct : value) (mapped : list value) : value :=
  match data_struct with
  | VDict items => VDict (zip (items.*1) mapped)
  | VList _ => VList mapped
  | VTuple _ => VTuple mapped
  | VArray _ | VObj _ => VArray mapped
  end.

(** [map_nested(function, data_struct, dict_only, map_list, map_tuple,
    map_numpy, num_proc, types)]; [disable_tqdm] and [desc] only drive the
    progress bar.  [Pool.map] returns the workers' results in the order of
    [split_kwds]. *)
Definition map_nested (function : value -> value) (data_struct : value)
    (dict_only map_list map_tuple map_numpy : bool)
    (num_proc : option Z) (types : option (list pytype))
  : traced (result value) :=
  let types :=
    types_in_force dict_only map_list map_tuple map_numpy types in
  if negb (is_dict data_struct) && negb (isinstance data_struct types)
  then bind (call function data_struct) (fun r => ret (Ok r))
  else
    let iterable := iterable_of data_struct in
    let num_proc := match num_proc with None => 1 | Some n => n end in
    if (num_proc <=? 1) || (py_len iterable <=? num_proc)
    then
      bind (collect (_single_map_nested function types <$> elements iterable))
           (fun mapped => ret (Ok (rebuild data_struct mapped)))
    else
      let chunks := split_kwds iterable num_proc in
      if negb (py_len iterable =? total_len chunks)
      then ret (Raise (ValueError
                         "Error dividing inputs iterable among processes."))
      else
        bind (collect (_single_map_nested function types <$> chunks))
             (fun mapped =>
                match unpack mapped with
                | Raise e => ret (Raise e)
                | Ok mapped => ret (Ok (rebuild data_struct mapped))
                end).

End nested.

Arguments value A : clear implicits.

(** *** Examples *)

(** No object of the examples is iterable. *)
Definition no_iter : Z -> option (list (value Z)) := fun _ => None.

(** The dict [{10: 1, 20: 2, 30: 3}]. *)
Definition three_items : value Z :=
  VDict [(10, VObj 1); (20, VObj 2); (30, VObj 3)].

(** [lambda x: [x]] *)
Definition wrap (x : value Z) : value Z := VList [x].

End MapNested.

(** ** convert_file_size_to_int *)

Module FileSize.

Definition rbind {X Y} (r : result X) (k : X -> result Y) : result Y :=
  match r with
  | Ok x => k x
  | Raise e => Raise e
  end.

(** [str.upper()] on ASCII text: the letters a-z are moved to A-Z. *)
Definition upper_char (c : ascii) : ascii :=
  let n := nat_of_ascii c in
  if ((97 <=? n) && (n <=? 122))%nat then ascii_of_nat (n - 32) else c.

Definition upper (s : list ascii) : list ascii := upper_char <$> s.

(** [s.endswith(suf)] *)
Definition endswith (s suf : list ascii) : bool :=
  bool_decide (suf `suffix_of` s).

(** [int(s)] in base 10 on ASCII text: white space is stripped at both
    ends, one sign may lead, and one underscore may stand between two
    digits.  The limit that later CPython releases put on the number of
    digits is not modelled. *)
Definition is_space (c : ascii) : bool :=
  let n := nat_of_ascii c in
  (((9 <=? n) && (n <=? 13)) || ((28 <=? n) && (n <=? 32)))%nat.

Definition digit_of (c : ascii) : option Z :=
  let n := nat_of_ascii c in
  if ((48 <=? n) && (n <=? 57))%nat then Some (Z.of_nat (n - 48)) else None.

Fixpoint lstrip (s : list ascii) : list ascii :=
  match s with
  | c :: s' => if is_space c then lstrip s' else s
  | [] => []
  end.

Definition strip (s : list ascii) : list ascii :=
  rev (lstrip (rev (lstrip s))).

Fixpoint parse_digits (acc : Z) (after_digit : bool) (s : list ascii)
  : option Z :=
  match s with
  | [] => if after_digit then Some acc else None
  | c :: s' =>
      if Ascii.eqb c "_"
      then (if after_digit then parse_digits acc false s' else None)
      else match digit_of c with
           | Some d => parse_digits (10 * acc + d) true s'
           | None => None
           end
  end.

Definition py_int (s : list ascii) : result Z :=
  let s := strip s in
  let '(negative, body) :=
    match s with
    | c :: r =>
        if Ascii.eqb c "-" then (true, r)
        else if Ascii.eqb c "+" then (false, r)
        else (false, s)
    | [] => (false, s)
    end in
  match parse_digits 0 false body with
  | Some n => Ok (if negative then - n else n)
  | None => Raise (ValueError "invalid literal for int() with base 10")
  end.

Definition chars : string -> list ascii := list_ascii_of_string.

(** [convert_file_size_to_int(size)], [size] an [int] or a [str]. *)
Definition convert_file_size_to_int (size : Z + string) : result Z :=
  match size with
  | inl n => Ok n
  | inr s =>
      let size := chars s in
      if endswith (upper size) (chars "GIB")
      then rbind (py_int (py_slice size 0 (-3))) (fun n => Ok (n * 2 ^ 30))
      else if endswith (upper size) (chars "MIB")
      then rbind (py_int (py_slice size 0 (-3))) (fun n => Ok (n * 2 ^ 20))
      else if endswith (upper size) (chars "KIB")
      then rbind (py_int (py_slice size 0 (-3))) (fun n => Ok (n * 2 ^ 10))
      else if endswith (upper size) (chars "GB")
      then rbind (py_int (py_slice size 0 (-2)))
             (fun n => let int_size := n * 10 ^ 9 in
                       Ok (if endswith size (chars "b")
                           then int_size / 8 else int_size))
      else if endswith (upper size) (chars "MB")
      then rbind (py_int (py_slice size 0 (-2)))
             (fun n => let int_size := n * 10 ^ 6 in
                       Ok (if endswith size (chars "b")
                           then int_size / 8 else int_size))
      else if endswith (upper size) (chars "KB")
      then rbind (py_int (py_slice size 0 (-2)))
             (fun n => let int_size := n * 10 ^ 3 in
                       Ok (if endswith size (chars "b")
                           then int_size / 8 else int_size))
      else Raise (ValueError
                    "`size` is not in a valid format. Use an integer followed by the unit, e.g., '5GB'.")
  end.

End FileSize.

(** ** NonMutableDict *)

Module NonMutable.

Section dict.
(** Keys are hashable objects, values any objects.  The entries are a finite
    map: the order of insertion plays no part in the class. *)
Context `{Countable K} {V : Type}.

(** [_error_msg] is the message template given at construction. *)
Record NonMutableDict : Type := mkNonMutableDict {
  entries : gmap K V;
  _error_msg : string
}.

(** [template.format(key=...)] with the key, or the keys of the set, that is
    passed: the message, or the exception that [str.format] raises on a
    template with a field other than [key]. *)
Variable format : string -> list K -> result string.

(** A tuple [(k, v)] looked up as a key of a dict: [TypeError] when the
    tuple is not hashable, else the key that the tuple is equal to, [None]
    when no key of [K] is a tuple equal to it. *)
Variable tuple_key : K * V -> result (option K).

(** [key in self] *)
Definition contains (self : NonMutableDict) (key : K) : bool :=
  bool_decide (is_Some (entries self !! key)).

(** What [raise ValueError(self._error_msg.format(key=keys))] raises. *)
Definition overwrite_error (self : NonMutableDict) (keys : list K) : exn :=
  match format (_error_msg self) keys with
  | Ok msg => ValueError msg
  | Raise e => e
  end.

(** [self[key] = value]: the dict after the statement and its outcome. *)
Definition __setitem__ (self : NonMutableDict) (key : K) (value : V)
  : NonMutableDict * result unit :=
  if contains self key
  then (self, Raise (overwrite_error self [key]))
  else (mkNonMutableDict (<[key := value]> (entries self)) (_error_msg self),
        Ok tt).

(** What [update] is called with, as [dict.update] takes it: a mapping, or
    an iterable of pairs of a key and a value. *)
Inductive update_arg : Type :=
| Mapping (other : gmap K V)
| Pairs (other : list (K * V)).

(** [any(k in self for k in other)] for an iterable of pairs: the loop
    visits the pairs, and asks of each pair whether it is a key. *)
Fixpoint any_pair_in (self : NonMutableDict) (other : list (K * V))
  : result bool :=
  match other with
  | [] => Ok false
  | kv :: rest =>
      match tuple_key kv with
      | Raise e => Raise e
      | Ok (Some k) =>
          if contains self k then Ok true else any_pair_in self rest
      | Ok None => any_pair_in self rest
      end
  end.

(** [set(other)] for an iterable of pairs, as far as it holds keys of
    [K]. *)
Fixpoint pairs_as_keys (other : list (K * V)) : result (list K) :=
  match other with
  | [] => Ok []
  | kv :: rest =>
      match tuple_key kv with
      | Raise e => Raise e
      | Ok k =>
          match pairs_as_keys rest with
          | Raise e => Raise e
          | Ok ks => Ok (match k with Some k => k :: ks | None => ks end)
          end
      end
  end.

(** [dict.update(self, pairs)]: the pairs are stored one after the other,
    whether their keys are in the dict or not. *)
Definition store_pairs (m : gmap K V) (pairs : list (K * V)) : gmap K V :=
  foldl (fun m (kv : K * V) => <[kv.1 := kv.2]> m) m pairs.

(** [self.update(other)].  Iterating a mapping yields its keys; iterating
    an iterable of pairs yields the pairs.  [dict.update] stores every
    entry of [other] and does not go through [__setitem__]. *)
Definition update (self : NonMutableDict) (other : update_arg)
  : NonMutableDict * result unit :=
  match other with
  | Mapping other =>
      if existsb (contains self) (map_to_list other).*1
      then (self,
            Raise (overwrite_error self
                     (filter (fun k => contains self k = true)
                        (map_to_list other).*1)))
      else (mkNonMutableDict (other ∪ entries self) (_error_msg self), Ok tt)
  | Pairs other =>
      match any_pair_in self other with
      | Raise e => (self, Raise e)
      | Ok true =>
          (self,
           Raise match pairs_as_keys other with
                 | Raise e => e
                 | Ok ks =>
                     overwrite_error self
                       (filter (fun k => contains self k = true) ks)
                 end)
      | Ok false =>
          (mkNonMutableDict (store_pairs (entries self) other)
             (_error_msg self), Ok tt)
      end
  end.

End dict.

Arguments NonMutableDict K {_ _} V.
Arguments update_arg K {_ _} V.

(** *** Examples *)

Definition one_entry : NonMutableDict string Z :=
  mkNonMutableDict (<["a"%string := 1]> ∅) "Try to overwrite existing key: {key}".

(** A tuple of a [str] and an [int] is hashable and equal to no [str]. *)
Definition no_tuple_keys : string * Z -> result (option string) :=
  fun _ => Ok None.

(** *** The constructor and runs of statements *)

Section statements.
Context `{Countable K} {V : Type}.

Definition default_error_msg : string :=
  "Try to overwrite existing key: {key}".

(** [dict(pairs)]: the pairs are stored one after the other, a later pair
    for a key replacing an earlier one. *)
Definition dict_of_pairs (pairs : list (K * V)) : gmap K V :=
  foldl (fun m (kv : K * V) => <[kv.1 := kv.2]> m) ∅ pairs.

(** [NonMutableDict] called with [args] and [kwargs], with no positional argument or with
    one: the pairs of an iterable of pairs or of a mapping in its order.
    [dict.__init__] does not go through [__setitem__]. *)
Definition __init__ (args : option (list (K * V))) (kwargs : gmap string string)
  : result (NonMutableDict K V) :=
  let error_msg :=
    match kwargs !! "error_msg"%string with
    | Some msg => msg
    | None => default_error_msg
    end in
  let kwargs := delete "error_msg"%string kwargs in
  if bool_decide (kwargs <> ∅)
  then Raise (ValueError "NonMutableDict cannot be initialized with kwargs.")
  else Ok (mkNonMutableDict
             (dict_of_pairs match args with Some pairs => pairs | None => [] end)
             error_msg).

(** A statement on a dict: [d[k] = v] or [d.update(other)]. *)
Inductive statement : Type :=
| SetItem (k : K) (v : V)
| Update (other : update_arg K V).

Variable format : string -> list K -> result string.
Variable tuple_key : K * V -> result (option K).

Definition execute (d : NonMutableDict K V) (st : statement)
  : NonMutableDict K V * result unit :=
  match st with
  | SetItem k v => __setitem__ format d k v
  | Update other => update format tuple_key d other
  end.

(** The keys that the [update] calls with an iterable of pairs name. *)
Definition keys_of_pairs (sts : list statement) : list K :=
  concat ((fun st =>
             match st with
             | Update (Pairs other) => other.*1
             | _ => []
             end) <$> sts).

(** The dict after a run of statements, whichever of them raised. *)
Definition run (sts : list statement) (d : NonMutableDict K V)
  : NonMutableDict K V :=
  foldl (fun d st => (execute d st).1) d sts.

End statements.

Arguments statement K {_ _} V.

End NonMutable.

(** ** temporary_assignment, _no_cache_fields, dumps *)

Module Cache.

Inductive pyval : Type :=
| PyNone
| PyDict (items : list (string * string))
| PyOther (repr : string).

(** An object as [dumps] looks at it: the names of the classes of
    [type(obj).__mro__], and its attributes as [getattr] finds them. *)
Record pyobject : Type := mkObject {
  mro_names : list string;
  attrs : gmap string pyval
}.

Definition hasattr (obj : pyobject) (attr : string) : bool :=
  bool_decide (is_Some (attrs obj !! attr)).

(** [getattr(obj, attr, default)] *)
Definition getattr (obj : pyobject) (attr : string) (default : pyval) : pyval :=
  match attrs obj !! attr with
  | Some v => v
  | None => default
  end.

Definition setattr (obj : pyobject) (attr : string) (value : pyval) : pyobject :=
  mkObject (mro_names obj) (<[attr := value]> (attrs obj)).

(** [isinstance(v, dict)] *)
Definition is_dict (v : pyval) : bool :=
  match v with PyDict _ => true | _ => false end.

(** The test of [_no_cache_fields]: a class named PreTrainedTokenizerBase
    is among the classes of the object, which has an attribute [cache] that
    is a dict. *)
Definition has_tokenizer_cache (obj : pyobject) : bool :=
  bool_decide ("PreTrainedTokenizerBase"%string ∈ mro_names obj)
  && hasattr obj "cache"
  && is_dict (getattr obj "cache" PyNone).

Section with_statement.
Context {X : Type}.

(** The block of a [with] statement: it runs on the object, may assign to
    its attributes, and ends normally or by an exception. *)
Definition block : Type := pyobject -> pyobject * result X.

(** [with temporary_assignment(obj, attr, value): body].  The [finally]
    clause runs however [body] ends. *)
Definition temporary_assignment (obj : pyobject) (attr : string)
    (value : pyval) (body : block) : pyobject * result X :=
  let original := getattr obj attr PyNone in
  let obj := setattr obj attr value in
  let '(obj, r) := body obj in
  (setattr obj attr original, r).

(** How a [with] block ends when the generator of the context manager
    catches [ImportError] at its [yield] and yields a second time:
    [contextlib] answers a generator that yields again after [throw()] with
    a [RuntimeError]. *)
Definition after_throw (r : result X) : result X :=
  match r with
  | Raise (ImportError _) =>
      Raise (RuntimeError "generator didn't stop after throw()")
  | _ => r
  end.

(** [with _no_cache_fields(obj): body] *)
Definition _no_cache_fields (obj : pyobject) (body : block)
  : pyobject * result X :=
  let r :=
    if has_tokenizer_cache obj
    then temporary_assignment obj "cache" (PyDict []) body
    else body obj in
  (r.1, after_throw r.2).

End with_statement.

Section dumps.
(** [dump(obj, file)] with a fresh [file]: the bytes written, or the
    exception raised by the pickler. *)
Variable dump : pyobject -> pyobject * result (list Byte.byte).

(** [dumps(obj)] *)
Definition dumps (obj : pyobject) : pyobject * result (list Byte.byte) :=
  _no_cache_fields obj dump.

End dumps.

(** *** Examples *)

(** A tokenizer with a filled cache and a pickler that writes one byte. *)
Definition tokenizer : pyobject :=
  mkObject ["BertTokenizer"; "PreTrainedTokenizerBase"; "object"]%string
    (<["cache" := PyDict [("hello", "7592")]]>
       (<["name" := PyOther "bert"]> ∅))%string.

Definition one_byte (obj : pyobject) : pyobject * result (list Byte.byte) :=
  (obj, Ok [Byte.x80]).

(** A pickler that fails on an import. *)
Definition no_module (obj : pyobject) : pyobject * result (list Byte.byte) :=
  (obj, Raise (ImportError "No module named torch")).

(** An object without attributes. *)
Definition plain : pyobject := mkObject ["object"%string] ∅.

(** A block that does nothing. *)
Definition pass (obj : pyobject) : pyobject * result unit := (obj, Ok tt).

End Cache.

(** ** Pickler.memoize *)

Module Memo.

(** Objects with their identity [id(obj)]; the same identity at two places
    of a container is the same object held twice. *)
Inductive pyobj : Type :=
| PStr (id : nat) (s : string)
| PInt (id : nat) (z : Z)
| PList (id : nat) (items : list pyobj)
| PTuple (id : nat) (items : list pyobj).

Definition py_id (obj : pyobj) : nat :=
  match obj with
  | PStr i _ | PInt i _ | PList i _ | PTuple i _ => i
  end.

(** [type(obj) == str] *)
Definition is_str (obj : pyobj) : bool :=
  match obj with PStr _ _ => true | _ => false end.

Inductive opcode : Type :=
| PROTO
| BINUNICODE (s : string)
| BININT (z : Z)
| EMPTY_LIST
| MARK
| APPENDS
| TUPLE
| PUT (idx : nat)
| GET (idx : nat)
| STOP.

(** The pickler: its memo (identity to memo index) and the stream written
    so far. *)
Record Pickler : Type := mkPickler {
  memo : gmap nat nat;
  written : list opcode
}.

Definition write (op : opcode) (self : Pickler) : Pickler :=
  mkPickler (memo self) (written self ++ [op]).

(** Modelled from the spec: [dill.Pickler.memoize], the method of the
    serialization library that [Pickler.memoize] overrides; the library is
    not part of the repository.  An object is memoized by reference: it gets
    the next memo index, which is written to the stream. *)
Definition base_memoize (self : Pickler) (obj : pyobj) : Pickler :=
  let idx := size (memo self) in
  mkPickler (<[py_id obj := idx]> (memo self)) (written self ++ [PUT idx]).

(** [Pickler.memoize(self, obj)] *)
Definition memoize (self : Pickler) (obj : pyobj) : Pickler :=
  if negb (is_str obj) then base_memoize self obj else self.

(** Modelled from the spec: the generic structural encoder of the
    serialization library ([save] and the [save_<type>] methods it
    dispatches to), which is not part of the repository.  An object that is
    in the memo is written as a reference to its memo index; any other is
    written structurally and handed to [memoize], a list before its items
    and a tuple after them; integers are not memoized. *)
Fixpoint save (self : Pickler) (obj : pyobj) {struct obj} : Pickler :=
  match memo self !! py_id obj with
  | Some idx => write (GET idx) self
  | None =>
      match obj with
      | PStr _ s => memoize (write (BINUNICODE s) self) obj
      | PInt _ z => write (BININT z) self
      | PList _ items =>
          write APPENDS
            (foldl save (write MARK (memoize (write EMPTY_LIST self) obj)) items)
      | PTuple _ items =>
          memoize (write TUPLE (foldl save (write MARK self) items)) obj
      end
  end.

(** [dumps(obj)]: [dump] runs a fresh pickler on [obj]; none of these
    objects has a [cache] attribute, so [_no_cache_fields] only yields. *)
Definition dumps (obj : pyobj) : list opcode :=
  written (write STOP (save (mkPickler ∅ [PROTO]) obj)).

(** The identities of the [str] objects of an object, and those of its
    lists and tuples. *)
Fixpoint str_ids (obj : pyobj) : list nat :=
  match obj with
  | PStr i _ => [i]
  | PInt _ _ => []
  | PList _ items | PTuple _ items => concat (str_ids <$> items)
  end.

Fixpoint container_ids (obj : pyobj) : list nat :=
  match obj with
  | PStr _ _ | PInt _ _ => []
  | PList i items | PTuple i items => i :: concat (container_ids <$> items)
  end.

(** Two objects that are the same but for the identities of their [str]
    objects: equal text, held by any [str] objects. *)
Inductive same_text : pyobj -> pyobj -> Prop :=
| same_text_str (i j : nat) (s : string) : same_text (PStr i s) (PStr j s)
| same_text_int (i : nat) (z : Z) : same_text (PInt i z) (PInt i z)
| same_text_list (i : nat) (l1 l2 : list pyobj) :
    Forall2 same_text l1 l2 -> same_text (PList i l1) (PList i l2)
| same_text_tuple (i : nat) (l1 l2 : list pyobj) :
    Forall2 same_text l1 l2 -> same_text (PTuple i l1) (PTuple i l2).

(** Objects alive at the same time have different identities: no [str]
    object of [o1] or [o2] has the identity of a list or tuple. *)
Definition str_ids_apart (o1 o2 : pyobj) : bool :=
  forallb (fun i => negb (bool_decide (i ∈ container_ids o1)))
    (str_ids o1 ++ str_ids o2).

(** With [text] the set of the identities of the [str] objects: a memo
    without an entry for any of them. *)
Definition clean (text : nat -> Prop) (p : Pickler) : Prop :=
  forall i, text i -> memo p !! i = None.

(** Pickled from a clean memo, an object and any object with the same text
    leave the same pickler, and its memo is clean. *)
Definition blind (text : nat -> Prop) (o1 : pyobj) : Prop :=
  forall o2 p,
    same_text o1 o2 ->
    Forall text (str_ids o1) -> Forall text (str_ids o2) ->
    Forall (fun i => ~ text i) (container_ids o1) ->
    clean text p ->
    save p o1 = save p o2 /\ clean text (save p o1).

(** *** Examples *)

(** A list that holds one [str] object twice, and a list that holds two
    [str] objects with the same text. *)
Definition shared_text : pyobj := PList 1 [PStr 2 "a"; PStr 2 "a"].
Definition equal_text : pyobj := PList 1 [PStr 2 "a"; PStr 3 "a"].

End Memo.

(** ** _save_code, save_function, dump *)

Module Pickling.

(** The objects the savers hand on to the pickler without looking inside.
    Of such an object [O] the savers only need the [str] and [None] objects
    and the comparison with a module name. *)
Class PyObj (O : Type) : Type := {
  py_str : string -> O;
  py_none : O;
  (** [o == s] for a [str] [s] *)
  py_eq_str : O -> string -> bool;
  (** [o is None] *)
  py_is_none : O -> bool
}.

(** The expression that created a dict stands for the identity of the dict:
    two dicts are the same object ([is]) when they have the same site. *)
Inductive dict_site : Type :=
| site_globals        (* obj.__globals__ *)
| site_main           (* getattr(pickler, "_main", _original_main).__dict__ *)
| site_globalvars     (* the dict returned by globalvars(obj, ...) *)
| site_name_literal   (* {"__name__": obj.__module__} *)
| site_sorted         (* {k: globs[k] for k in sorted(globs.keys())} *)
| site_func_dict.     (* obj.__dict__ *)

Definition site_eqb (a b : dict_site) : bool :=
  match a, b with
  | site_globals, site_globals | site_main, site_main
  | site_globalvars, site_globalvars | site_name_literal, site_name_literal
  | site_sorted, site_sorted | site_func_dict, site_func_dict => true
  | _, _ => false
  end.

(** The order of [sorted] on [str] keys. *)
Definition str_le (a b : string) : Prop := String.leb a b = true.

#[global] Instance str_le_dec : RelDecision str_le.
Proof. intros a b. unfold str_le. apply _. Defined.

(** [s.startswith(p)] *)
Definition startswith (s p : string) : bool := String.prefix p s.

Fixpoint has_slash (p : string) : bool :=
  match p with
  | EmptyString => false
  | String c r => Ascii.eqb c "/" || has_slash r
  end.

(** [os.path.basename(p)] of [posixpath]: what follows the last slash. *)
Fixpoint basename (p : string) : string :=
  match p with
  | EmptyString => EmptyString
  | String c r =>
      if has_slash r then basename r
      else if Ascii.eqb c "/" then r else p
  end.

Section savers.
Context {O : Type} `{PyObj O}.

(** A [dict] with [str] keys, in iteration order, and its identity. *)
Record pydict : Type := mkDict {
  site : dict_site;
  items : list (string * O)
}.

(** [d[k]] *)
Definition dict_get (d : list (string * O)) (k : string) : option O :=
  snd <$> find (fun kv => String.eqb kv.1 k) d.

(** [{k: globs[k] for k in sorted(globs.keys())}] *)
Definition sorted_copy (globs : list (string * O)) : list (string * O) :=
  omap (fun k => pair k <$> dict_get globs k) (merge_sort str_le globs.*1).

(** *** Code objects *)

Record code : Type := mkCode {
  co_argcount : Z;
  (** [None] where code objects have no attribute [co_posonlyargcount] *)
  co_posonlyargcount : option Z;
  co_kwonlyargcount : Z;
  co_nlocals : Z;
  co_stacksize : Z;
  co_flags : Z;
  co_code : string;
  co_consts : list O;
  co_names : list string;
  co_varnames : list string;
  co_filename : string;
  co_name : string;
  co_firstlineno : Z;
  co_lnotab : string;
  co_freevars : list string;
  co_cellvars : list string
}.

(** The code object [c] with other constants, file name and first line. *)
Definition relocate_code (c : code) (consts : list O) (filename : string)
    (firstlineno : Z) : code :=
  mkCode (co_argcount c) (co_posonlyargcount c) (co_kwonlyargcount c)
    (co_nlocals c) (co_stacksize c) (co_flags c) (co_code c) consts
    (co_names c) (co_varnames c) filename (co_name c) firstlineno
    (co_lnotab c) (co_freevars c) (co_cellvars c).

(** The entries of the tuple [args] of [_save_code]. *)
Inductive code_arg : Type :=
| CInt (z : Z)
| CBytes (b : string)
| CStr (s : string)
| CNames (names : list string)
| CConsts (consts : list O).

(** The file name that [_save_code] keeps: none for a file whose name
    starts with [<] and for a lambda, else the base name. *)
Definition kept_filename (obj : code) : string :=
  if startswith (co_filename obj) "<" || String.eqb (co_name obj) "<lambda>"
  then EmptyString
  else basename (co_filename obj).

(** [_save_code(pickler, obj)]: the class and the arguments passed to
    [pickler.save_reduce].  [dill._dill.PY3] holds: the module is written
    in Python 3 syntax. *)
Definition _save_code (obj : code) : string * list code_arg :=
  let co_filename_ := kept_filename obj in
  let co_firstlineno_ := 1 in
  let args :=
    match co_posonlyargcount obj with
    | Some posonlyargcount =>
        [CInt (co_argcount obj); CInt posonlyargcount;
         CInt (co_kwonlyargcount obj); CInt (co_nlocals obj);
         CInt (co_stacksize obj); CInt (co_flags obj); CBytes (co_code obj);
         CConsts (co_consts obj); CNames (co_names obj);
         CNames (co_varnames obj); CStr co_filename_; CStr (co_name obj);
         CInt co_firstlineno_; CBytes (co_lnotab obj);
         CNames (co_freevars obj); CNames (co_cellvars obj)]
    | None =>
        [CInt (co_argcount obj);
         CInt (co_kwonlyargcount obj); CInt (co_nlocals obj);
         CInt (co_stacksize obj); CInt (co_flags obj); CBytes (co_code obj);
         CConsts (co_consts obj); CNames (co_names obj);
         CNames (co_varnames obj); CStr co_filename_; CStr (co_name obj);
         CInt co_firstlineno_; CBytes (co_lnotab obj);
         CNames (co_freevars obj); CNames (co_cellvars obj)]
    end in
  ("CodeType"%string, args).

(** *** Functions *)

Record function : Type := mkFunction {
  __code__ : code;
  __globals__ : list (string * O);
  __name__ : string;
  __qualname__ : string;
  __module__ : option string;
  __defaults__ : option (list O);
  (** the cells of the closure *)
  __closure__ : option (list O);
  __dict__ : list (string * O);
  __kwdefaults__ : option (list (string * O));
  __doc__ : option string;
  __annotations__ : option (list (string * O))
}.

(** The function [f] with another code object. *)
Definition with_code (f : function) (c : code) : function :=
  mkFunction c (__globals__ f) (__name__ f) (__qualname__ f) (__module__ f)
    (__defaults__ f) (__closure__ f) (__dict__ f) (__kwdefaults__ f)
    (__doc__ f) (__annotations__ f).

(** What dill's helpers and the interpreter answer about a function. *)
Record dill_view : Type := mkView {
  (** [dill._dill._locate_function(obj)] *)
  located : bool;
  (** [dill.detect.globalvars(obj, recurse=True, builtin=True)], in the
      order in which the dict iterates *)
  globalvars : list (string * O);
  (** [id(obj) in dill._dill.stack] *)
  in_stack : bool;
  (** [obj.__globals__ is _original_main.__dict__] *)
  globals_is_original_main : bool;
  (** [getattr(pickler, "_main", _original_main).__dict__] *)
  main_dict : list (string * O);
  (** [dill._dill._import_module(obj.__module__, True).__dict__ is
      obj.__globals__] *)
  globals_is_module_dict : bool;
  (** [{id(g) for g in globs_copy.values()}] *)
  glob_ids : list nat
}.

(** An entry of a list of post-processing steps. *)
Inductive postproc : Type :=
| Setitems (dest source : pydict)       (* (dill._dill._setitems, (dest, source)) *)
| OtherPostproc (repr : string).

(** The attributes of the pickler that [save_function] reads and writes;
    [None] is an attribute that [getattr] does not find. *)
Record pickler : Type := mkPickler {
  _recurse : option bool;
  _byref : option bool;
  _main_modified : option bool;
  (** the ordered dict from the identity of an object being saved to its
      post-processing list *)
  _postproc : list (nat * list postproc)
}.

Definition truthy (b : option bool) : bool :=
  match b with Some true => true | _ => false end.

Inductive func_arg : Type :=
| FCode (c : code)
| FDict (d : pydict)
| FStr (s : string)
| FOptTuple (t : option (list O))
| FOptDict (d : option (list (string * O))).

Inductive state_val : Type :=
| SStr (s : string)
| SNone
| SDict (d : list (string * O)).

(** The [state] of the reduction of the dill >= 0.3.5 path: [obj.__dict__],
    or the pair of it and [state_dict]. *)
Inductive fstate : Type :=
| StatePlain (d : list (string * O))
| StatePair (d : list (string * O)) (state_dict : list (string * state_val)).

(** What [save_function] asks of the pickler: a reduction (with the pickler
    attributes in force while it is saved, those left behind, and whether
    the memo is cleared afterwards), or a reference by name. *)
Inductive action : Type :=
| SaveReduce (during : pickler) (callable : string) (args : list func_arg)
    (state : option fstate) (postproc_list : list postproc)
    (after : pickler) (clear_memo : bool)
| SaveGlobal (name : string).

Definition set_byref (b : option bool) (p : pickler) : pickler :=
  mkPickler (_recurse p) b (_main_modified p) (_postproc p).

Definition set_recurse (b : option bool) (p : pickler) : pickler :=
  mkPickler b (_byref p) (_main_modified p) (_postproc p).

Definition set_postproc (s : list (nat * list postproc)) (p : pickler)
  : pickler :=
  mkPickler (_recurse p) (_byref p) (_main_modified p) s.

(** [save_function(pickler, obj)] as defined when
    [config.DILL_VERSION < version.parse("0.3.5")], in its Python 3 branch;
    [OLDER] is [dill._dill.OLDER].  The entry that the function makes for
    [obj] in [dill._dill.stack] is read by later calls through
    [in_stack]. *)
Definition save_function_lt_035 (OLDER : bool) (pickler_ : pickler)
    (view : dill_view) (obj : function) : action :=
  if negb (located view)
  then
    let globs :=
      if truthy (_recurse pickler_)
      then (if in_stack view
            then mkDict site_globals (__globals__ obj)
            else mkDict site_globalvars (globalvars view))
      else mkDict site_globals (__globals__ obj) in
    let globs := mkDict site_sorted (sorted_copy (items globs)) in
    let _byref_ := _byref pickler_ in
    let _recurse_ := _recurse pickler_ in
    let _memo := in_stack view && bool_decide (is_Some _recurse_) in
    let _super :=
      bool_decide ("super"%string ∈ co_names (__code__ obj))
      && bool_decide (is_Some _byref_) in
    let during :=
      (if _memo then set_recurse (Some false) else id)
        ((if _super then set_byref (Some true) else id) pickler_) in
    let fkwdefaults := __kwdefaults__ obj in
    let after :=
      (if _memo then set_recurse _recurse_ else id)
        ((if _super then set_byref _byref_ else id) during) in
    SaveReduce during "_create_function"
      [FCode (__code__ obj); FDict globs; FStr (__name__ obj);
       FOptTuple (__defaults__ obj); FOptTuple (__closure__ obj);
       FDict (mkDict site_func_dict (__dict__ obj)); FOptDict fkwdefaults]
      None []
      after
      (OLDER && negb (truthy _byref_)
       && (_super || (negb _super && _memo)
           || (negb _super && negb _memo && truthy _recurse_)))
  else SaveGlobal (__qualname__ obj).

(** The [for ... else] over [_postproc]: the entry is appended to the list
    of the first stack element that is in [glob_ids]; [None] when the loop
    ends without [break]. *)
Fixpoint append_on_stack (ids : list nat) (entry : postproc)
    (stack : list (nat * list postproc)) : option (list (nat * list postproc)) :=
  match stack with
  | [] => None
  | (stack_element, procs) :: rest =>
      if bool_decide (stack_element ∈ ids)
      then Some ((stack_element, procs ++ [entry]) :: rest)
      else cons (stack_element, procs) <$> append_on_stack ids entry rest
  end.

Definition module_obj (obj : function) : O :=
  match __module__ obj with
  | Some m => py_str m
  | None => py_none
  end.

(** [obj.__module__ != v] *)
Definition module_differs (obj : function) (v : O) : bool :=
  match __module__ obj with
  | Some m => negb (py_eq_str v m)
  | None => negb (py_is_none v)
  end.

(** [save_function(pickler, obj)] as defined when
    [config.DILL_VERSION >= version.parse("0.3.5")], in its Python 3 branch:
    what is passed to [dill._dill._save_with_postproc].  [obj.__dict__] is a
    [dict].  The
    block that follows the call lifts the updates of closure cells that hold
    [obj] itself; the objects here are trees, no cell holds the function it
    belongs to, and the block is left out. *)
Definition save_function_ge_035 (pickler_ : pickler) (view : dill_view)
    (obj : function) : action :=
  if negb (located view)
  then
    let _recurse_ := _recurse pickler_ in
    let _postproc_ := _postproc pickler_ in
    let _main_modified_ := _main_modified pickler_ in
    let name_literal := mkDict site_name_literal [("__name__"%string, module_obj obj)] in
    let '(globs_copy, globs) :=
      if truthy _recurse_
      then (mkDict site_globalvars (globalvars view), name_literal)
      else
        let globs_copy := mkDict site_globals (__globals__ obj) in
        if truthy _main_modified_ && globals_is_original_main view
        then let globs_copy := mkDict site_main (main_dict view) in
             (globs_copy, globs_copy)
        else if bool_decide (is_Some (__module__ obj))
                && globals_is_module_dict view
        then (globs_copy, globs_copy)
        else (globs_copy, name_literal) in
    let '(_postproc_, postproc_list) :=
      if negb (site_eqb (site globs) (site globs_copy))
      then
        match append_on_stack (glob_ids view) (Setitems globs globs_copy)
                _postproc_ with
        | Some stack => (stack, [])
        | None => (_postproc_, [Setitems globs globs_copy])
        end
      else (_postproc_, []) in
    let globs := mkDict site_sorted (sorted_copy (items globs)) in
    let closure := __closure__ obj in
    let state_dict :=
      match __doc__ obj with
      | Some doc => [("__doc__"%string, SStr doc)] | None => [] end
      ++ match __kwdefaults__ obj with
         | Some d => [("__kwdefaults__"%string, SDict d)] | None => [] end
      ++ match __annotations__ obj with
         | Some d => [("__annotations__"%string, SDict d)] | None => [] end
      ++ (if negb (String.eqb (__qualname__ obj) (__name__ obj))
          then [("__qualname__"%string, SStr (__qualname__ obj))] else [])
      ++ (if match dict_get (items globs) "__name__" with
             | None => true
             | Some v => module_differs obj v
             end
          then [("__module__"%string,
                 match __module__ obj with Some m => SStr m | None => SNone end)]
          else []) in
    let state :=
      match state_dict with
      | [] => StatePlain (__dict__ obj)
      | _ => StatePair (__dict__ obj) state_dict
      end in
    let during := set_postproc _postproc_ pickler_ in
    SaveReduce during "_create_function"
      [FCode (__code__ obj); FDict globs; FStr (__name__ obj);
       FOptTuple (__defaults__ obj); FOptTuple closure]
      (Some state) postproc_list during false
  else SaveGlobal (__qualname__ obj).

(** The arguments and the post-processing list of a reduction. *)
Definition reduce_args (a : action) : list func_arg :=
  match a with
  | SaveReduce _ _ args _ _ _ _ => args
  | SaveGlobal _ => []
  end.

Definition reduce_postproc (a : action) : list postproc :=
  match a with
  | SaveReduce _ _ _ _ postproc_list _ _ => postproc_list
  | SaveGlobal _ => []
  end.

(** The dict of globals that [save_function] for dill < 0.3.5 captures. *)
Definition captured_globals (pickler_ : pickler) (view : dill_view)
    (obj : function) : list (string * O) :=
  if truthy (_recurse pickler_) && negb (in_stack view)
  then globalvars view
  else __globals__ obj.

(** The view [v] with [globalvars] returning the dict [gv]. *)
Definition with_globalvars (v : dill_view) (gv : list (string * O))
  : dill_view :=
  mkView (located v) gv (in_stack v) (globals_is_original_main v)
    (main_dict v) (globals_is_module_dict v) (glob_ids v).

(** The module defines one of the two, by the version of dill. *)
Definition save_function (DILL_LT_0_3_5 OLDER : bool)
  : pickler -> dill_view -> function -> action :=
  if DILL_LT_0_3_5 then save_function_lt_035 OLDER else save_function_ge_035.

End savers.

Arguments pydict O : clear implicits.
Arguments code O : clear implicits.
Arguments code_arg O : clear implicits.
Arguments function O : clear implicits.
Arguments dill_view O : clear implicits.
Arguments postproc O : clear implicits.
Arguments pickler O : clear implicits.
Arguments func_arg O : clear implicits.
Arguments state_val O : clear implicits.
Arguments fstate O : clear implicits.
Arguments action O : clear implicits.

(** *** The pickler at work on an object tree *)

(** The objects that [dump] is run on: constants, tuples, closure cells,
    code objects and functions, as trees. *)
Inductive pyobj : Type :=
| ONone
| OInt (z : Z)
| OStr (s : string)
| OBytes (b : string)
| OTuple (l : list pyobj)
| OCell (contents : pyobj)
| OCode (c : code pyobj)
| OFunc (f : function pyobj) (view : dill_view pyobj).

#[global] Instance pyobj_PyObj : PyObj pyobj := {
  py_str := OStr;
  py_none := ONone;
  py_eq_str o s := match o with OStr s' => String.eqb s' s | _ => false end;
  py_is_none o := match o with ONone => true | _ => false end
}.

(** What the pickler writes for an object, as the tree that the byte stream
    spells out and that [loads] reads back. *)
Inductive payload : Type :=
| YNone
| YInt (z : Z)
| YStr (s : string)
| YBytes (b : string)
| YTuple (l : list payload)
| YDict (d : list (string * payload))
| YCell (contents : payload)
| YGlobal (name : string)
| YReduce (callable : string) (args : list payload) (state : payload)
    (postproc_list : list payload).

#[global] Instance payload_PyObj : PyObj payload := {
  py_str := YStr;
  py_none := YNone;
  py_eq_str o s := match o with YStr s' => String.eqb s' s | _ => false end;
  py_is_none o := match o with YNone => true | _ => false end
}.

Definition map_items {X Y} (g : X -> Y) (d : list (string * X))
  : list (string * Y) :=
  (fun kv : string * X => let (k, v) := kv in (k, g v)) <$> d.

(** The attributes of a code object, of a function and of its view, each
    object among them replaced by its image under [g]. *)
Definition code_map {X Y} (g : X -> Y) (c : code X) : code Y :=
  match c with
  | mkCode a po kw nl ss fl cd consts names varnames fn nm ln lt fv cv =>
      mkCode a po kw nl ss fl cd (g <$> consts) names varnames fn nm ln lt fv cv
  end.

Definition function_map {X Y} (g : X -> Y) (f : function X) : function Y :=
  match f with
  | mkFunction c globals nm qn md defaults closure dict kwdefaults doc ann =>
      mkFunction (code_map g c) (map_items g globals) nm qn md
        (option_map (map g) defaults) (option_map (map g) closure)
        (map_items g dict) (option_map (map_items g) kwdefaults) doc
        (option_map (map_items g) ann)
  end.

Definition view_map {X Y} (g : X -> Y) (v : dill_view X) : dill_view Y :=
  match v with
  | mkView loc gv st gom md gmd ids =>
      mkView loc (map_items g gv) st gom (map_items g md) gmd ids
  end.

(** [pickler.save_reduce] and [_save_with_postproc] on parts that are
    already written. *)
Definition write_code_arg (a : code_arg payload) : payload :=
  match a with
  | CInt z => YInt z
  | CBytes b => YBytes b
  | CStr s => YStr s
  | CNames names => YTuple (YStr <$> names)
  | CConsts consts => YTuple consts
  end.

Definition write_code (c : code payload) : payload :=
  let '(cls, args) := _save_code c in
  YReduce cls (write_code_arg <$> args) YNone [].

Definition write_func_arg (a : func_arg payload) : payload :=
  match a with
  | FCode c => write_code c
  | FDict d => YDict (items d)
  | FStr s => YStr s
  | FOptTuple (Some t) => YTuple t
  | FOptDict (Some d) => YDict d
  | FOptTuple None | FOptDict None => YNone
  end.

Definition write_state_val (v : state_val payload) : payload :=
  match v with
  | SStr s => YStr s
  | SNone => YNone
  | SDict d => YDict d
  end.

Definition write_state (s : option (fstate payload)) : payload :=
  match s with
  | None => YNone
  | Some (StatePlain d) => YDict d
  | Some (StatePair d state_dict) =>
      YTuple [YDict d; YDict (map_items write_state_val state_dict)]
  end.

Definition write_postproc (p : postproc payload) : payload :=
  match p with
  | Setitems dest source =>
      YReduce "_setitems" [YDict (items dest); YDict (items source)] YNone []
  | OtherPostproc repr => YGlobal repr
  end.

Definition write_action (a : action payload) : payload :=
  match a with
  | SaveReduce _ callable args state postproc_list _ _ =>
      YReduce callable (write_func_arg <$> args) (write_state state)
        (write_postproc <$> postproc_list)
  | SaveGlobal name => YGlobal name
  end.

(** Modelled from the spec: the serializer's walk over the object graph
    (the [save] method of the serialization library, which is not part of
    the repository).  The registry is consulted first: a code object goes to
    [_save_code], a function to [save_function]; any other object is written
    structurally.  The savers hand the attributes of the object on to the
    pickler without looking inside them, so each is run on the attributes as
    the walk has written them.  The trees have no shared or cyclic parts, so
    the memo and the stack of objects being saved stay out of play, and
    every function is saved with the pickler attributes [dump] starts
    from. *)
Fixpoint save (DILL_LT_0_3_5 OLDER : bool) (pickler_ : pickler payload)
    (obj : pyobj) {struct obj} : payload :=
  match obj with
  | ONone => YNone
  | OInt z => YInt z
  | OStr s => YStr s
  | OBytes b => YBytes b
  | OTuple l => YTuple (save DILL_LT_0_3_5 OLDER pickler_ <$> l)
  | OCell contents => YCell (save DILL_LT_0_3_5 OLDER pickler_ contents)
  | OCode c => write_code (code_map (save DILL_LT_0_3_5 OLDER pickler_) c)
  | OFunc f view =>
      write_action
        (save_function DILL_LT_0_3_5 OLDER pickler_
           (view_map (save DILL_LT_0_3_5 OLDER pickler_) view)
           (function_map (save DILL_LT_0_3_5 OLDER pickler_) f))
  end.

(** [Pickler(file, recurse=True)]: dill's pickler starts with [_byref] and
    [_main_modified] off and an empty [_postproc]. *)
Definition dump_pickler {O} : pickler O :=
  mkPickler (Some true) (Some false) (Some false) [].

(** [dump(obj, file)]: [Pickler(file, recurse=True).dump(obj)], with what
    is written to [file] as its value. *)
Definition dump (DILL_LT_0_3_5 OLDER : bool) (obj : pyobj) : payload :=
  save DILL_LT_0_3_5 OLDER dump_pickler obj.


(** [dumps(obj)] for a function or a code object: neither is an instance of
    a class named PreTrainedTokenizerBase, [_no_cache_fields] only yields. *)
Definition dumps (DILL_LT_0_3_5 OLDER : bool) (obj : pyobj) : payload :=
  dump DILL_LT_0_3_5 OLDER obj.

(** *** Functions that differ in their place of definition only *)

(** [relocated same_origin o1 o2]: [o2] is [o1] but for the file names and
    first lines of its code objects (the code of a function, and the code
    objects among the constants of a code object); [same_origin] is asked of
    every pair of code objects.  Bodies, names, defaults, closures and
    globals are the same. *)
Inductive relocated (same_origin : code pyobj -> code pyobj -> Prop)
  : pyobj -> pyobj -> Prop :=
| relocated_same (o : pyobj) : relocated same_origin o o
| relocated_code (c : code pyobj) (consts : list pyobj) (filename : string)
    (firstlineno : Z) :
    Forall2 (relocated same_origin) (co_consts c) consts ->
    same_origin c (relocate_code c consts filename firstlineno) ->
    relocated same_origin (OCode c)
      (OCode (relocate_code c consts filename firstlineno))
| relocated_func (f : function pyobj) (view : dill_view pyobj)
    (c : code pyobj) :
    relocated same_origin (OCode (__code__ f)) (OCode c) ->
    relocated same_origin (OFunc f view) (OFunc (with_code f c) view).

(** Any two places of definition. *)
Definition any_origin (c1 c2 : code pyobj) : Prop := True.

(** Places of definition of which [_save_code] keeps the same file name. *)
Definition same_kept_filename (c1 c2 : code pyobj) : Prop :=
  kept_filename c1 = kept_filename c2.

(** *** Examples *)

(** The code of a closure [f] defined at line [ln] of file [fn], with one
    constant and one free variable. *)
Definition closure_code (fn : string) (ln : Z) : code pyobj :=
  mkCode 1 (Some 0) 0 1 2 19 "|0|1" [ONone; OInt 1] ["x"]%string ["a"]%string
    fn "f" ln "01" ["y"]%string [].

(** The closure: its globals are those of its module, its cell holds 5. *)
Definition closure (fn : string) (ln : Z) : function pyobj :=
  mkFunction (closure_code fn ln)
    [("np", OInt 3); ("__name__", OStr "__main__")]%string
    "f" "outer.<locals>.f" (Some "__main__"%string) None
    (Some [OCell (OInt 5)]) [] None None None.

(** dill does not find the closure by name; [globalvars] returns its two
    referenced globals in the order [order]. *)
Definition closure_view (order : list (string * pyobj)) : dill_view pyobj :=
  mkView false order false false [] true [].

Definition closure_at_foo : pyobj :=
  OFunc (closure "/home/a/foo.py" 10)
    (closure_view [("np", OInt 3); ("a", OInt 1)]%string).

(** The same closure defined in a file of the same name elsewhere. *)
Definition closure_moved : pyobj :=
  OFunc (with_code (closure "/home/a/foo.py" 10)
           (relocate_code (closure_code "/home/a/foo.py" 10)
              [ONone; OInt 1] "/srv/jobs/foo.py" 99))
    (closure_view [("np", OInt 3); ("a", OInt 1)]%string).

Definition closure_at_bar : pyobj :=
  OFunc (with_code (closure "/home/a/foo.py" 10)
           (relocate_code (closure_code "/home/a/foo.py" 10)
              [ONone; OInt 1] "/home/b/bar.py" 20))
    (closure_view [("np", OInt 3); ("a", OInt 1)]%string).

End Pickling.

(** ** unique_values, first_non_null_value, zip_dict *)

Module Iterables.

Section unique.
(** The values are hashable: equality on them is decidable. *)
Context {X : Type} `{EqDecision X}.

(** The values that [unique_values] yields from [values] on, [seen] being
    the set of the values met before. *)
Fixpoint unique_values_from (seen : list X) (values : list X) : list X :=
  match values with
  | [] => []
  | value :: rest =>
      if decide (value ∈ seen)
      then unique_values_from seen rest
      else value :: unique_values_from (value :: seen) rest
  end.

(** [unique_values(values)], as the list of what the generator yields. *)
Definition unique_values (values : list X) : list X :=
  unique_values_from [] values.

End unique.

Section first.
(** [None] is [None]; any other value is [Some x]. *)
Context {X : Type}.

(** The loop of [first_non_null_value] from index [i] on. *)
Fixpoint first_non_null_from (i : Z) (iterable : list (option X))
  : Z * option X :=
  match iterable with
  | [] => (-1, None)
  | value :: rest =>
      match value with
      | Some _ => (i, value)
      | None => first_non_null_from (i + 1) rest
      end
  end.

(** [first_non_null_value(iterable)] *)
Definition first_non_null_value (iterable : list (option X)) : Z * option X :=
  first_non_null_from 0 iterable.

(** [no_op_if_value_is_null(func)] *)
Definition no_op_if_value_is_null {Y} (func : X -> Y) : option X -> option Y :=
  fun value =>
    match value with
    | Some x => Some (func x)
    | None => None
    end.

End first.

Section zip.
(** A dict is the list of its items in iteration order. *)
Context {K V : Type} `{EqDecision K}.

(** How a generator ends: it is exhausted, or a lookup raises
    [KeyError(key)]. *)
Inductive ending : Type :=
| Exhausted
| KeyError (key : K).

(** Iterating a dict yields its keys. *)
Definition keys (d : list (K * V)) : list K := d.*1.

(** [d[key]], [None] for a missing key. *)
Definition getitem (d : list (K * V)) (key : K) : option V :=
  snd <$> find (fun kv : K * V => bool_decide (kv.1 = key)) d.

(** [tuple(d[key] for d in dicts)], [None] when a dict has no such key. *)
Definition values_at (key : K) (dicts : list (list (K * V)))
  : option (list V) :=
  mapM (fun d => getitem d key) dicts.

(** What [zip_dict] yields for a key: the value of the key in each dict, in
    the order of the dicts. *)
Definition tuple_of (dicts : list (list (K * V))) (kv : K * list V) : Prop :=
  Forall2 (fun d v => getitem d kv.1 = Some v) dicts kv.2.

(** The loop of [zip_dict] over the keys: what is yielded, and how the
    generator ends. *)
Fixpoint zip_keys (ks : list K) (dicts : list (list (K * V)))
  : list (K * list V) * ending :=
  match ks with
  | [] => ([], Exhausted)
  | key :: rest =>
      match values_at key dicts with
      | None => ([], KeyError key)
      | Some vs =>
          let r := zip_keys rest dicts in ((key, vs) :: r.1, r.2)
      end
  end.

(** [zip_dict] called with the dicts [dicts] *)
Definition zip_dict (dicts : list (list (K * V)))
  : list (K * list V) * ending :=
  zip_keys (unique_values (concat (keys <$> dicts))) dicts.

End zip.

Arguments ending K : clear implicits.

End Iterables.

(** ** NestedDataStructure *)

Module Flatten.
Import MapNested.

Section flatten.
Context {A : Type}.

(** [a is None] *)
Variable is_none : A -> bool.

Definition is_None (v : value A) : bool :=
  match v with
  | VObj a => is_none a
  | _ => false
  end.

(** [NestedDataStructure(data).data] *)
Definition __init__ (data : value A) : value A :=
  if is_None data then VList [] else data.

(** The interpreter ends a recursion that is too deep with a
    [RecursionError], which is a [RuntimeError]. *)
Definition RecursionError : exn :=
  RuntimeError "maximum recursion depth exceeded".

(** The list comprehension of [flatten]: the parts in order, up to the first
    exception. *)
Fixpoint gather (parts : list (result (list (value A))))
  : result (list (value A)) :=
  match parts with
  | [] => Ok []
  | part :: rest =>
      match part with
      | Raise e => Raise e
      | Ok xs =>
          match gather rest with
          | Raise e => Raise e
          | Ok ys => Ok (xs ++ ys)
          end
      end
  end.

(** [self.flatten(data)] with [self.data = self_data], with room for
    [depth] nested calls. *)
Fixpoint flatten (depth : nat) (self_data data : value A)
  : result (list (value A)) :=
  match depth with
  | O => Raise RecursionError
  | S depth' =>
      let data := if is_None data then self_data else data in
      match data with
      | VDict items => flatten depth' self_data (VList items.*2)
      | VList l | VTuple l => gather (flatten depth' self_data <$> l)
      | VArray _ | VObj _ => Ok [data]
      end
  end.

(** The types that [flatten] goes into, besides dicts. *)
Definition flatten_types : list pytype := [TyList; TyTuple].

(** Whether [None] is among the leaves of a value. *)
Definition has_None (v : value A) : bool :=
  existsb is_None (leaves flatten_types v).

(** The number of nested calls that [flatten] makes on a value without
    [None]: one more than on the deepest element of a list or tuple, two
    more than on the deepest value of a dict, whose values are first put
    into a list. *)
Fixpoint height (v : value A) : nat :=
  match v with
  | VDict items =>
      S (S (foldr Nat.max O
              ((fun kv : A * value A => let (_, x) := kv in height x)
                 <$> items)))
  | VList l | VTuple l => S (foldr Nat.max O (height <$> l))
  | VArray _ | VObj _ => 1%nat
  end.

End flatten.

(** *** Examples *)

(** [None] is -1 among the integers. *)
Definition none_is_minus_one (a : Z) : bool := a =? -1.

Definition two_files : value Z :=
  VDict [(10, VList [VObj 1; VObj 2]); (20, VTuple [VObj 3])].

End Flatten.

(** ** temp_seed *)

Module Seed.

Section temp_seed.
(** The states of the random number generators of numpy, torch, the CUDA
    devices and tensorflow are values of the libraries; [X] is what the
    block of the [with] statement returns. *)
Context {Np Torch Cuda Gen Rng Rest X : Type}.

(** The eager context of tensorflow: [_seed], [_rng] ([None] when the
    context has no attribute [_rng]) and its other attributes. *)
Record tf_context : Type := mkContext {
  _seed : option Z;
  _rng : option Rng;
  tf_rest : Rest
}.

(** What [temp_seed] reads and writes. *)
Record generators : Type := mkGenerators {
  (** [np.random.get_state()] *)
  np_random : Np;
  (** [torch.random.get_rng_state()] *)
  torch_random : Torch;
  (** [torch.cuda.get_rng_state_all()] *)
  torch_cuda : Cuda;
  (** [tf.random.get_global_generator()] *)
  tf_generator : Gen;
  (** [tfpycontext.context()] *)
  tf_eager_context : tf_context
}.

Definition set_np (s : Np) (r : generators) : generators :=
  mkGenerators s (torch_random r) (torch_cuda r) (tf_generator r)
    (tf_eager_context r).

Definition set_torch (s : Torch) (r : generators) : generators :=
  mkGenerators (np_random r) s (torch_cuda r) (tf_generator r)
    (tf_eager_context r).

Definition set_cuda (s : Cuda) (r : generators) : generators :=
  mkGenerators (np_random r) (torch_random r) s (tf_generator r)
    (tf_eager_context r).

Definition set_tf_generator (g : Gen) (r : generators) : generators :=
  mkGenerators (np_random r) (torch_random r) (torch_cuda r) g
    (tf_eager_context r).

Definition set_tf_context (c : tf_context) (r : generators) : generators :=
  mkGenerators (np_random r) (torch_random r) (torch_cuda r) (tf_generator r)
    c.

(** The calls into the libraries: each gives the new state from the seed
    and the state before.  [seed] is a seed that the libraries accept (for
    numpy an integer from 0 to 2**32 - 1).  [torch.random.manual_seed(seed)]
    seeds the generator of torch, and the generators of all CUDA devices as
    well: [torch_manual_seed] is what it does to the former,
    [manual_seed_on_cuda] what it does to the latter. *)
Variable np_random_seed : Z -> Np -> Np.
Variable torch_manual_seed : Z -> Torch -> Torch.
Variable manual_seed_on_cuda : Z -> Cuda -> Cuda.
Variable cuda_manual_seed_all : Z -> Cuda -> Cuda.
Variable from_seed : Z -> Gen.
Variable _set_global_seed : Z -> tf_context -> tf_context.

(** [config.TORCH_AVAILABLE], [config.TF_AVAILABLE],
    [torch.cuda.is_available()] and [tf.executing_eagerly()]. *)
Variables (TORCH_AVAILABLE TF_AVAILABLE : bool).
Variables (cuda_is_available executing_eagerly : bool).

(** The block of the [with] statement. *)
Definition seeded_block : Type := generators -> generators * result X.

(** The [finally] clause on the tensorflow context: [_seed] is set back,
    and [_rng] is set back or deleted; [delattr] raises [AttributeError]
    when the attribute is not there. *)
Definition restore_context (tf_seed : option Z) (tf_rng : option Rng)
    (c : tf_context) : tf_context * option exn :=
  match tf_rng with
  | Some rng => (mkContext tf_seed (Some rng) (tf_rest c), None)
  | None =>
      match _rng c with
      | Some _ => (mkContext tf_seed None (tf_rest c), None)
      | None =>
          (mkContext tf_seed None (tf_rest c),
           Some (OtherError "AttributeError: _rng"))
      end
  end.

(** [with temp_seed(seed, set_pytorch, set_tensorflow): body], run on the
    generators [r]: the generators afterwards and how the statement
    ends.  [torch_cuda_states] is read after [torch.random.manual_seed]. *)
Definition temp_seed (seed : Z) (set_pytorch set_tensorflow : bool)
    (body : seeded_block) (r : generators) : generators * result X :=
  let np_state := np_random r in
  let r := set_np (np_random_seed seed (np_random r)) r in
  let torch_state := torch_random r in
  let r :=
    if set_pytorch && TORCH_AVAILABLE
    then set_cuda (manual_seed_on_cuda seed (torch_cuda r))
           (set_torch (torch_manual_seed seed (torch_random r)) r)
    else r in
  let torch_cuda_states := torch_cuda r in
  let r :=
    if set_pytorch && TORCH_AVAILABLE && cuda_is_available
    then set_cuda (cuda_manual_seed_all seed (torch_cuda r)) r
    else r in
  let tf_state := tf_generator r in
  let r :=
    if set_tensorflow && TF_AVAILABLE
    then set_tf_generator (from_seed seed) r else r in
  if set_tensorflow && TF_AVAILABLE && negb executing_eagerly
  then (r, Raise (ValueError
                    "Setting random seed for TensorFlow is only available in eager mode"))
  else
    let tf_seed := _seed (tf_eager_context r) in
    let tf_rng := _rng (tf_eager_context r) in
    let r :=
      if set_tensorflow && TF_AVAILABLE
      then set_tf_context (_set_global_seed seed (tf_eager_context r)) r
      else r in
    let '(r, outcome) := body r in
    let r := set_np np_state r in
    let r :=
      if set_pytorch && TORCH_AVAILABLE
      then
        let r := set_torch torch_state r in
        if cuda_is_available then set_cuda torch_cuda_states r else r
      else r in
    if set_tensorflow && TF_AVAILABLE
    then
      let r := set_tf_generator tf_state r in
      let '(c, raised) := restore_context tf_seed tf_rng (tf_eager_context r) in
      (set_tf_context c r,
       match raised with Some e => Raise e | None => outcome end)
    else (r, outcome).

(** The generators on which the block is run. *)
Definition seeded (seed : Z) (set_pytorch set_tensorflow : bool)
    (r : generators) : generators :=
  let r := set_np (np_random_seed seed (np_random r)) r in
  let r :=
    if set_pytorch && TORCH_AVAILABLE
    then set_cuda (manual_seed_on_cuda seed (torch_cuda r))
           (set_torch (torch_manual_seed seed (torch_random r)) r)
    else r in
  let r :=
    if set_pytorch && TORCH_AVAILABLE && cuda_is_available
    then set_cuda (cuda_manual_seed_all seed (torch_cuda r)) r
    else r in
  if set_tensorflow && TF_AVAILABLE
  then set_tf_context (_set_global_seed seed (tf_eager_context r))
         (set_tf_generator (from_seed seed) r)
  else r.

End temp_seed.

(** *** Examples *)

(** Generators whose states are integers; seeding gives the seed. *)
Definition counters : @generators Z Z Z Z Z unit :=
  mkGenerators 1 2 3 4 (mkContext (Some 5) None tt).

Definition seed_to (seed : Z) (_ : Z) : Z := seed.

Definition seed_context (seed : Z) (c : @tf_context Z unit)
  : @tf_context Z unit :=
  mkContext (Some seed) (Some seed) (tf_rest c).

(** A block that draws from numpy: the state moves on. *)
Definition draw (r : @generators Z Z Z Z Z unit)
  : @generators Z Z Z Z Z unit * result Z :=
  (set_np (np_random r + 1) r, Ok (np_random r)).

End Seed.

(** * Part II: theorems *)

(** ** Slices *)

Lemma py_slice_in_range {X} (l : list X) (s e : Z) :
  0 <= s -> s <= e -> e <= Z.of_nat (length l) ->
  py_slice l s e = take (Z.to_nat (e - s)) (drop (Z.to_nat s) l).
Proof.
  intros Hs Hse He. unfold py_slice, slice_index.
  destruct (Z.ltb_spec s 0); [lia|].
  destruct (Z.ltb_spec e 0); [lia|].
  rewrite !Z.min_l by lia. reflexivity.
Qed.

Lemma py_slice_length {X} (l : list X) (s e : Z) :
  0 <= s -> s <= e -> e <= Z.of_nat (length l) ->
  Z.of_nat (length (py_slice l s e)) = e - s.
Proof.
  intros Hs Hse He. rewrite py_slice_in_range by lia.
  rewrite length_take, length_drop. lia.
Qed.

Lemma py_range_length (n : Z) : length (py_range n) = Z.to_nat n.
Proof. unfold py_range. now rewrite length_fmap, length_seq. Qed.

Lemma py_range_lookup (n : Z) (i : nat) :
  (i < Z.to_nat n)%nat -> py_range n !! i = Some (Z.of_nat i).
Proof.
  intros Hi. unfold py_range. rewrite list_lookup_fmap.
  rewrite lookup_seq_lt by lia. reflexivity.
Qed.

(** ** The split of map_nested *)

Module SplitFacts.
Import MapNested.

Lemma split_bounds_cut (len w i : Z) :
  0 < w -> split_bounds len w i = (cut len w i, cut len w (i + 1)).
Proof.
  intros Hw. unfold split_bounds, cut. cbv zeta. f_equal.
  pose proof (Z.mod_pos_bound len w Hw).
  destruct (Z.ltb_spec i (len mod w)); lia.
Qed.

Lemma cut_0 (len w : Z) : 0 < w -> cut len w 0 = 0.
Proof.
  intros Hw. unfold cut. pose proof (Z.mod_pos_bound len w Hw). lia.
Qed.

Lemma cut_all (len w : Z) : 0 < w -> cut len w w = len.
Proof.
  intros Hw. unfold cut. pose proof (Z.mod_pos_bound len w Hw).
  pose proof (Z.div_mod len w). lia.
Qed.

Lemma cut_step (len w i : Z) :
  0 < w -> 0 <= len -> 0 <= i ->
  cut len w (i + 1) - cut len w i
  = len / w + (if i <? len mod w then 1 else 0)
  /\ cut len w i <= cut len w (i + 1).
Proof.
  intros Hw Hlen Hi. unfold cut.
  pose proof (Z.mod_pos_bound len w Hw).
  pose proof (Z.div_pos len w Hlen Hw).
  destruct (Z.ltb_spec i (len mod w)); lia.
Qed.

Lemma cut_range (len w i : Z) :
  0 < w -> 0 <= len -> 0 <= i <= w -> 0 <= cut len w i <= len.
Proof.
  intros Hw Hlen Hi. unfold cut.
  pose proof (Z.mod_pos_bound len w Hw).
  pose proof (Z.div_pos len w Hlen Hw).
  pose proof (Z.div_mod len w).
  split; [nia|]. nia.
Qed.

(** The slices of the first [k] workers make up the list up to the start of
    slice [k]. *)
Lemma concat_slices {X} (l : list X) (w : Z) (k : nat) :
  0 < w -> Z.of_nat k <= w ->
  concat ((fun i => py_slice l (cut (Z.of_nat (length l)) w i)
                      (cut (Z.of_nat (length l)) w (i + 1)))
            <$> py_range (Z.of_nat k))
  = take (Z.to_nat (cut (Z.of_nat (length l)) w (Z.of_nat k))) l.
Proof.
  intros Hw. unfold py_range. rewrite Nat2Z.id.
  induction k as [|k IH]; intros Hk.
  - simpl. rewrite cut_0 by lia. reflexivity.
  - rewrite seq_S, !fmap_app, concat_app, IH by lia. simpl.
    rewrite app_nil_r.
    set (n := Z.of_nat (length l)).
    assert (Hn : 0 <= n) by lia.
    pose proof (cut_range n w (Z.of_nat k) Hw Hn ltac:(lia)) as Hr1.
    pose proof (cut_range n w (Z.of_nat k + 1) Hw Hn ltac:(lia)) as Hr2.
    pose proof (cut_step n w (Z.of_nat k) Hw Hn ltac:(lia)) as [_ Hmono].
    rewrite py_slice_in_range by (fold n; lia).
    rewrite take_take_drop. f_equal.
    replace (Z.of_nat (S k)) with (Z.of_nat k + 1) by lia. lia.
Qed.

End SplitFacts.

(** ** map_nested *)

Module MapNestedFacts.
Import MapNested SplitFacts.

Section facts.
Context {A : Type}.
Implicit Types (v data_struct iterable : value A) (l : list (value A)).
Implicit Types (types : list pytype) (function : value A -> value A).

(** Induction over nested values: the property holds of the elements of a
    container when it is to be shown of the container. *)
Lemma value_ind' (P : value A -> Prop) :
  (forall a, P (VObj a)) ->
  (forall items, Forall (fun kv => P kv.2) items -> P (VDict items)) ->
  (forall l, Forall P l -> P (VList l)) ->
  (forall l, Forall P l -> P (VTuple l)) ->
  (forall l, Forall P l -> P (VArray l)) ->
  forall v, P v.
Proof.
  intros Hobj Hdict Hlist Htuple Harray.
  fix IH 1. intros [a|items|l|l|l].
  - apply Hobj.
  - apply Hdict. induction items as [|[k x] items IHitems];
      constructor; [apply IH | exact IHitems].
  - apply Hlist. induction l; constructor; [apply IH | assumption].
  - apply Htuple. induction l; constructor; [apply IH | assumption].
  - apply Harray. induction l; constructor; [apply IH | assumption].
Qed.

(** *** The trace monad *)

Lemma collect_fst {X} (ms : list (@traced A X)) : (collect ms).1 = ms.*1.
Proof. induction ms as [|m ms IH]; simpl; [reflexivity|]. now rewrite IH. Qed.

Lemma collect_snd {X} (ms : list (@traced A X)) : (collect ms).2 = concat ms.*2.
Proof.
  induction ms as [|m ms IH]; simpl; [reflexivity|].
  rewrite IH. now rewrite app_nil_r.
Qed.

(** *** Sequences *)

Lemma getslice_rewrap v (s e : Z) :
  getslice v s e = rewrap v (py_slice (elements v) s e).
Proof. now destruct v. Qed.

Lemma elements_rewrap v l : is_seq v = true -> elements (rewrap v l) = l.
Proof. now destruct v. Qed.

Lemma isinstance_rewrap v l types :
  isinstance (rewrap v l) types = isinstance v types.
Proof. now destruct v. Qed.

Lemma is_dict_rewrap v l : is_seq v = true -> is_dict (rewrap v l) = false.
Proof. now destruct v. Qed.

Lemma is_seq_iterable_of data_struct types :
  negb (is_dict data_struct) && negb (isinstance data_struct types) = false ->
  is_seq (iterable_of data_struct) = true.
Proof. destruct data_struct; simpl; congruence. Qed.

Lemma py_len_pos_seq v : 0 < py_len v -> is_seq v = true.
Proof. destruct v; unfold py_len; simpl; lia || reflexivity. Qed.

(** *** The split *)

Lemma split_kwds_cut iterable (w : Z) :
  0 < w ->
  split_kwds iterable w
  = (fun i => rewrap iterable
                (py_slice (elements iterable) (cut (py_len iterable) w i)
                   (cut (py_len iterable) w (i + 1)))) <$> py_range w.
Proof.
  intros Hw. unfold split_kwds. apply list_fmap_ext. intros _ i _.
  rewrite split_bounds_cut by assumption. apply getslice_rewrap.
Qed.

Lemma split_kwds_concat iterable (w : Z) :
  0 < w -> is_seq iterable = true ->
  concat (elements <$> split_kwds iterable w) = elements iterable.
Proof.
  intros Hw Hseq. rewrite split_kwds_cut by assumption.
  rewrite <- list_fmap_compose.
  rewrite (list_fmap_ext _
             (fun i => py_slice (elements iterable)
                         (cut (py_len iterable) w i)
                         (cut (py_len iterable) w (i + 1))) (py_range w))
    by (intros; simpl; now apply elements_rewrap).
  unfold py_len.
  pose proof (concat_slices (elements iterable) w (Z.to_nat w) Hw
                ltac:(lia)) as Hc.
  rewrite Z2Nat.id in Hc by lia. rewrite Hc, cut_all by lia.
  rewrite Nat2Z.id. apply firstn_all.
Qed.

Lemma total_len_concat (chunks : list (value A)) :
  total_len chunks = Z.of_nat (length (concat (elements <$> chunks))).
Proof.
  induction chunks as [|c chunks IH]; [reflexivity|].
  unfold total_len in *. rewrite !fmap_cons. cbn [foldr concat].
  rewrite IH, length_app. unfold py_len. lia.
Qed.

Lemma split_kwds_total iterable (w : Z) :
  0 < w -> is_seq iterable = true ->
  total_len (split_kwds iterable w) = py_len iterable.
Proof.
  intros Hw Hseq. rewrite total_len_concat, split_kwds_concat by assumption.
  reflexivity.
Qed.

Lemma split_kwds_lookup iterable (w : Z) (i : nat) :
  0 < w -> Z.of_nat i < w ->
  split_kwds iterable w !! i
  = Some (getslice iterable (cut (py_len iterable) w (Z.of_nat i))
            (cut (py_len iterable) w (Z.of_nat i + 1))).
Proof.
  intros Hw Hi. rewrite split_kwds_cut by assumption.
  rewrite list_lookup_fmap, py_range_lookup by lia. simpl.
  now rewrite getslice_rewrap.
Qed.

Lemma py_len_getslice iterable (w i : Z) :
  0 < w -> 0 <= i < w -> is_seq iterable = true ->
  py_len (getslice iterable (cut (py_len iterable) w i)
            (cut (py_len iterable) w (i + 1)))
  = py_len iterable / w + (if i <? py_len iterable mod w then 1 else 0).
Proof.
  intros Hw Hi Hseq.
  assert (Hn : 0 <= py_len iterable) by (unfold py_len; lia).
  pose proof (cut_range (py_len iterable) w i Hw Hn ltac:(lia)).
  pose proof (cut_range (py_len iterable) w (i + 1) Hw Hn ltac:(lia)).
  pose proof (cut_step (py_len iterable) w i Hw Hn ltac:(lia)) as [Hstep ?].
  rewrite getslice_rewrap. unfold py_len at 1.
  rewrite elements_rewrap by assumption.
  rewrite py_slice_length by (fold (py_len iterable); lia).
  exact Hstep.
Qed.

(** *** _single_map_nested *)

Lemma single_singleton function types v :
  negb (is_dict v) && negb (isinstance v types) = true ->
  _single_map_nested function types v = call function v.
Proof. intros Hs. destruct v; simpl in *; now rewrite ?Hs. Qed.

Lemma single_dict function types (items : list (A * value A)) :
  _single_map_nested function types (VDict items)
  = (VDict ((fun kv => (kv.1, (_single_map_nested function types kv.2).1))
              <$> items),
     concat ((fun kv => (_single_map_nested function types kv.2).2)
               <$> items)).
Proof.
  simpl. unfold bind, ret. simpl.
  rewrite collect_fst, collect_snd, app_nil_r.
  rewrite <- !list_fmap_compose.
  f_equal; [f_equal|f_equal]; apply list_fmap_ext; intros ? [k x] ?;
    unfold compose; cbn [fst snd]; now rewrite ?app_nil_r.
Qed.

Lemma single_seq function types v :
  is_seq v = true -> isinstance v types = true ->
  _single_map_nested function types v
  = (rewrap v (_single_map_nested function types <$> elements v).*1,
     concat (_single_map_nested function types <$> elements v).*2).
Proof.
  intros Hseq Hinst.
  destruct v; try discriminate; simpl in *; rewrite Hinst; simpl;
    unfold bind, ret; simpl; now rewrite collect_fst, collect_snd, app_nil_r.
Qed.

Lemma not_singleton_cases v types :
  negb (is_dict v) && negb (isinstance v types) = false ->
  (exists items, v = VDict items)
  \/ (is_seq v = true /\ isinstance v types = true).
Proof.
  destruct v; simpl; intros Hs; try discriminate; eauto;
    right; split; try reflexivity; now destruct (existsb _ _).
Qed.


Lemma Forall_fmap_snd {X Y Z'} (g : X -> Y * Z') (h : X -> Z') (xs : list X) :
  Forall (fun x => (g x).2 = h x) xs -> (g <$> xs).*2 = h <$> xs.
Proof.
  intros Hall. rewrite <- list_fmap_compose. now apply Forall_fmap_ext_1.
Qed.

(** The case of a list, tuple or array in an induction over values: either
    the container is traversed or it is a leaf. *)
Ltac seq_case v types Hinst :=
  destruct (isinstance v types) eqn:Hinst;
  [ rewrite single_seq by easy
  | rewrite single_singleton by (simpl in *; now rewrite Hinst) ].



Lemma leaves_seq types v :
  is_seq v = true -> isinstance v types = true ->
  leaves types v = concat (leaves types <$> elements v).
Proof.
  intros Hseq Hinst. destruct v; try discriminate; simpl in *;
    now rewrite Hinst.
Qed.

Lemma leaves_singleton types v :
  negb (is_dict v) && negb (isinstance v types) = true -> leaves types v = [v].
Proof. intros Hs. destruct v; simpl in *; now rewrite ?Hs. Qed.

(** [_single_map_nested] calls the function on the leaves, in order. *)
Lemma single_calls function types v :
  (_single_map_nested function types v).2 = leaves types v.
Proof.
  induction v as [a|items IH|l IH|l IH|l IH] using value_ind'.
  - reflexivity.
  - rewrite single_dict. cbn [snd leaves is_dict negb andb]. f_equal.
    apply Forall_fmap_ext_1. eapply Forall_impl; [exact IH|].
    now intros [k x] Hx.
  - seq_case (VList l) types Hinst.
    + rewrite leaves_seq by easy. cbn [snd elements]. f_equal.
      now apply Forall_fmap_snd.
    + rewrite leaves_singleton by (simpl in *; now rewrite Hinst).
      reflexivity.
  - seq_case (VTuple l) types Hinst.
    + rewrite leaves_seq by easy. cbn [snd elements]. f_equal.
      now apply Forall_fmap_snd.
    + rewrite leaves_singleton by (simpl in *; now rewrite Hinst).
      reflexivity.
  - seq_case (VArray l) types Hinst.
    + rewrite leaves_seq by easy. cbn [snd elements]. f_equal.
      now apply Forall_fmap_snd.
    + rewrite leaves_singleton by (simpl in *; now rewrite Hinst).
      reflexivity.
Qed.

Lemma single_calls_list function types l :
  concat (_single_map_nested function types <$> l).*2
  = concat (leaves types <$> l).
Proof.
  f_equal. apply Forall_fmap_snd, Forall_forall. intros x _.
  apply single_calls.
Qed.

(** *** The two paths of map_nested *)

Section paths.
Variable obj_iter : A -> option (list (value A)).
Variables (function : value A -> value A) (data_struct : value A).
Variables (dict_only map_list map_tuple map_numpy : bool).
Variable types : option (list pytype).

Let T := types_in_force dict_only map_list map_tuple map_numpy types.
Let run (num_proc : option Z) :=
  map_nested obj_iter function data_struct dict_only map_list map_tuple
    map_numpy num_proc types.

(** What the sequential path returns and calls. *)
Let sequential : traced (result (value A)) :=
  (Ok (rebuild data_struct
         (_single_map_nested function T <$> elements (iterable_of data_struct)).*1),
   concat (_single_map_nested function T
             <$> elements (iterable_of data_struct)).*2).

Lemma map_nested_singleton (num_proc : option Z) :
  negb (is_dict data_struct) && negb (isinstance data_struct T) = true ->
  run num_proc = (Ok (function data_struct), [data_struct]).
Proof. intros Hs. unfold run, map_nested. fold T. now rewrite Hs. Qed.

Lemma map_nested_sequential (num_proc : option Z) :
  negb (is_dict data_struct) && negb (isinstance data_struct T) = false ->
  (let n := match num_proc with None => 1 | Some n => n end in
   (n <=? 1) || (py_len (iterable_of data_struct) <=? n)) = true ->
  run num_proc = sequential.
Proof.
  intros Hs Hc. unfold run, map_nested. fold T. rewrite Hs.
  cbv zeta in Hc. rewrite Hc. unfold bind, ret, sequential. simpl.
  now rewrite collect_fst, collect_snd, app_nil_r.
Qed.

Lemma map_nested_parallel (num_proc : Z) :
  negb (is_dict data_struct) && negb (isinstance data_struct T) = false ->
  (num_proc <=? 1) || (py_len (iterable_of data_struct) <=? num_proc) = false ->
  run (Some num_proc)
  = (match unpack obj_iter
             (_single_map_nested function T
                <$> split_kwds (iterable_of data_struct) num_proc).*1 with
     | Ok mapped => Ok (rebuild data_struct mapped)
     | Raise e => Raise e
     end,
     concat (_single_map_nested function T
               <$> split_kwds (iterable_of data_struct) num_proc).*2).
Proof.
  intros Hs Hc. unfold run, map_nested. fold T. rewrite Hs, Hc.
  apply orb_false_iff in Hc as [Hw Hlen].
  apply Z.leb_gt in Hw, Hlen.
  rewrite split_kwds_total
    by (try lia; now apply is_seq_iterable_of with (types := T)).
  rewrite Z.eqb_refl. unfold bind, ret. simpl.
  rewrite collect_fst, collect_snd.
  destruct (unpack _ _); simpl; now rewrite app_nil_r.
Qed.

End paths.

Lemma py_iter_rewrap (obj_iter : A -> option (list (value A))) v l :
  is_seq v = true -> py_iter obj_iter (rewrap v l) = Ok l.
Proof. now destruct v. Qed.

Lemma split_kwds_rewrap iterable (w : Z) :
  0 < w -> is_seq iterable = true ->
  split_kwds iterable w
  = rewrap iterable <$> (elements <$> split_kwds iterable w).
Proof.
  intros Hw Hseq. rewrite split_kwds_cut by assumption.
  rewrite <- !list_fmap_compose. apply list_fmap_ext. intros _ i _. simpl.
  now rewrite elements_rewrap.
Qed.

(** The results of workers that traverse their slices, unpacked, are the
    results of the sequential loop; the same leaves are called. *)
Lemma unpack_traversed (obj_iter : A -> option (list (value A)))
    function types iterable (slices : list (list (value A))) :
  is_seq iterable = true -> isinstance iterable types = true ->
  unpack obj_iter
    (_single_map_nested function types <$> (rewrap iterable <$> slices)).*1
  = Ok (_single_map_nested function types <$> concat slices).*1
  /\ concat (_single_map_nested function types
               <$> (rewrap iterable <$> slices)).*2
     = concat (_single_map_nested function types <$> concat slices).*2.
Proof.
  intros Hseq Hinst. induction slices as [|sl slices [IH1 IH2]].
  - now split.
  - rewrite !fmap_cons. cbn [unpack concat].
    rewrite (single_seq function types (rewrap iterable sl))
      by (rewrite ?isinstance_rewrap; now destruct iterable).
    cbn [fst snd]. rewrite elements_rewrap by assumption.
    rewrite py_iter_rewrap by now destruct iterable.
    rewrite IH1, IH2. now rewrite !fmap_app, concat_app.
Qed.




(** When the slices handed to the workers are traversed (the input is no
    dict, or lists are among the traversed types), every number of workers
    gives what the sequential loop gives, and the function is called on the
    leaves of the input. *)
Lemma map_nested_traversed_slices (obj_iter : A -> option (list (value A)))
    function data_struct (dict_only map_list map_tuple map_numpy : bool)
    (num_proc : option Z) (types : option (list pytype)) :
  (is_dict data_struct = true ->
   existsb (pytype_eqb TyList)
     (types_in_force dict_only map_list map_tuple map_numpy types) = true) ->
  map_nested obj_iter function data_struct dict_only map_list map_tuple
    map_numpy num_proc types
  = map_nested obj_iter function data_struct dict_only map_list map_tuple
      map_numpy None types.
Proof.
  set (T := types_in_force dict_only map_list map_tuple map_numpy types).
  intros Hlist.
  destruct (negb (is_dict data_struct) && negb (isinstance data_struct T))
    eqn:Hs.
  { now rewrite !map_nested_singleton. }
  assert (Hseq : is_seq (iterable_of data_struct) = true)
    by now apply is_seq_iterable_of with (types := T).
  assert (Hinst : isinstance (iterable_of data_struct) T = true).
  { destruct (not_singleton_cases _ _ Hs) as [[items ->]|[Hq Hi]].
    - simpl. now apply Hlist.
    - destruct data_struct; try discriminate; exact Hi. }
  rewrite (map_nested_sequential _ _ _ _ _ _ _ _ None) by easy.
  destruct ((match num_proc with None => 1 | Some n => n end <=? 1)
            || (py_len (iterable_of data_struct)
                <=? match num_proc with None => 1 | Some n => n end)) eqn:Hc.
  - now rewrite map_nested_sequential.
  - destruct num_proc as [w|]; [|discriminate].
    rewrite map_nested_parallel by assumption. fold T.
    apply orb_false_iff in Hc as [Hw Hlen]. apply Z.leb_gt in Hw.
    rewrite split_kwds_rewrap by (assumption || lia).
    destruct (unpack_traversed obj_iter function T (iterable_of data_struct)
                (elements <$> split_kwds (iterable_of data_struct) w)
                Hseq Hinst) as [-> ->].
    now rewrite split_kwds_concat by (assumption || lia).
Qed.

(** The sequential loop calls the function on the leaves of the input and
    on nothing else. *)
Lemma map_nested_sequential_calls (obj_iter : A -> option (list (value A)))
    function data_struct (dict_only map_list map_tuple map_numpy : bool)
    (types : option (list pytype)) :
  (map_nested obj_iter function data_struct dict_only map_list map_tuple
     map_numpy None types).2
  = leaves (types_in_force dict_only map_list map_tuple map_numpy types)
      data_struct.
Proof.
  set (T := types_in_force dict_only map_list map_tuple map_numpy types).
  destruct (negb (is_dict data_struct) && negb (isinstance data_struct T))
    eqn:Hs.
  { rewrite map_nested_singleton by assumption.
    now rewrite leaves_singleton. }
  rewrite map_nested_sequential by easy. cbn [snd]. fold T.
  rewrite single_calls_list.
  destruct (not_singleton_cases _ _ Hs) as [[items ->]|[Hq Hi]].
  - cbn [leaves is_dict negb andb iterable_of elements]. f_equal.
    rewrite <- list_fmap_compose. apply list_fmap_ext. now intros ? [k x] ?.
  - rewrite leaves_seq by assumption. now destruct data_struct.
Qed.

(** C3.  In the parallel path of [map_nested] (more than one worker, more
    elements than workers) the split has exactly [num_proc] slices; slice
    [i] is [iterable[start:end]] with [start = (n // w) * i + min(i, n % w)]
    and [end = start + n // w + (1 if i < n % w else 0)], it lies within the
    input and starts where slice [i - 1] ends; the slices put end to end are
    the input in its order; their sizes sum to [n], slice [i] holds
    [n // w] elements plus one when [i < n % w], and any two sizes differ by
    at most 1. *)
Theorem split_kwds_balanced iterable (num_proc : Z) :
  1 < num_proc -> num_proc < py_len iterable ->
  let n := py_len iterable in
  let chunks := split_kwds iterable num_proc in
  let start := fun i : Z => n / num_proc * i + Z.min i (n mod num_proc) in
  let end_ := fun i : Z =>
    start i + n / num_proc + (if i <? n mod num_proc then 1 else 0) in
  Z.of_nat (length chunks) = num_proc
  /\ (forall i : nat, Z.of_nat i < num_proc ->
      exists chunk,
        chunks !! i = Some chunk
        /\ chunk = getslice iterable (start (Z.of_nat i)) (end_ (Z.of_nat i))
        /\ 0 <= start (Z.of_nat i) <= end_ (Z.of_nat i)
        /\ end_ (Z.of_nat i) <= n
        /\ end_ (Z.of_nat i) = start (Z.of_nat i + 1)
        /\ elements chunk
           = take (Z.to_nat (end_ (Z.of_nat i) - start (Z.of_nat i)))
               (drop (Z.to_nat (start (Z.of_nat i))) (elements iterable))
        /\ py_len chunk
           = n / num_proc + (if Z.of_nat i <? n mod num_proc then 1 else 0))
  /\ start 0 = 0
  /\ end_ (num_proc - 1) = n
  /\ concat (elements <$> chunks) = elements iterable
  /\ total_len chunks = n
  /\ (forall c1 c2, c1 ∈ chunks -> c2 ∈ chunks ->
      Z.abs (py_len c1 - py_len c2) <= 1).
Proof.
  intros Hw Hlen n chunks start end_.
  assert (Hw0 : 0 < num_proc) by lia.
  assert (Hseq : is_seq iterable = true) by (apply py_len_pos_seq; lia).
  assert (Hn : 0 <= n) by (unfold n, py_len; lia).
  assert (Hstart : forall i, start i = cut n num_proc i) by reflexivity.
  assert (Hend : forall i, 0 <= i -> end_ i = cut n num_proc (i + 1)).
  { intros i Hi. unfold end_. rewrite Hstart.
    pose proof (cut_step n num_proc i Hw0 Hn Hi) as [Hs _]. lia. }
  assert (Hchunk : forall i : nat, Z.of_nat i < num_proc ->
            chunks !! i
            = Some (getslice iterable (start (Z.of_nat i)) (end_ (Z.of_nat i)))
            /\ py_len (getslice iterable (start (Z.of_nat i))
                         (end_ (Z.of_nat i)))
               = n / num_proc
                 + (if Z.of_nat i <? n mod num_proc then 1 else 0)).
  { intros i Hi. rewrite Hend, Hstart by lia. split.
    - now apply split_kwds_lookup.
    - apply py_len_getslice; [lia | lia | assumption]. }
  split; [|split; [|split; [|split; [|split; [|split]]]]].
  - unfold chunks, split_kwds. rewrite length_fmap, py_range_length. lia.
  - intros i Hi. destruct (Hchunk i Hi) as [Hlook Hsize].
    eexists; split; [exact Hlook|]. split; [reflexivity|].
    pose proof (cut_range n num_proc (Z.of_nat i) Hw0 Hn ltac:(lia)).
    pose proof (cut_range n num_proc (Z.of_nat i + 1) Hw0 Hn ltac:(lia)).
    pose proof (cut_step n num_proc (Z.of_nat i) Hw0 Hn ltac:(lia)) as [_ ?].
    rewrite Hend, !Hstart by lia.
    split; [lia|]. split; [lia|]. split; [reflexivity|].
    split; [|rewrite <- Hstart, <- Hend by lia; exact Hsize].
    rewrite getslice_rewrap, elements_rewrap by assumption.
    apply py_slice_in_range; fold (py_len iterable); fold n; lia.
  - rewrite Hstart. now apply cut_0.
  - rewrite Hend by lia. replace (num_proc - 1 + 1) with num_proc by lia.
    now apply cut_all.
  - now apply split_kwds_concat.
  - now apply split_kwds_total.
  - intros c1 c2 H1 H2.
    apply list_elem_of_lookup in H1 as [i1 H1], H2 as [i2 H2].
    assert (Hi1 : Z.of_nat i1 < num_proc).
    { apply lookup_lt_Some in H1. unfold chunks, split_kwds in H1.
      rewrite length_fmap, py_range_length in H1. lia. }
    assert (Hi2 : Z.of_nat i2 < num_proc).
    { apply lookup_lt_Some in H2. unfold chunks, split_kwds in H2.
      rewrite length_fmap, py_range_length in H2. lia. }
    destruct (Hchunk i1 Hi1) as [L1 S1], (Hchunk i2 Hi2) as [L2 S2].
    rewrite H1 in L1. rewrite H2 in L2.
    injection L1 as ->. injection L2 as ->. rewrite S1, S2.
    destruct (Z.of_nat i1 <? n mod num_proc),
      (Z.of_nat i2 <? n mod num_proc); lia.
Qed.

(** C4.  In the parallel path of [map_nested] the lengths of the slices add
    up to the length of the input, so the check before the dispatch passes
    and the call does not raise the [ValueError] of that check. *)
Theorem accounting_check_passes (obj_iter : A -> option (list (value A)))
    function data_struct (dict_only map_list map_tuple map_numpy : bool)
    (num_proc : Z) (types : option (list pytype)) :
  1 < num_proc -> num_proc < py_len (iterable_of data_struct) ->
  (py_len (iterable_of data_struct)
   =? total_len (split_kwds (iterable_of data_struct) num_proc)) = true
  /\ raises_ValueError
       (map_nested obj_iter function data_struct dict_only map_list map_tuple
          map_numpy (Some num_proc) types).1 = false.
Proof.
  intros Hw Hlen.
  assert (Hseq : is_seq (iterable_of data_struct) = true)
    by (apply py_len_pos_seq; lia).
  assert (Hcheck : (py_len (iterable_of data_struct)
                    =? total_len (split_kwds (iterable_of data_struct)
                                    num_proc)) = true).
  { apply Z.eqb_eq. symmetry. apply split_kwds_total; [lia | assumption]. }
  split; [exact Hcheck|].
  unfold map_nested.
  destruct (negb (is_dict data_struct) && negb (isinstance data_struct _));
    [reflexivity|].
  destruct ((num_proc <=? 1) || _); [reflexivity|].
  rewrite Hcheck. simpl.
  destruct (unpack _ _) as [mapped|e] eqn:Hun; [reflexivity|]. simpl.
  clear -Hun. revert e Hun.
  match goal with |- context [unpack _ ?rs] => generalize rs end.
  intros rs. induction rs as [|r rs IH]; intros e Hun; [discriminate|].
  simpl in Hun. destruct (py_iter obj_iter r) as [objs|e'] eqn:Hit.
  - destruct (unpack obj_iter rs) as [objs'|e''] eqn:Hrs; [discriminate|].
    injection Hun as <-. now apply IH.
  - injection Hun as <-. destruct r; simpl in Hit; try discriminate.
    destruct (obj_iter a); [discriminate|]. now injection Hit as <-.
Qed.

End facts.

(** *** Concrete runs *)

Lemma split_kwds_balanced_witness :
  1 < 2
  /\ 2 < py_len (VList [VObj 1; VObj 2; VObj 3] : value Z)
  /\ split_kwds (VList [VObj 1; VObj 2; VObj 3] : value Z) 2 !! 0%nat
     = Some (VList [VObj 1; VObj 2])
  /\ total_len (split_kwds (VList [VObj 1; VObj 2; VObj 3] : value Z) 2) = 3.
Proof.
  assert (H1 : 1 < 2) by lia.
  assert (H2 : 2 < py_len (VList [VObj 1; VObj 2; VObj 3] : value Z))
    by reflexivity.
  split; [exact H1|]. split; [exact H2|].
  pose proof (split_kwds_balanced _ 2 H1 H2) as Hsplit. cbv zeta in Hsplit.
  destruct Hsplit as (_ & Hchunk & _ & _ & _ & Htotal & _).
  split; [|exact Htotal].
  destruct (Hchunk 0%nat ltac:(lia)) as (chunk & -> & -> & _).
  reflexivity.
Defined.

Lemma accounting_check_passes_witness :
  1 < 2
  /\ 2 < py_len (iterable_of three_items)
  /\ raises_ValueError
       (map_nested no_iter wrap three_items true true false false (Some 2)
          None).1 = false.
Proof.
  assert (H1 : 1 < 2) by lia.
  assert (H2 : 2 < py_len (iterable_of three_items)) by reflexivity.
  split; [exact H1|]. split; [exact H2|].
  exact (proj2 (accounting_check_passes no_iter wrap three_items
                  true true false false 2 None H1 H2)).
Defined.

(** C1.  With [dict_only] set, on the dict [{10: 1, 20: 2, 30: 3}] and the
    function [lambda x: [x]]: one worker maps every value; two workers get
    the slices [[1, 2]] and [[3]], which are no instances of the traversed
    types, call the function on the slices themselves, and the rebuilt dict
    has lost a key.  The two results differ. *)
Theorem map_nested_dict_only_workers_differ :
  (map_nested no_iter wrap three_items true true false false (Some 1) None).1
  = Ok (VDict [(10, VList [VObj 1]); (20, VList [VObj 2]);
               (30, VList [VObj 3])])
  /\ (map_nested no_iter wrap three_items true true false false (Some 2)
        None).1
     = Ok (VDict [(10, VList [VObj 1; VObj 2]); (20, VList [VObj 3])])
  /\ (map_nested no_iter wrap three_items true true false false (Some 1)
        None).1
     <> (map_nested no_iter wrap three_items true true false false (Some 2)
           None).1.
Proof. split; [reflexivity|]. split; [reflexivity|]. discriminate. Qed.

(** C5.  With [dict_only] set and two workers, [map_nested] with the
    identity function on [{10: 1, 20: 2, 30: 3}] returns the dict, but the
    function is not called on the leaves 1, 2 and 3: it is called on the
    slices [[1, 2]] and [[3]]. *)
Theorem map_nested_identity_calls_on_slices :
  map_nested no_iter id three_items true true false false (Some 2) None
  = (Ok three_items, [VList [VObj 1; VObj 2]; VList [VObj 3]])
  /\ leaves (types_in_force true true false false None) three_items
     = [VObj 1; VObj 2; VObj 3].
Proof. split; reflexivity. Qed.

End MapNestedFacts.

(** ** convert_file_size_to_int *)

Module FileSizeFacts.
Import FileSize.

Lemma chars_app (a b : string) : chars (a ++ b) = chars a ++ chars b.
Proof. induction a as [|c a IH]; simpl; [reflexivity|]. now rewrite IH. Qed.

Lemma upper_app (a b : list ascii) : upper (a ++ b) = upper a ++ upper b.
Proof. apply fmap_app. Qed.

Lemma upper_length (a : list ascii) : length (upper a) = length a.
Proof. apply length_fmap. Qed.

(** Whether a suffix that is at most one character longer than the unit is
    there does not depend on what stands before the unit. *)
Lemma endswith_after_prefix (p u suf : list ascii) :
  (length suf <= length u)%nat
  \/ (length suf = S (length u) /\ drop 1 suf <> u) ->
  endswith (p ++ u) suf = endswith u suf.
Proof.
  intros Hlen. unfold endswith. apply bool_decide_ext. split.
  - intros [k Hk]. apply app_eq_inv in Hk as [(k' & _ & ->)|(k' & _ & ->)].
    + rewrite length_app in Hlen. destruct Hlen as [Hle|[Heq Hne]].
      * destruct k'; [reflexivity | simpl in Hle; lia].
      * destruct k' as [|c [|c' k']]; simpl in *; try lia. now elim Hne.
    + now exists k'.
  - intros Hsuf. now apply suffix_app_r.
Qed.

(** [size[:-k]] takes the unit off. *)
Lemma py_slice_strip_unit (p u : list ascii) :
  (0 < length u)%nat ->
  py_slice (p ++ u) 0 (- Z.of_nat (length u)) = p.
Proof.
  intros Hu. unfold py_slice, slice_index. rewrite length_app.
  destruct (Z.ltb_spec 0 0); [lia|].
  destruct (Z.ltb_spec (- Z.of_nat (length u)) 0); [|lia].
  rewrite Z.min_l, Z.max_r by lia. simpl.
  replace (Z.to_nat (_ - 0)) with (length p) by lia.
  change (Z.to_nat 0) with 0%nat. rewrite drop_0. apply take_app_length.
Qed.

Lemma endswith_unit (p u : list ascii) :
  u <> [] -> endswith (p ++ u) (chars "b") = endswith u (chars "b").
Proof.
  intros Hu. unfold endswith. apply bool_decide_ext.
  destruct (exists_last Hu) as (u' & c & ->). rewrite app_assoc.
  split; intros [k Hk].
  - apply (app_inj_2 _ k [c] (chars "b")) in Hk; [|reflexivity].
    destruct Hk as [_ ->]. now exists u'.
  - apply (app_inj_2 _ k [c] (chars "b")) in Hk; [|reflexivity].
    destruct Hk as [_ ->]. now exists (p ++ u').
Qed.

Lemma upper_unit_length (u : list ascii) (U : string) :
  upper u = chars U -> length u = length (chars U).
Proof. intros Hu. now rewrite <- Hu, upper_length. Qed.

(** The six tests of [convert_file_size_to_int] on a number followed by a
    unit: each is settled by the unit. *)
Ltac unit_tests digits Hunit :=
  unfold convert_file_size_to_int;
  rewrite chars_app, upper_app, Hunit;
  rewrite !(endswith_after_prefix (upper (chars digits)))
    by ((left; simpl; lia) || (right; split; [reflexivity | discriminate]));
  repeat match goal with
         | |- context [endswith (chars ?a) (chars ?b)] =>
             tryif is_var a then fail else
               (let r := eval vm_compute in (endswith (chars a) (chars b)) in
                change (endswith (chars a) (chars b)) with r)
         end;
  cbv iota.

(** C9.  [convert_file_size_to_int] returns an [int] as it is; it maps
    ["1MiB"] to 1048576 and ["5GB"] to 5000000000; a string made of an
    integer literal and a unit gives the integer times the scale of the
    unit (2^30, 2^20, 2^10 for GiB, MiB, KiB and 10^9, 10^6, 10^3 for GB,
    MB, KB, in any mix of cases), divided by 8 for the last three when the
    string ends in a lower-case b; and a string whose upper-case form ends
    in none of the six units raises [ValueError]. *)
Theorem convert_file_size_to_int_spec :
  (forall n : Z, convert_file_size_to_int (inl n) = Ok n)
  /\ convert_file_size_to_int (inr "1MiB"%string) = Ok 1048576
  /\ convert_file_size_to_int (inr "5GB"%string) = Ok 5000000000
  /\ (forall (digits unit : string) (n : Z),
        py_int (chars digits) = Ok n ->
        (upper (chars unit) = chars "GIB" ->
         convert_file_size_to_int (inr (digits ++ unit)%string)
         = Ok (n * 2 ^ 30))
        /\ (upper (chars unit) = chars "MIB" ->
            convert_file_size_to_int (inr (digits ++ unit)%string)
            = Ok (n * 2 ^ 20))
        /\ (upper (chars unit) = chars "KIB" ->
            convert_file_size_to_int (inr (digits ++ unit)%string)
            = Ok (n * 2 ^ 10))
        /\ (upper (chars unit) = chars "GB" ->
            convert_file_size_to_int (inr (digits ++ unit)%string)
            = Ok (if endswith (chars unit) (chars "b")
                  then n * 10 ^ 9 / 8 else n * 10 ^ 9))
        /\ (upper (chars unit) = chars "MB" ->
            convert_file_size_to_int (inr (digits ++ unit)%string)
            = Ok (if endswith (chars unit) (chars "b")
                  then n * 10 ^ 6 / 8 else n * 10 ^ 6))
        /\ (upper (chars unit) = chars "KB" ->
            convert_file_size_to_int (inr (digits ++ unit)%string)
            = Ok (if endswith (chars unit) (chars "b")
                  then n * 10 ^ 3 / 8 else n * 10 ^ 3)))
  /\ (forall s : string,
        Forall (fun u => endswith (upper (chars s)) (chars u) = false)
          ["GIB"; "MIB"; "KIB"; "GB"; "MB"; "KB"]%string ->
        exists msg, convert_file_size_to_int (inr s) = Raise (ValueError msg)).
Proof.
  split; [reflexivity|]. split; [reflexivity|]. split; [reflexivity|]. split.
  - intros digits unit n Hint.
    assert (Hstrip : forall U, upper (chars unit) = chars U ->
              (0 < length (chars U))%nat ->
              py_slice (chars digits ++ chars unit) 0
                (- Z.of_nat (length (chars U))) = chars digits).
    { intros U HU Hpos. rewrite <- (upper_unit_length _ _ HU).
      apply py_slice_strip_unit. rewrite (upper_unit_length _ _ HU). exact Hpos. }
    assert (Hb : forall U, upper (chars unit) = chars U ->
              (0 < length (chars U))%nat ->
              endswith (chars digits ++ chars unit) (chars "b")
              = endswith (chars unit) (chars "b")).
    { intros U HU Hpos. apply endswith_unit. intros Hnil.
      apply upper_unit_length in HU. rewrite Hnil in HU. simpl in HU. lia. }
    repeat split; intros Hunit; unit_tests digits Hunit.
    + change (-3) with (- Z.of_nat (length (chars "GIB"))).
      rewrite Hstrip, Hint by (assumption || (simpl; lia)). reflexivity.
    + change (-3) with (- Z.of_nat (length (chars "MIB"))).
      rewrite Hstrip, Hint by (assumption || (simpl; lia)). reflexivity.
    + change (-3) with (- Z.of_nat (length (chars "KIB"))).
      rewrite Hstrip, Hint by (assumption || (simpl; lia)). reflexivity.
    + change (-2) with (- Z.of_nat (length (chars "GB"))).
      rewrite Hstrip, Hint by (assumption || (simpl; lia)).
      cbn [rbind]. now rewrite (Hb "GB"%string) by (assumption || (simpl; lia)).
    + change (-2) with (- Z.of_nat (length (chars "MB"))).
      rewrite Hstrip, Hint by (assumption || (simpl; lia)).
      cbn [rbind]. now rewrite (Hb "MB"%string) by (assumption || (simpl; lia)).
    + change (-2) with (- Z.of_nat (length (chars "KB"))).
      rewrite Hstrip, Hint by (assumption || (simpl; lia)).
      cbn [rbind]. now rewrite (Hb "KB"%string) by (assumption || (simpl; lia)).
  - intros s Hnone.
    repeat match goal with
           | H : Forall _ (_ :: _) |- _ =>
               apply Forall_cons_1 in H as [? H]
           end.
    unfold convert_file_size_to_int.
    repeat match goal with H : endswith _ _ = false |- _ =>
             rewrite H; clear H end.
    eexists. reflexivity.
Qed.

Lemma convert_file_size_to_int_spec_witness :
  py_int (chars "12") = Ok 12
  /\ upper (chars "kb") = chars "KB"
  /\ convert_file_size_to_int (inr ("12" ++ "kb")%string)
     = Ok (if endswith (chars "kb") (chars "b")
           then 12 * 10 ^ 3 / 8 else 12 * 10 ^ 3).
Proof.
  assert (H1 : py_int (chars "12") = Ok 12) by reflexivity.
  assert (H2 : upper (chars "kb") = chars "KB") by reflexivity.
  split; [exact H1|]. split; [exact H2|].
  destruct convert_file_size_to_int_spec as (_ & _ & _ & Hunits & _).
  destruct (Hunits "12"%string "kb"%string 12 H1) as (_ & _ & _ & _ & _ & Hkb).
  exact (Hkb H2).
Defined.

End FileSizeFacts.

(** ** NonMutableDict *)

Module NonMutableFacts.
Import NonMutable.

Section facts.
Context `{Countable K} {V : Type}.
Implicit Types (d : NonMutableDict K V) (other : gmap K V).

Lemma contains_true d (k : K) :
  contains d k = true <-> is_Some (entries d !! k).
Proof. unfold contains. apply bool_decide_eq_true. Qed.

Lemma contains_false d (k : K) :
  contains d k = false <-> entries d !! k = None.
Proof.
  unfold contains. rewrite bool_decide_eq_false. symmetry.
  apply eq_None_not_Some.
Qed.

(** The test of [update] on a mapping: some key of [other] is in the
    dict. *)
Lemma overlap_test d other :
  existsb (contains d) (map_to_list other).*1 = true
  <-> exists k, is_Some (other !! k) /\ is_Some (entries d !! k).
Proof.
  rewrite existsb_exists. split.
  - intros (k & Hin & Hk). exists k. split; [|now apply contains_true].
    apply list_elem_of_In, list_elem_of_fmap in Hin as ([k' v] & -> & Hin).
    apply elem_of_map_to_list in Hin. now exists v.
  - intros (k & [v Hv] & Hk). exists k. split; [|now apply contains_true].
    apply list_elem_of_In, list_elem_of_fmap. exists (k, v).
    split; [reflexivity|]. now apply elem_of_map_to_list.
Qed.

Lemma store_pairs_snoc (m : gmap K V) (pairs : list (K * V)) (k : K) (v : V) :
  store_pairs m (pairs ++ [(k, v)]) = <[k := v]> (store_pairs m pairs).
Proof. unfold store_pairs. now rewrite foldl_app. Qed.

Lemma store_pairs_last (m : gmap K V) (before after : list (K * V))
    (k : K) (v : V) :
  k ∉ after.*1 -> store_pairs m (before ++ (k, v) :: after) !! k = Some v.
Proof.
  induction after as [|[k' v'] after IH] using rev_ind; intros Hk.
  - rewrite store_pairs_snoc. apply lookup_insert_eq.
  - rewrite fmap_app, elem_of_app in Hk. simpl in Hk.
    rewrite app_comm_cons, app_assoc, store_pairs_snoc.
    rewrite lookup_insert_ne; [apply IH; tauto|].
    intros ->. apply Hk. right. now left.
Qed.

Lemma store_pairs_other (m : gmap K V) (pairs : list (K * V)) (k : K) :
  k ∉ pairs.*1 -> store_pairs m pairs !! k = m !! k.
Proof.
  induction pairs as [|[k' v'] pairs IH] using rev_ind; intros Hk.
  - reflexivity.
  - rewrite fmap_app, elem_of_app in Hk. simpl in Hk.
    rewrite store_pairs_snoc, lookup_insert_ne; [apply IH; tauto|].
    intros ->. apply Hk. right. now left.
Qed.

Variable format : string -> list K -> result string.
Variable tuple_key : K * V -> result (option K).

(** Item assignment, and [update] with a mapping, take fresh keys only.
    Setting a key that is present raises and leaves the dict as it was;
    setting a fresh key stores the value and changes no other key.
    [update] with a mapping that shares a key with the dict raises and
    stores none of the entries of the mapping; with fresh keys only it
    stores every entry of the mapping and changes no other key.  What is
    raised is a [ValueError] when the template formats. *)
Lemma mapping_fresh_keys_only d :
  (forall (k : K) (v : V), is_Some (entries d !! k) ->
     __setitem__ format d k v = (d, Raise (overwrite_error format d [k])))
  /\ (forall (k : K) (v : V), entries d !! k = None ->
        exists d',
          __setitem__ format d k v = (d', Ok tt)
          /\ entries d' !! k = Some v
          /\ forall k', k' <> k -> entries d' !! k' = entries d !! k')
  /\ (forall other,
        (exists k, is_Some (other !! k) /\ is_Some (entries d !! k)) ->
        exists keys,
          update format tuple_key d (Mapping other)
          = (d, Raise (overwrite_error format d keys)))
  /\ (forall other,
        (forall k, is_Some (other !! k) -> entries d !! k = None) ->
        exists d',
          update format tuple_key d (Mapping other) = (d', Ok tt)
          /\ (forall k v, other !! k = Some v -> entries d' !! k = Some v)
          /\ forall k, other !! k = None -> entries d' !! k = entries d !! k)
  /\ (forall keys msg, format (_error_msg d) keys = Ok msg ->
        overwrite_error format d keys = ValueError msg).
Proof.
  split; [|split; [|split; [|split]]].
  - intros k v Hk. unfold __setitem__.
    now rewrite (proj2 (contains_true d k) Hk).
  - intros k v Hk. unfold __setitem__.
    rewrite (proj2 (contains_false d k) Hk).
    eexists. split; [reflexivity|]. simpl. split.
    + apply lookup_insert_eq.
    + intros k' Hne. now apply lookup_insert_ne.
  - intros other Hover. unfold update.
    rewrite (proj2 (overlap_test d other) Hover). now eexists.
  - intros other Hfresh. unfold update.
    destruct (existsb (contains d) (map_to_list other).*1) eqn:Hex.
    + apply overlap_test in Hex as (k & Hk & [v Hv]).
      rewrite (Hfresh k Hk) in Hv. discriminate.
    + eexists. split; [reflexivity|]. simpl. split.
      * intros k v Hk. now apply lookup_union_Some_l.
      * intros k Hk. now apply lookup_union_r.
  - intros keys msg Hmsg. unfold overwrite_error. now rewrite Hmsg.
Qed.

(** The test of [update] on an iterable of pairs asks about the pairs, not
    about their keys: it finds nothing when no pair is itself a key. *)
Lemma any_pair_in_no_tuple d (pairs : list (K * V)) :
  Forall (fun kv => tuple_key kv = Ok None) pairs ->
  any_pair_in tuple_key d pairs = Ok false.
Proof.
  induction 1 as [|kv pairs Hkv _ IH]; [reflexivity|].
  cbn [any_pair_in]. now rewrite Hkv.
Qed.

(** [update] with an iterable of pairs, none of which is itself a key of
    the dict, raises nothing and stores every pair, also those whose key is
    in the dict. *)
Lemma update_pairs_stores d (pairs : list (K * V)) :
  Forall (fun kv => tuple_key kv = Ok None) pairs ->
  update format tuple_key d (Pairs pairs)
  = (mkNonMutableDict (store_pairs (entries d) pairs) (_error_msg d), Ok tt).
Proof.
  intros Hno. unfold update. now rewrite any_pair_in_no_tuple.
Qed.

End facts.

(** C10.  The claim fails on [update] with an iterable of pairs.  On the
    dict [{"a": 1}], [d.update([("a", 5)])] tests whether the pair
    [("a", 5)] is a key, which it is not, raises nothing, and [dict.update]
    overwrites the value of ["a"] with 5.  The same key given in a mapping,
    [d.update({"a": 5})], or set by [d["a"] = 5], raises and leaves the
    dict as it was. *)
Theorem NonMutableDict_update_pairs_overwrites
    (format : string -> list string -> result string) :
  entries one_entry !! "a"%string = Some 1
  /\ (update format no_tuple_keys one_entry (Pairs [("a"%string, 5)])).2
     = Ok tt
  /\ entries (update format no_tuple_keys one_entry
                (Pairs [("a"%string, 5)])).1 !! "a"%string = Some 5
  /\ update format no_tuple_keys one_entry (Mapping {[ "a"%string := 5 ]})
     = (one_entry, Raise (overwrite_error format one_entry ["a"%string]))
  /\ __setitem__ format one_entry "a"%string 5
     = (one_entry, Raise (overwrite_error format one_entry ["a"%string])).
Proof.
  split; [reflexivity|].
  rewrite (update_pairs_stores format no_tuple_keys one_entry
             [("a"%string, 5)]) by (repeat constructor).
  split; [reflexivity|]. split; [reflexivity|]. split; [|reflexivity].
  unfold update. rewrite map_to_list_singleton. reflexivity.
Qed.

End NonMutableFacts.

(** ** dumps and the tokenizer cache *)

Module CacheFacts.
Import Cache.

Lemma setattr_restore (obj : pyobject) (attr : string) (v w : pyval) :
  attrs obj !! attr = Some v ->
  setattr (setattr obj attr w) attr v = obj.
Proof.
  intros Hv. destruct obj as [mro m]. unfold setattr. simpl in *.
  now rewrite insert_insert_eq, insert_id.
Qed.

Lemma tokenizer_cache_attr (obj : pyobject) :
  has_tokenizer_cache obj = true ->
  exists items, attrs obj !! "cache"%string = Some (PyDict items).
Proof.
  unfold has_tokenizer_cache, hasattr, getattr. intros Hc.
  apply andb_true_iff in Hc as [Hc Hdict]. apply andb_true_iff in Hc as [_ Hc].
  destruct (attrs obj !! "cache"%string) as [[|items|]|]; try discriminate.
  now exists items.
Qed.

Section dumps.
Variable dump : pyobject -> pyobject * result (list Byte.byte).

(** C8.  Let the pickler read the object without assigning to it.  For an
    object with a class named PreTrainedTokenizerBase among its classes and
    a dict as attribute [cache], [dumps] runs the pickler on the object with
    [cache] set to the empty dict, and when [dumps] ends, with bytes or with
    an exception, the object is as it was, [cache] included.  For any other
    object [dumps] runs the pickler on the object as it is and leaves it as
    it was. *)
Theorem dumps_clears_and_restores_cache (obj : pyobject) :
  (forall o, (dump o).1 = o) ->
  (dumps dump obj).1 = obj
  /\ (has_tokenizer_cache obj = true ->
      (dumps dump obj).2
      = after_throw (dump (setattr obj "cache" (PyDict []))).2
      /\ attrs (setattr obj "cache" (PyDict [])) !! "cache"%string
         = Some (PyDict [])
      /\ attrs (dumps dump obj).1 !! "cache"%string
         = attrs obj !! "cache"%string)
  /\ (has_tokenizer_cache obj = false ->
      (dumps dump obj).2 = after_throw (dump obj).2).
Proof.
  intros Hread.
  assert (Hstate : (dumps dump obj).1 = obj).
  { unfold dumps, _no_cache_fields.
    destruct (has_tokenizer_cache obj) eqn:Hc; cbn [fst]; [|apply Hread].
    destruct (tokenizer_cache_attr obj Hc) as [items Hitems].
    unfold temporary_assignment, getattr. rewrite Hitems.
    destruct (dump (setattr obj "cache" (PyDict []))) as [obj' r] eqn:Hd.
    cbn [fst]. pose proof (Hread (setattr obj "cache" (PyDict []))) as Hr.
    rewrite Hd in Hr. cbn [fst] in Hr. subst obj'.
    now apply setattr_restore. }
  split; [exact Hstate|]. split.
  - intros Hc. split; [|split].
    + unfold dumps, _no_cache_fields, temporary_assignment. rewrite Hc.
      now destruct (dump _).
    + apply lookup_insert_eq.
    + now rewrite Hstate.
  - intros Hc. unfold dumps, _no_cache_fields. now rewrite Hc.
Qed.

End dumps.

Lemma dumps_clears_and_restores_cache_witness :
  (forall o, (one_byte o).1 = o)
  /\ has_tokenizer_cache tokenizer = true
  /\ (dumps one_byte tokenizer).1 = tokenizer
  /\ (dumps one_byte tokenizer).2
     = after_throw (one_byte (setattr tokenizer "cache" (PyDict []))).2.
Proof.
  assert (H1 : forall o, (one_byte o).1 = o) by reflexivity.
  assert (H2 : has_tokenizer_cache tokenizer = true) by reflexivity.
  destruct (dumps_clears_and_restores_cache one_byte tokenizer H1)
    as (Hstate & Hcache & _).
  split; [exact H1|]. split; [exact H2|]. split; [exact Hstate|].
  exact (proj1 (Hcache H2)).
Defined.

End CacheFacts.

(** ** Pickler.memoize *)

Module MemoFacts.
Import Memo.

Lemma memo_obj_ind' (P : pyobj -> Prop) :
  (forall i s, P (PStr i s)) ->
  (forall i z, P (PInt i z)) ->
  (forall i items, Forall P items -> P (PList i items)) ->
  (forall i items, Forall P items -> P (PTuple i items)) ->
  forall obj, P obj.
Proof.
  intros Hstr Hint Hlist Htuple. fix IH 1. intros [i s|i z|i items|i items].
  - apply Hstr.
  - apply Hint.
  - apply Hlist. induction items; constructor; [apply IH | assumption].
  - apply Htuple. induction items; constructor; [apply IH | assumption].
Qed.

Lemma memoize_str (p : Pickler) (obj : pyobj) :
  is_str obj = true -> memoize p obj = p.
Proof. intros Hs. unfold memoize. now rewrite Hs. Qed.

Lemma same_text_py_id (o1 o2 : pyobj) :
  same_text o1 o2 -> is_str o1 = false -> py_id o1 = py_id o2.
Proof. now destruct 1. Qed.

Section blind.
(** [text] holds of the identities of the [str] objects; the memo never has
    an entry for them. *)
Variable text : nat -> Prop.

Local Abbreviation clean := (Memo.clean text).
Local Abbreviation blind := (Memo.blind text).

Lemma clean_write (op : opcode) (p : Pickler) : clean p -> clean (write op p).
Proof. intros Hp i Hi. now apply Hp. Qed.

Lemma clean_memoize (p : Pickler) (obj : pyobj) :
  (is_str obj = false -> ~ text (py_id obj)) ->
  clean p -> clean (memoize p obj).
Proof.
  intros Hid Hp i Hi. unfold memoize.
  destruct (is_str obj) eqn:Hs; simpl; [now apply Hp|].
  rewrite lookup_insert_ne; [now apply Hp|].
  intros <-. now apply Hid.
Qed.

Lemma foldl_save_blind (l1 l2 : list pyobj) :
  Forall blind l1 -> Forall2 same_text l1 l2 ->
  forall p,
    Forall text (concat (str_ids <$> l1)) ->
    Forall text (concat (str_ids <$> l2)) ->
    Forall (fun i => ~ text i) (concat (container_ids <$> l1)) ->
    clean p ->
    foldl save p l1 = foldl save p l2 /\ clean (foldl save p l1).
Proof.
  intros Hall Hsame. induction Hsame as [|x y l1 l2 Hxy _ IH];
    intros p H1 H2 H3 Hp; [now split|].
  apply Forall_cons_1 in Hall as [Hx Hall].
  rewrite !fmap_cons in *. cbn [concat] in *.
  apply Forall_app in H1 as [H1x H1], H2 as [H2y H2], H3 as [H3x H3].
  destruct (Hx y p Hxy H1x H2y H3x Hp) as [Heq Hclean].
  cbn [foldl]. rewrite <- Heq. now apply IH.
Qed.

Lemma save_blind (o1 : pyobj) : blind o1.
Proof.
  induction o1 as [i s|i z|i items IH|i items IH] using memo_obj_ind';
    intros o2 p Hsame H1 H2 H3 Hp; inversion Hsame; subst;
    cbn [str_ids container_ids] in *.
  - apply Forall_cons_1 in H1 as [Hi _], H2 as [Hj _].
    cbn [save py_id]. rewrite (Hp i Hi), (Hp j Hj).
    rewrite !memoize_str by reflexivity. split; [reflexivity|].
    now apply clean_write.
  - cbn [save py_id].
    destruct (memo p !! i); (split; [reflexivity | now apply clean_write]).
  - apply Forall_cons_1 in H3 as [Hi H3].
    cbn [save py_id]. destruct (memo p !! i) eqn:Hm.
    { split; [reflexivity | now apply clean_write]. }
    assert (Hstart :
              memoize (write EMPTY_LIST p) (PList i items)
              = memoize (write EMPTY_LIST p) (PList i l2)) by reflexivity.
    rewrite <- Hstart.
    destruct (foldl_save_blind items l2 IH ltac:(assumption)
                (write MARK (memoize (write EMPTY_LIST p) (PList i items)))
                H1 H2 H3) as [Heq Hclean].
    { apply clean_write, clean_memoize; [now intros _|now apply clean_write]. }
    rewrite Heq. split; [reflexivity|]. rewrite <- Heq. now apply clean_write.
  - apply Forall_cons_1 in H3 as [Hi H3].
    cbn [save py_id]. destruct (memo p !! i) eqn:Hm.
    { split; [reflexivity | now apply clean_write]. }
    destruct (foldl_save_blind items l2 IH ltac:(assumption)
                (write MARK p) H1 H2 H3) as [Heq Hclean].
    { now apply clean_write. }
    rewrite <- Heq. split; [reflexivity|].
    apply clean_memoize; [now intros _|now apply clean_write].
Qed.

End blind.

(** C6.  [Pickler.memoize] leaves the pickler as it is when the object is
    of type [str].  So two [str] objects with the same text are dumped to
    the same stream, and two objects that are the same but for which [str]
    objects hold their text (one object held twice, or two objects with
    equal text) are dumped to the same stream. *)
Theorem dumps_ignores_str_identity :
  (forall (p : Pickler) (obj : pyobj), is_str obj = true -> memoize p obj = p)
  /\ (forall (i j : nat) (s : string), dumps (PStr i s) = dumps (PStr j s))
  /\ (forall o1 o2 : pyobj,
        same_text o1 o2 -> str_ids_apart o1 o2 = true -> dumps o1 = dumps o2)
  /\ dumps shared_text = dumps equal_text.
Proof.
  assert (Hgen : forall o1 o2 : pyobj,
            same_text o1 o2 -> str_ids_apart o1 o2 = true ->
            dumps o1 = dumps o2).
  { intros o1 o2 Hsame Hapart. unfold dumps.
    set (text := fun i => i ∈ str_ids o1 ++ str_ids o2).
    destruct (save_blind text o1 o2 (mkPickler ∅ [PROTO]) Hsame) as [-> _];
      [| | | |reflexivity].
    - apply Forall_forall. intros i Hi. unfold text. set_solver.
    - apply Forall_forall. intros i Hi. unfold text. set_solver.
    - apply Forall_forall. intros i Hi Htext.
      unfold str_ids_apart in Hapart. rewrite forallb_forall in Hapart.
      specialize (Hapart i (proj1 (list_elem_of_In _ _) Htext)).
      apply negb_true_iff, bool_decide_eq_false in Hapart. now apply Hapart.
    - intros i _. apply lookup_empty. }
  split; [apply memoize_str|]. split; [reflexivity|]. split; [exact Hgen|].
  apply Hgen; [|reflexivity].
  repeat constructor.
Qed.

Lemma dumps_ignores_str_identity_witness :
  same_text shared_text equal_text
  /\ str_ids_apart shared_text equal_text = true
  /\ dumps shared_text = dumps equal_text.
Proof.
  assert (H1 : same_text shared_text equal_text) by repeat constructor.
  assert (H2 : str_ids_apart shared_text equal_text = true) by reflexivity.
  split; [exact H1|]. split; [exact H2|].
  destruct dumps_ignores_str_identity as (_ & _ & Hgen & _).
  exact (Hgen _ _ H1 H2).
Defined.

End MemoFacts.

(** ** _save_code, save_function, dumps *)

Module PicklingFacts.
Import Pickling.

(** *** Sorted globals *)

#[local] Instance str_le_total : Total str_le.
Proof. intros a b. apply String.leb_total. Qed.

Section sorted.
Context {O : Type}.
Implicit Types (globs : list (string * O)).

Lemma dict_get_In globs (k : string) :
  k ∈ globs.*1 -> is_Some (dict_get globs k).
Proof.
  intros Hk. unfold dict_get.
  destruct (find (fun kv => String.eqb kv.1 k) globs) as [kv|] eqn:Hf;
    [now eexists|].
  apply list_elem_of_fmap in Hk as ([k' v] & -> & Hin).
  apply list_elem_of_In in Hin.
  apply (find_none _ _ Hf) in Hin. simpl in Hin.
  now rewrite String.eqb_refl in Hin.
Qed.

Lemma omap_keys globs (keys : list string) :
  Forall (fun k => k ∈ globs.*1) keys ->
  (omap (fun k => pair k <$> dict_get globs k) keys).*1 = keys.
Proof.
  induction 1 as [|k keys Hk _ IH]; [reflexivity|].
  cbn [omap list_omap]. destruct (dict_get_In globs k Hk) as [v ->].
  cbn. now rewrite IH.
Qed.

(** The keys of the sorted copy are the keys of the dict, sorted. *)
Lemma sorted_copy_keys globs :
  (sorted_copy globs).*1 = merge_sort str_le globs.*1.
Proof.
  unfold sorted_copy. apply omap_keys, Forall_forall. intros k Hk.
  now rewrite merge_sort_Permutation in Hk.
Qed.

Lemma sorted_copy_sorted globs : Sorted str_le (sorted_copy globs).*1.
Proof. rewrite sorted_copy_keys. apply Sorted_merge_sort, _. Qed.

Lemma sorted_copy_same_keys globs : (sorted_copy globs).*1 ≡ₚ globs.*1.
Proof. rewrite sorted_copy_keys. apply merge_sort_Permutation. Qed.

(** Every entry of the sorted copy is an entry of the dict. *)
Lemma sorted_copy_entries globs (k : string) (v : O) :
  (k, v) ∈ sorted_copy globs -> (k, v) ∈ globs.
Proof.
  unfold sorted_copy. rewrite list_elem_of_omap.
  intros (k' & _ & Hkv). unfold dict_get in Hkv.
  destruct (find _ globs) as [[k'' v']|] eqn:Hf; [|discriminate].
  cbn in Hkv. injection Hkv as -> ->.
  apply find_some in Hf as [Hin Heq]. cbn in Heq.
  apply String.eqb_eq in Heq as ->. now apply list_elem_of_In.
Qed.

End sorted.

(** For dill < 0.3.5 the dict of globals in the reduction of a function that
    dill does not find by name has the keys of the captured dict, in
    ascending order, each with its value in the captured dict. *)
Lemma save_function_lt_035_sorted_globals {O : Type} `{PyObj O}
    (OLDER : bool) (p : pickler O) (view : dill_view O) (obj : function O) :
  located view = false ->
  exists globs,
    reduce_args (save_function_lt_035 OLDER p view obj) !! 1%nat
    = Some (FDict (mkDict site_sorted globs))
    /\ Sorted str_le globs.*1
    /\ globs.*1 ≡ₚ (captured_globals p view obj).*1
    /\ forall k v, (k, v) ∈ globs -> (k, v) ∈ captured_globals p view obj.
Proof.
  intros Hloc. exists (sorted_copy (captured_globals p view obj)).
  split; [|split; [apply sorted_copy_sorted|split;
                   [apply sorted_copy_same_keys|apply sorted_copy_entries]]].
  unfold save_function_lt_035, captured_globals. rewrite Hloc. cbn.
  now destruct (truthy (_recurse p)), (in_stack view).
Qed.

(** C7.  For dill >= 0.3.5 and the pickler of [dumps], on a closure whose
    referenced globals [globalvars] returns in the order [np], [a]: the
    dict of globals embedded in the reduction is the sorted copy of
    [{"__name__": obj.__module__}] and holds none of the captured bindings;
    these are handed over unsorted in the post-processing list, to be set on
    the dict that was there before the sorted copy was made; so the order
    in which [globalvars] returns the bindings shows in what [dumps] writes.
    For dill < 0.3.5 the embedded dict is the sorted dict of the captured
    bindings, and the order does not show. *)
Theorem save_function_ge_035_globals_unsorted :
  let np_a := [("np", OInt 3); ("a", OInt 1)]%string in
  let a_np := [("a", OInt 1); ("np", OInt 3)]%string in
  let f := closure "/home/a/foo.py" 10 in
  reduce_args (save_function_ge_035 dump_pickler (closure_view np_a) f) !! 1%nat
  = Some (FDict (mkDict site_sorted [("__name__"%string, OStr "__main__")]))
  /\ reduce_postproc (save_function_ge_035 dump_pickler (closure_view np_a) f)
     = [Setitems
          (mkDict site_name_literal [("__name__"%string, OStr "__main__")])
          (mkDict site_globalvars np_a)]
  /\ dumps false false (OFunc f (closure_view np_a))
     <> dumps false false (OFunc f (closure_view a_np))
  /\ reduce_args (save_function_lt_035 false dump_pickler (closure_view np_a) f)
       !! 1%nat
     = Some (FDict (mkDict site_sorted a_np))
  /\ dumps true false (OFunc f (closure_view np_a))
     = dumps true false (OFunc f (closure_view a_np)).
Proof.
  cbv zeta. split; [reflexivity|]. split; [reflexivity|].
  split; [|split; reflexivity].
  vm_compute. intros Heq. discriminate Heq.
Qed.

(** *** Places of definition *)

Lemma pickled_obj_ind' (P : pyobj -> Prop) :
  P ONone -> (forall z, P (OInt z)) -> (forall s, P (OStr s)) ->
  (forall b, P (OBytes b)) ->
  (forall l, Forall P l -> P (OTuple l)) ->
  (forall c, P c -> P (OCell c)) ->
  (forall c, Forall P (co_consts c) -> P (OCode c)) ->
  (forall f view, Forall P (co_consts (__code__ f)) -> P (OFunc f view)) ->
  forall obj, P obj.
Proof.
  intros Hnone Hint Hstr Hbytes Htuple Hcell Hcode Hfunc. fix IH 1.
  intros [|z|s|b|l|c|c|f view].
  - exact Hnone.
  - apply Hint.
  - apply Hstr.
  - apply Hbytes.
  - apply Htuple. induction l; constructor; [apply IH | assumption].
  - apply Hcell, IH.
  - apply Hcode. destruct c as [? ? ? ? ? ? ? consts ? ? ? ? ? ? ? ?].
    cbn. induction consts; constructor; [apply IH | assumption].
  - apply Hfunc. destruct f as [c ? ? ? ? ? ? ? ? ? ?].
    destruct c as [? ? ? ? ? ? ? consts ? ? ? ? ? ? ? ?].
    cbn. induction consts; constructor; [apply IH | assumption].
Qed.

Lemma kept_filename_code_map {X Y} (g : X -> Y) (c : code X) :
  kept_filename (code_map g c) = kept_filename c.
Proof. now destruct c. Qed.

(** What [_save_code] writes for a code object and for the same code with
    other constants, file name and first line is the same, when the
    constants are written the same and the kept file name is the same. *)
Lemma write_code_relocated (g : pyobj -> payload) (c : code pyobj)
    (consts : list pyobj) (filename : string) (firstlineno : Z) :
  g <$> co_consts c = g <$> consts ->
  kept_filename c = kept_filename (relocate_code c consts filename firstlineno) ->
  write_code (code_map g c)
  = write_code (code_map g (relocate_code c consts filename firstlineno)).
Proof.
  intros Hconsts Hname. unfold write_code, _save_code.
  rewrite !kept_filename_code_map, <- Hname.
  destruct c; cbn in *. rewrite Hconsts. reflexivity.
Qed.

Lemma with_code_same {O} (f : function O) : with_code f (__code__ f) = f.
Proof. now destruct f. Qed.

Lemma function_map_with_code {X Y} (g : X -> Y) (f : function X) (c : code X) :
  function_map g (with_code f c) = with_code (function_map g f) (code_map g c).
Proof. now destruct f. Qed.

Lemma co_names_code_map {X Y} (g : X -> Y) (c : code X) :
  co_names (code_map g c) = co_names c.
Proof. now destruct c. Qed.

(** [save_function] hands the code object on as it is and looks at its
    names only: functions whose code objects are written the same are written
    the same. *)
Lemma write_action_with_code (DILL_LT_0_3_5 OLDER : bool)
    (p : pickler payload) (view : dill_view payload) (f : function payload)
    (c1 c2 : code payload) :
  write_code c1 = write_code c2 -> co_names c1 = co_names c2 ->
  write_action (save_function DILL_LT_0_3_5 OLDER p view (with_code f c1))
  = write_action (save_function DILL_LT_0_3_5 OLDER p view (with_code f c2)).
Proof.
  intros Hcode Hnames. unfold save_function.
  destruct DILL_LT_0_3_5.
  - unfold save_function_lt_035. destruct (negb (located view)); [|reflexivity].
    cbn [with_code __code__ __globals__ __name__ __qualname__ __module__
           __defaults__ __closure__ __dict__ __kwdefaults__ __doc__
           __annotations__ write_action fmap list_fmap write_func_arg].
    now rewrite Hcode.
  - unfold save_function_ge_035, module_obj, module_differs.
    destruct (negb (located view)); [|reflexivity].
    cbn [with_code __code__ __globals__ __name__ __qualname__ __module__
           __defaults__ __closure__ __dict__ __kwdefaults__ __doc__
           __annotations__].
    repeat match goal with
           | |- context [let '(_, _) := ?x in _] => destruct x
           end.
    cbn [write_action fmap list_fmap write_func_arg].
    now rewrite Hcode.
Qed.

Lemma relocated_consts (g : pyobj -> payload) (l1 l2 : list pyobj) :
  Forall (fun o1 => forall o2,
            relocated same_kept_filename o1 o2 -> g o1 = g o2) l1 ->
  Forall2 (relocated same_kept_filename) l1 l2 ->
  g <$> l1 = g <$> l2.
Proof.
  intros Hall Hrel. induction Hrel as [|x y l1 l2 Hxy _ IH]; [reflexivity|].
  apply Forall_cons_1 in Hall as [Hx Hall].
  rewrite !fmap_cons. f_equal; [now apply Hx | now apply IH].
Qed.

Lemma save_relocated (DILL_LT_0_3_5 OLDER : bool) (p : pickler payload)
    (o1 o2 : pyobj) :
  relocated same_kept_filename o1 o2 ->
  save DILL_LT_0_3_5 OLDER p o1 = save DILL_LT_0_3_5 OLDER p o2.
Proof.
  revert o2.
  induction o1 as [|z|s|b|l IH|c IH|c IH|f view IH] using pickled_obj_ind';
    intros o2 Hrel; inversion Hrel; subst; try reflexivity.
  - cbn [save]. apply write_code_relocated; [|assumption].
    now apply relocated_consts.
  - cbn [save]. rewrite function_map_with_code.
    rewrite <- (with_code_same (function_map _ f)) at 1.
    apply write_action_with_code.
    + replace (__code__ (function_map (save DILL_LT_0_3_5 OLDER p) f))
        with (code_map (save DILL_LT_0_3_5 OLDER p) (__code__ f))
        by now destruct f.
      match goal with
      | Hc : relocated _ (OCode (__code__ f)) (OCode _) |- _ =>
          inversion Hc; subst; [reflexivity|]
      end.
      apply write_code_relocated; [|assumption].
      now apply relocated_consts.
    + rewrite co_names_code_map.
      replace (co_names (__code__ (function_map (save DILL_LT_0_3_5 OLDER p) f)))
        with (co_names (__code__ f)) by now destruct f as [[] ? ? ? ? ? ? ? ? ? ?].
      match goal with
      | Hc : relocated _ (OCode (__code__ f)) (OCode _) |- _ =>
          inversion Hc; subst; reflexivity
      end.
Qed.

(** When [_save_code] keeps the same file name: the code is that of a
    lambda, or both files have names that start with [<], or neither has and
    the base names are the same. *)
Lemma same_kept_filename_cases (c : code pyobj) (consts : list pyobj)
    (filename : string) (firstlineno : Z) :
  co_name c = "<lambda>"%string
  \/ (startswith (co_filename c) "<" = true /\ startswith filename "<" = true)
  \/ (startswith (co_filename c) "<" = false
      /\ startswith filename "<" = false
      /\ basename (co_filename c) = basename filename) ->
  same_kept_filename c (relocate_code c consts filename firstlineno).
Proof.
  unfold same_kept_filename, kept_filename. cbn [relocate_code co_filename co_name].
  intros [-> | [[-> ->] | (-> & -> & ->)]]; cbn; try reflexivity.
  now rewrite !orb_true_r.
Qed.

(** C2, as amended.  Two functions with the same body, free variables,
    defaults, globals and names, whose code objects differ in file name and
    first line only, are dumped to the same payload when [_save_code] keeps
    the same file name of each pair of code objects: the files have the
    same base name, or their names start with [<], or the code is that of a
    lambda.  This holds for both versions of [save_function]. *)
Theorem dumps_ignores_place_of_definition (DILL_LT_0_3_5 OLDER : bool)
    (f1 f2 : pyobj) :
  relocated same_kept_filename f1 f2 ->
  dumps DILL_LT_0_3_5 OLDER f1 = dumps DILL_LT_0_3_5 OLDER f2.
Proof. intros Hrel. unfold dumps, dump. now apply save_relocated. Qed.

Lemma dumps_ignores_place_of_definition_witness :
  relocated same_kept_filename closure_at_foo closure_moved
  /\ dumps false false closure_at_foo = dumps false false closure_moved.
Proof.
  assert (H1 : relocated same_kept_filename closure_at_foo closure_moved).
  { apply relocated_func, relocated_code; [|reflexivity].
    repeat constructor. }
  split; [exact H1|].
  exact (dumps_ignores_place_of_definition false false _ _ H1).
Defined.

(** C2, as stated, fails: the closure [f] of /home/a/foo.py, line 10, and
    the same closure of /home/b/bar.py, line 20, differ in file name and
    first line only, and [_save_code] keeps [foo.py] of the one and [bar.py]
    of the other; the payloads differ, for both versions of
    [save_function]. *)
Lemma dumps_keeps_base_name :
  relocated any_origin closure_at_foo closure_at_bar
  /\ dumps true false closure_at_foo <> dumps true false closure_at_bar
  /\ dumps false false closure_at_foo <> dumps false false closure_at_bar.
Proof.
  split; [|split].
  - apply relocated_func, relocated_code; [|exact I]. repeat constructor.
  - vm_compute. intros Heq. discriminate Heq.
  - vm_compute. intros Heq. discriminate Heq.
Qed.

End PicklingFacts.

(** ** unique_values, first_non_null_value, zip_dict *)

Module IterablesFacts.
Import Iterables.

(** Membership in lists built with [::] and [++]. *)
Ltac elems :=
  repeat first [ rewrite elem_of_app in * | rewrite elem_of_cons in *
               | rewrite elem_of_nil in * ];
  intuition congruence.

Section unique.
Context {X : Type} `{EqDecision X}.
Implicit Types (seen values l : list X).

Lemma unique_from_elem seen values (x : X) :
  x ∈ unique_values_from seen values <-> x ∈ values /\ x ∉ seen.
Proof.
  revert seen. induction values as [|v values IH]; intros seen; simpl.
  - elems.
  - destruct (decide (v ∈ seen)).
    + rewrite IH. elems.
    + rewrite elem_of_cons, IH. destruct (decide (x = v)) as [->|]; elems.
Qed.

Lemma unique_from_NoDup seen values : NoDup (unique_values_from seen values).
Proof.
  revert seen. induction values as [|v values IH]; intros seen; simpl.
  - constructor.
  - destruct (decide (v ∈ seen)); [apply IH|].
    constructor; [|apply IH]. rewrite unique_from_elem. elems.
Qed.

Lemma unique_from_sublist seen values :
  unique_values_from seen values `sublist_of` values.
Proof.
  revert seen. induction values as [|v values IH]; intros seen; simpl.
  - constructor.
  - destruct (decide (v ∈ seen)).
    + apply sublist_cons, IH.
    + apply sublist_skip, IH.
Qed.

(** One more value at the end is yielded at the end, when it is new. *)
Lemma unique_from_snoc seen values (x : X) :
  unique_values_from seen (values ++ [x])
  = unique_values_from seen values
      ++ (if decide (x ∈ seen ++ values) then [] else [x]).
Proof.
  revert seen. induction values as [|v values IH]; intros seen; simpl.
  - rewrite app_nil_r. now destruct (decide (x ∈ seen)).
  - destruct (decide (v ∈ seen)) as [Hv|Hv].
    + rewrite IH. f_equal.
      destruct (decide (x ∈ seen ++ values)),
        (decide (x ∈ seen ++ v :: values)); try reflexivity; exfalso; elems.
    + rewrite IH. simpl. f_equal. f_equal.
      destruct (decide (x ∈ v :: seen ++ values)),
        (decide (x ∈ seen ++ v :: values)); try reflexivity; exfalso; elems.
Qed.

(** The set of the values met matters, not the order in which they were
    met. *)
Lemma unique_from_seen_ext seen seen' values :
  (forall x, x ∈ seen <-> x ∈ seen') ->
  unique_values_from seen values = unique_values_from seen' values.
Proof.
  revert seen seen'. induction values as [|v values IH]; intros seen seen' Hs;
    simpl; [reflexivity|].
  destruct (decide (v ∈ seen)), (decide (v ∈ seen'));
    try (exfalso; apply Hs in e; contradiction);
    try (exfalso; apply Hs in e; contradiction).
  - now apply IH.
  - f_equal. apply IH. intros x. rewrite !elem_of_cons, Hs. reflexivity.
Qed.

Lemma unique_from_fixed seen values :
  NoDup values -> (forall x, x ∈ values -> x ∉ seen) ->
  unique_values_from seen values = values.
Proof.
  revert seen. induction values as [|v values IH]; intros seen Hnd Hs;
    simpl; [reflexivity|].
  apply NoDup_cons in Hnd as [Hv Hnd].
  destruct (decide (v ∈ seen)) as [Hin|Hin];
    [exfalso; apply (Hs v); [left|assumption]|].
  f_equal. apply IH; [assumption|]. intros x Hx. rewrite elem_of_cons.
  intros [->|Hx']; [contradiction|]. apply (Hs x); [now right|assumption].
Qed.

Lemma unique_from_app seen values more :
  unique_values_from seen (values ++ more)
  = unique_values_from seen values
      ++ unique_values_from (values ++ seen) more.
Proof.
  revert seen. induction values as [|v values IH]; intros seen; simpl;
    [reflexivity|].
  destruct (decide (v ∈ seen)) as [Hv|Hv]; rewrite IH; simpl.
  - f_equal. apply unique_from_seen_ext. intros x.
    destruct (decide (x = v)) as [->|]; elems.
  - do 2 f_equal. apply unique_from_seen_ext. intros x. elems.
Qed.

Lemma unique_from_all_seen seen values :
  (forall x, x ∈ values -> x ∈ seen) -> unique_values_from seen values = [].
Proof.
  induction values as [|v values IH]; intros Hs; simpl; [reflexivity|].
  destruct (decide (v ∈ seen)) as [Hv|Hv].
  - apply IH. intros x Hx. apply Hs. now right.
  - exfalso. apply Hv, Hs. now left.
Qed.

(** X1.  [unique_values] yields every value of its input and no other, each
    one once, in the order of the input. *)
Theorem unique_values_once_each values :
  NoDup (unique_values values)
  /\ (forall x, x ∈ unique_values values <-> x ∈ values)
  /\ unique_values values `sublist_of` values.
Proof.
  unfold unique_values. split; [apply unique_from_NoDup|]. split.
  - intros x. rewrite unique_from_elem. elems.
  - apply unique_from_sublist.
Qed.

(** X2.  [unique_values] keeps the first of equal values: what it has
    yielded from a list stays when the list goes on, and a further value is
    yielded, at the end, when and only when it was not met before. *)
Theorem unique_values_first_kept values (x : X) (more : list X) :
  unique_values (values ++ [x])
  = unique_values values ++ (if decide (x ∈ values) then [] else [x])
  /\ unique_values values `prefix_of` unique_values (values ++ more).
Proof.
  split.
  - unfold unique_values. now rewrite unique_from_snoc.
  - induction more as [|y more IH] using rev_ind.
    + now rewrite app_nil_r.
    + rewrite app_assoc. unfold unique_values in *. rewrite unique_from_snoc.
      now apply prefix_app_r.
Qed.

(** X3.  [unique_values] leaves a list without repeated values as it is,
    and running it on its own output changes nothing. *)
Theorem unique_values_idempotent values :
  (NoDup values -> unique_values values = values)
  /\ unique_values (unique_values values) = unique_values values.
Proof.
  assert (Hfix : forall l : list X, NoDup l -> unique_values l = l).
  { intros l Hnd. apply unique_from_fixed; [assumption|]. intros x _. elems. }
  split; [apply Hfix|]. apply Hfix, unique_from_NoDup.
Qed.

End unique.

Lemma unique_values_idempotent_witness :
  NoDup [3; 1; 2]%Z /\ unique_values [3; 1; 2]%Z = [3; 1; 2]%Z.
Proof.
  assert (H1 : NoDup [3; 1; 2]%Z) by compute_done.
  split; [exact H1|].
  exact (proj1 (unique_values_idempotent [3; 1; 2]%Z) H1).
Defined.

Section first.
Context {X : Type}.

Lemma first_non_null_from_spec (i : Z) (iterable : list (option X)) :
  (Forall (fun v => v = None) iterable
   /\ first_non_null_from i iterable = (-1, None))
  \/ (exists (n : nat) (x : X) (rest : list (option X)),
        iterable = replicate n None ++ Some x :: rest
        /\ first_non_null_from i iterable = (i + Z.of_nat n, Some x)).
Proof.
  revert i. induction iterable as [|v iterable IH]; intros i.
  - left. now split.
  - destruct v as [x|].
    + right. exists 0%nat, x, iterable. split; [reflexivity|].
      simpl. f_equal. lia.
    + destruct (IH (i + 1)) as [[Hall Hr]|(n & x & rest & -> & Hr)].
      * left. split; [now constructor|exact Hr].
      * right. exists (S n), x, rest. split; [reflexivity|].
        simpl. rewrite Hr. f_equal. lia.
Qed.

(** X4.  [first_non_null_value] returns the index and the value of the first
    value that is not [None]: every value before that index is [None].  It
    returns [(-1, None)] when every value is [None], the empty input
    included, and only then. *)
Theorem first_non_null_value_is_first (iterable : list (option X)) :
  (Forall (fun v => v = None) iterable
   /\ first_non_null_value iterable = (-1, None))
  \/ (exists (n : nat) (x : X) (rest : list (option X)),
        iterable = replicate n None ++ Some x :: rest
        /\ first_non_null_value iterable = (Z.of_nat n, Some x)).
Proof.
  unfold first_non_null_value.
  destruct (first_non_null_from_spec 0 iterable)
    as [H|(n & x & rest & H1 & H2)]; [now left|].
  right. exists n, x, rest. split; [assumption|]. now rewrite H2.
Qed.

End first.

Section zip.
Context {K V : Type} `{EqDecision K}.
Implicit Types (d : list (K * V)) (dicts : list (list (K * V))).

Lemma getitem_is_Some d (k : K) : is_Some (getitem d k) <-> k ∈ keys d.
Proof.
  unfold getitem, keys. split.
  - intros [v Hv]. destruct (find _ d) as [[k' v']|] eqn:Hf; [|discriminate].
    apply find_some in Hf as [Hin Hk]. apply bool_decide_eq_true in Hk.
    simpl in Hk. subst k'. apply list_elem_of_fmap. exists (k, v').
    split; [reflexivity|]. now apply list_elem_of_In.
  - intros Hk. apply list_elem_of_fmap in Hk as ([k' v] & -> & Hin).
    destruct (find _ d) as [kv|] eqn:Hf; [now eexists|].
    apply list_elem_of_In in Hin. apply (find_none _ _ Hf) in Hin.
    simpl in Hin. apply bool_decide_eq_false in Hin. contradiction.
Qed.

Lemma values_at_is_Some dicts (k : K) :
  is_Some (values_at k dicts) <-> Forall (fun d => k ∈ keys d) dicts.
Proof.
  unfold values_at. rewrite mapM_is_Some. apply Forall_proper; [|reflexivity].
  intros d. apply getitem_is_Some.
Qed.

Lemma zip_keys_spec (ks : list K) dicts :
  Forall (tuple_of dicts) (zip_keys ks dicts).1
  /\ match (zip_keys ks dicts).2 with
     | Exhausted =>
         (zip_keys ks dicts).1.*1 = ks
         /\ Forall (fun k => Forall (fun d => k ∈ keys d) dicts) ks
     | KeyError key =>
         ((zip_keys ks dicts).1.*1 ++ [key]) `prefix_of` ks
         /\ exists d, d ∈ dicts /\ key ∉ keys d
     end.
Proof.
  induction ks as [|k ks [IH1 IH2]]; simpl.
  - split; [constructor|]. now split.
  - destruct (values_at k dicts) as [vs|] eqn:Hvs; simpl.
    + split.
      * constructor; [|assumption]. now apply mapM_Some.
      * destruct (zip_keys ks dicts).2 as [|key].
        -- destruct IH2 as [Heq Hall]. split; [now f_equal|].
           constructor; [|assumption]. apply values_at_is_Some.
           rewrite Hvs. now eexists.
        -- destruct IH2 as [Hpre Hd]. split; [|assumption].
           now apply prefix_cons.
    + split; [constructor|]. split; [apply prefix_cons, prefix_nil|].
      apply eq_None_not_Some in Hvs. rewrite values_at_is_Some in Hvs.
      apply not_Forall_Exists in Hvs; [|intros d; apply _].
      apply Exists_exists in Hvs as (d & Hd & Hk). eauto.
Qed.

Lemma elem_of_concat {Y} (y : Y) (ls : list (list Y)) :
  y ∈ concat ls <-> exists l, y ∈ l /\ l ∈ ls.
Proof.
  rewrite list_elem_of_In, in_concat. split.
  - intros (l & Hl & Hy). exists l. now rewrite !list_elem_of_In.
  - intros (l & Hy & Hl). exists l. now rewrite <- !list_elem_of_In.
Qed.

Lemma unique_concat_keys dicts (k : K) :
  k ∈ unique_values (concat (keys <$> dicts))
  <-> exists d, d ∈ dicts /\ k ∈ keys d.
Proof.
  unfold unique_values. rewrite unique_from_elem, elem_of_concat.
  split.
  - intros [(ks & Hk & Hks) _]. apply list_elem_of_fmap in Hks as (d & -> & Hd).
    eauto.
  - intros (d & Hd & Hk). split; [|apply not_elem_of_nil].
    exists (keys d). split; [assumption|]. apply list_elem_of_fmap. eauto.
Qed.

(** X5.  When the dicts have the same keys, [zip_dict] runs to its end
    without a [KeyError]; it yields every key once, in the order in which
    the keys are first met (that of the first dict), each with the tuple of
    its values in the dicts, in the order of the dicts. *)
Theorem zip_dict_same_keys dicts :
  (forall d1 d2 k, d1 ∈ dicts -> d2 ∈ dicts -> k ∈ keys d1 -> k ∈ keys d2) ->
  (zip_dict dicts).2 = Exhausted
  /\ NoDup (zip_dict dicts).1.*1
  /\ (forall d k, d ∈ dicts -> k ∈ (zip_dict dicts).1.*1 <-> k ∈ keys d)
  /\ Forall (fun kv => Forall2 (fun d v => getitem d kv.1 = Some v) dicts kv.2)
       (zip_dict dicts).1
  /\ (forall d ds, dicts = d :: ds -> NoDup (keys d) ->
      (zip_dict dicts).1.*1 = keys d).
Proof.
  intros Hsame. unfold zip_dict.
  set (ks := unique_values (concat (keys <$> dicts))).
  destruct (zip_keys_spec ks dicts) as [Htuples Hend].
  assert (Hall : Forall (fun k => Forall (fun d => k ∈ keys d) dicts) ks).
  { apply Forall_forall. intros k Hk. apply Forall_forall. intros d Hd.
    apply unique_concat_keys in Hk as (d' & Hd' & Hk). eauto. }
  destruct (zip_keys ks dicts).2 as [|key] eqn:He.
  - destruct Hend as [Hkeys _]. split; [reflexivity|]. rewrite Hkeys.
    split; [apply unique_from_NoDup|]. split; [|split; [exact Htuples|]].
    + intros d k Hd. unfold ks. rewrite unique_concat_keys. split.
      * intros (d' & Hd' & Hk). eauto.
      * intros Hk. eauto.
    + intros d ds -> Hnd. unfold ks, unique_values. rewrite fmap_cons.
      cbn [concat]. rewrite unique_from_app, app_nil_r.
      rewrite unique_from_fixed by (assumption || (intros; apply not_elem_of_nil)).
      rewrite unique_from_all_seen; [apply app_nil_r|].
      intros k Hk. apply elem_of_concat in Hk as (ks' & Hk & Hks).
      apply list_elem_of_fmap in Hks as (d' & -> & Hd').
      apply (Hsame d' d k); [now right | now left | assumption].
  - exfalso. destruct Hend as [Hpre (d & Hd & Hk)]. apply Hk.
    assert (Hin : key ∈ ks).
    { destruct Hpre as [rest ->]. elems. }
    rewrite Forall_forall in Hall. specialize (Hall key Hin).
    rewrite Forall_forall in Hall. now apply Hall.
Qed.

(** X6.  [zip_dict] runs to its end when and only when the dicts have the
    same keys.  Else it ends with the [KeyError] of a key that one dict has
    and another has not, the first such key in the order in which the keys
    are met, after it has yielded the keys before that one with their
    tuples. *)
Theorem zip_dict_key_error dicts :
  ((zip_dict dicts).2 = Exhausted
   <-> forall d1 d2 k, d1 ∈ dicts -> d2 ∈ dicts -> k ∈ keys d1 -> k ∈ keys d2)
  /\ forall key,
       (zip_dict dicts).2 = KeyError key ->
       (exists d, d ∈ dicts /\ key ∈ keys d)
       /\ (exists d, d ∈ dicts /\ key ∉ keys d)
       /\ ((zip_dict dicts).1.*1 ++ [key])
            `prefix_of` unique_values (concat (keys <$> dicts))
       /\ Forall (fun k => Forall (fun d => k ∈ keys d) dicts)
            (zip_dict dicts).1.*1.
Proof.
  unfold zip_dict.
  set (ks := unique_values (concat (keys <$> dicts))).
  destruct (zip_keys_spec ks dicts) as [Htuples Hend].
  split.
  - split.
    + intros He. rewrite He in Hend. destruct Hend as [_ Hall].
      intros d1 d2 k Hd1 Hd2 Hk.
      assert (Hin : k ∈ ks) by (apply unique_concat_keys; eauto).
      rewrite Forall_forall in Hall. specialize (Hall k Hin).
      rewrite Forall_forall in Hall. now apply Hall.
    + intros Hsame. destruct (zip_keys ks dicts).2 as [|key]; [reflexivity|].
      exfalso. destruct Hend as [Hpre (d & Hd & Hk)]. apply Hk.
      assert (Hin : key ∈ ks)
        by (destruct Hpre as [rest Hrest]; rewrite Hrest; elems).
      apply unique_concat_keys in Hin as (d' & Hd' & Hk'). eauto.
  - intros key He. rewrite He in Hend. destruct Hend as [Hpre Hmiss].
    split; [|split; [exact Hmiss|split; [exact Hpre|]]].
    + apply unique_concat_keys. fold ks. destruct Hpre as [rest Hrest].
      rewrite Hrest. elems.
    + apply Forall_forall. intros k Hk.
      apply list_elem_of_fmap in Hk as ([k' vs] & -> & Hkv).
      rewrite Forall_forall in Htuples. specialize (Htuples _ Hkv).
      apply values_at_is_Some. exists vs. now apply mapM_Some.
Qed.

End zip.

Lemma zip_dict_same_keys_witness :
  (forall d1 d2 k,
     d1 ∈ [[(1, 10); (2, 20)]; [(2, 21); (1, 11)]]%Z ->
     d2 ∈ [[(1, 10); (2, 20)]; [(2, 21); (1, 11)]]%Z ->
     k ∈ keys d1 -> k ∈ keys d2)
  /\ zip_dict [[(1, 10); (2, 20)]; [(2, 21); (1, 11)]]%Z
     = ([(1, [10; 11]); (2, [20; 21])]%Z, Exhausted).
Proof.
  assert (H1 : forall d1 d2 k,
            d1 ∈ [[(1, 10); (2, 20)]; [(2, 21); (1, 11)]]%Z ->
            d2 ∈ [[(1, 10); (2, 20)]; [(2, 21); (1, 11)]]%Z ->
            k ∈ keys d1 -> k ∈ keys d2).
  { intros d1 d2 k Hd1 Hd2.
    repeat first [ rewrite elem_of_cons in Hd1 | rewrite elem_of_nil in Hd1 ].
    repeat first [ rewrite elem_of_cons in Hd2 | rewrite elem_of_nil in Hd2 ].
    destruct Hd1 as [->|[->|[]]], Hd2 as [->|[->|[]]]; unfold keys; simpl;
      repeat first [ rewrite elem_of_cons | rewrite elem_of_nil ]; tauto. }
  split; [exact H1|].
  pose proof (zip_dict_same_keys _ H1) as (Hend & _).
  apply injective_projections; [reflexivity|exact Hend].
Defined.

End IterablesFacts.

(** ** NonMutableDict: the constructor and runs of statements *)

Module NonMutableRunFacts.
Import NonMutable NonMutableFacts.

Section runs.
Context `{Countable K} {V : Type}.
Variable format : string -> list K -> result string.
Variable tuple_key : K * V -> result (option K).
Implicit Types (d : NonMutableDict K V) (st : statement K V).

Local Abbreviation execute := (NonMutable.execute format tuple_key).
Local Abbreviation run := (NonMutable.run format tuple_key).

Lemma execute_keeps d st (k : K) (v : V) :
  entries d !! k = Some v -> k ∉ keys_of_pairs [st] ->
  entries (execute d st).1 !! k = Some v.
Proof.
  intros Hk Hpairs. destruct st as [k' v'|[other|pairs]]; simpl.
  - unfold __setitem__. destruct (contains d k') eqn:Hc; simpl; [assumption|].
    apply contains_false in Hc. rewrite lookup_insert_ne; [assumption|].
    intros ->. congruence.
  - destruct (existsb (contains d) (map_to_list other).*1) eqn:Hex; simpl;
      [assumption|].
    rewrite lookup_union_r; [assumption|].
    destruct (other !! k) as [w|] eqn:Hw; [|reflexivity].
    assert (Hover : existsb (contains d) (map_to_list other).*1 = true).
    { apply overlap_test. exists k. split; eexists; eassumption. }
    congruence.
  - destruct (any_pair_in tuple_key d pairs) as [[]|e]; simpl;
      try assumption.
    assert (Hk' : k ∉ pairs.*1).
    { unfold keys_of_pairs in Hpairs. cbn in Hpairs.
      now rewrite app_nil_r in Hpairs. }
    now rewrite (store_pairs_other (entries d) pairs k Hk').
Qed.

Lemma execute_error_msg d st : _error_msg (execute d st).1 = _error_msg d.
Proof.
  destruct st as [k v|[other|pairs]]; simpl.
  - unfold __setitem__. now destruct (contains d k).
  - now destruct (existsb _ _).
  - now destruct (any_pair_in tuple_key d pairs) as [[]|e].
Qed.

(** X7.  Item assignments and [update] calls with a mapping add keys and
    never modify one: whatever statements are run on the dict, and
    whichever of them raise, every key that was in the dict keeps its
    value, unless an [update] call with an iterable of pairs names the key;
    the error message stays the one given at construction. *)
Theorem NonMutableDict_add_only (sts : list (statement K V)) d :
  (forall (k : K) (v : V),
     entries d !! k = Some v -> k ∉ keys_of_pairs sts ->
     entries (run sts d) !! k = Some v)
  /\ _error_msg (run sts d) = _error_msg d.
Proof.
  unfold NonMutable.run. revert d.
  induction sts as [|st sts IH]; intros d; simpl.
  - now split.
  - destruct (IH (execute d st).1) as [IHk IHm]. split.
    + intros k v Hk Hpairs. unfold keys_of_pairs in Hpairs.
      rewrite fmap_cons in Hpairs. cbn [concat] in Hpairs.
      rewrite elem_of_app in Hpairs. apply IHk.
      * apply execute_keeps; [assumption|].
        unfold keys_of_pairs. cbn. rewrite app_nil_r. tauto.
      * unfold keys_of_pairs. tauto.
    + now rewrite IHm, execute_error_msg.
Qed.

End runs.

Section facts.
Context `{Countable K} {V : Type}.

Lemma dict_of_pairs_snoc (pairs : list (K * V)) (k : K) (v : V) :
  dict_of_pairs (pairs ++ [(k, v)]) = <[k := v]> (dict_of_pairs pairs).
Proof. unfold dict_of_pairs. now rewrite foldl_app. Qed.

Lemma dict_of_pairs_last (before after : list (K * V)) (k : K) (v : V) :
  k ∉ after.*1 -> dict_of_pairs (before ++ (k, v) :: after) !! k = Some v.
Proof.
  induction after as [|[k' v'] after IH] using rev_ind; intros Hk.
  - rewrite dict_of_pairs_snoc. apply lookup_insert_eq.
  - rewrite fmap_app, elem_of_app in Hk. simpl in Hk.
    rewrite app_comm_cons, app_assoc, dict_of_pairs_snoc.
    rewrite lookup_insert_ne; [apply IH; tauto|].
    intros ->. apply Hk. right. now left.
Qed.

Lemma dict_of_pairs_absent (pairs : list (K * V)) (k : K) :
  k ∉ pairs.*1 -> dict_of_pairs pairs !! k = None.
Proof.
  induction pairs as [|[k' v'] pairs IH] using rev_ind; intros Hk.
  - apply lookup_empty.
  - rewrite fmap_app, elem_of_app in Hk. simpl in Hk.
    rewrite dict_of_pairs_snoc, lookup_insert_ne; [apply IH; tauto|].
    intros ->. apply Hk. right. now left.
Qed.

(** X8.  The constructor of [NonMutableDict] raises [ValueError] for any
    keyword argument other than [error_msg].  Without one it does not
    raise: it takes [error_msg] (or the default message) and stores the
    pairs it is given without the check that [__setitem__] makes, so that of
    several pairs with the same key the last one is kept. *)
Theorem NonMutableDict_init (args : option (list (K * V)))
    (kwargs : gmap string string) :
  (forall name : string, name <> "error_msg"%string ->
     is_Some (kwargs !! name) ->
     @__init__ K _ _ V args kwargs
     = Raise (ValueError "NonMutableDict cannot be initialized with kwargs."))
  /\ ((forall name : string, name <> "error_msg"%string -> kwargs !! name = None) ->
      exists d,
        __init__ args kwargs = Ok d
        /\ _error_msg d = default default_error_msg (kwargs !! "error_msg"%string)
        /\ (forall before after (k : K) (v : V),
              args = Some (before ++ (k, v) :: after) -> k ∉ after.*1 ->
              entries d !! k = Some v)
        /\ (forall k : K,
              k ∉ (default [] args).*1 -> entries d !! k = None)).
Proof.
  unfold __init__. split.
  - intros name Hne [w Hw]. rewrite bool_decide_eq_true_2; [reflexivity|].
    intros Hempty.
    assert (Hl : delete "error_msg"%string kwargs !! name = Some w)
      by now rewrite lookup_delete_ne.
    rewrite Hempty, lookup_empty in Hl. discriminate.
  - intros Honly. rewrite bool_decide_eq_false_2.
    + eexists. split; [reflexivity|]. cbn [_error_msg entries]. split; [|split].
      * now destruct (kwargs !! "error_msg"%string).
      * intros before after k v -> Hk. now apply dict_of_pairs_last.
      * intros k Hk. apply dict_of_pairs_absent. now destruct args.
    + intros Hne. apply Hne. apply map_eq. intros name.
      rewrite lookup_empty. destruct (decide (name = "error_msg"%string)) as [->|Hn].
      * apply lookup_delete_eq.
      * rewrite lookup_delete_ne by congruence. now apply Honly.
Qed.

End facts.

Lemma NonMutableDict_add_only_witness :
  entries one_entry !! "a"%string = Some 1
  /\ entries (run (fun msg _ => Ok msg) no_tuple_keys
                [SetItem "a"%string 2; Update (Mapping {[ "b"%string := 3 ]});
                 Update (Mapping {[ "a"%string := 4 ]});
                 Update (Pairs [("c"%string, 7)])]
                one_entry) !! "a"%string
     = Some 1.
Proof.
  assert (H1 : entries one_entry !! "a"%string = Some 1) by reflexivity.
  split; [exact H1|].
  apply (proj1 (NonMutableDict_add_only (fun msg _ => Ok msg) no_tuple_keys
                  _ one_entry) "a"%string 1 H1).
  cbn. rewrite elem_of_cons, elem_of_nil. intros [Heq|[]]. discriminate Heq.
Defined.

Lemma NonMutableDict_init_witness :
  (forall name : string, name <> "error_msg"%string ->
     (∅ : gmap string string) !! name = None)
  /\ exists d : NonMutableDict string Z,
       __init__ (Some [("a"%string, 1); ("a"%string, 2)]) ∅ = Ok d
       /\ entries d !! "a"%string = Some 2.
Proof.
  assert (H1 : forall name : string, name <> "error_msg"%string ->
                 (∅ : gmap string string) !! name = None)
    by (intros; apply lookup_empty).
  split; [exact H1|].
  destruct (proj2 (NonMutableDict_init
                     (Some [("a"%string, 1); ("a"%string, 2)]) ∅) H1)
    as (d & Hd & _ & Hlast & _).
  exists d. split; [exact Hd|].
  apply (Hlast [("a"%string, 1)] [] "a"%string 2); [reflexivity|].
  apply not_elem_of_nil.
Defined.

End NonMutableRunFacts.

(** ** NestedDataStructure.flatten *)

Module FlattenFacts.
Import MapNested Flatten.

Section facts.
Context {A : Type} (is_none : A -> bool).
Implicit Types (v data self_data : value A) (l : list (value A)).

Lemma gather_Ok (xss : list (list (value A))) :
  gather (Ok <$> xss) = Ok (concat xss).
Proof. induction xss as [|xs xss IH]; csimpl; [reflexivity|]. now rewrite IH. Qed.

Lemma gather_Raise (parts : list (result (list (value A)))) (e : exn) :
  gather parts = Raise e -> Raise e ∈ parts.
Proof.
  induction parts as [|[xs|e'] parts IH]; simpl; [discriminate| |].
  - destruct (gather parts) as [ys|e'']; [discriminate|].
    intros [= ->]. right. now apply IH.
  - intros [= ->]. left.
Qed.

Lemma gather_first_Raise (before : list (list (value A)))
    (after : list (result (list (value A)))) (e : exn) :
  gather ((Ok <$> before) ++ Raise e :: after) = Raise e.
Proof. induction before as [|xs before IH]; csimpl; [reflexivity|]. now rewrite IH. Qed.

(** The parts of a comprehension up to the first exception. *)
Lemma parts_split (parts : list (result (list (value A)))) :
  (exists xss, parts = Ok <$> xss)
  \/ (exists before e after, parts = (Ok <$> before) ++ Raise e :: after).
Proof.
  induction parts as [|[xs|e] parts IH].
  - left. now exists [].
  - destruct IH as [[xss ->]|(before & e & after & ->)].
    + left. now exists (xs :: xss).
    + right. now exists (xs :: before), e, after.
  - right. now exists [], e, parts.
Qed.

Lemma existsb_concat {X} (p : X -> bool) (ls : list (list X)) :
  existsb p (concat ls) = existsb (existsb p) ls.
Proof.
  induction ls as [|x ls IH]; simpl; [reflexivity|].
  now rewrite existsb_app, IH.
Qed.

Lemma leaves_values (items : list (A * value A)) :
  leaves flatten_types (VDict items) = leaves flatten_types (VList items.*2).
Proof.
  simpl. f_equal. rewrite <- list_fmap_compose.
  apply list_fmap_ext. now intros _ [k x] _.
Qed.

Lemma has_None_values (items : list (A * value A)) :
  has_None is_none (VDict items) = has_None is_none (VList items.*2).
Proof. unfold has_None. now rewrite leaves_values. Qed.

Lemma has_None_list l :
  has_None is_none (VList l) = existsb (has_None is_none) l.
Proof.
  unfold has_None. simpl. rewrite existsb_concat.
  induction l as [|x l IH]; csimpl; [reflexivity|]. now rewrite IH.
Qed.

Lemma has_None_tuple l :
  has_None is_none (VTuple l) = existsb (has_None is_none) l.
Proof.
  unfold has_None. simpl. rewrite existsb_concat.
  induction l as [|x l IH]; csimpl; [reflexivity|]. now rewrite IH.
Qed.

Lemma height_values (items : list (A * value A)) :
  height (VDict items) = S (height (VList items.*2)).
Proof.
  simpl. do 3 f_equal. rewrite <- list_fmap_compose.
  apply list_fmap_ext. now intros _ [k x] _.
Qed.

Lemma height_elem l (x : value A) :
  x ∈ l -> (height x <= foldr Nat.max O (height <$> l))%nat.
Proof.
  induction 1 as [x l|x y l _ IH]; csimpl; lia.
Qed.

Lemma flatten_list (depth : nat) self_data l :
  flatten is_none (S depth) self_data (VList l)
  = gather (flatten is_none depth self_data <$> l).
Proof. reflexivity. Qed.

Lemma flatten_tuple (depth : nat) self_data l :
  flatten is_none (S depth) self_data (VTuple l)
  = gather (flatten is_none depth self_data <$> l).
Proof. reflexivity. Qed.

Lemma flatten_dict (depth : nat) self_data (items : list (A * value A)) :
  flatten is_none (S depth) self_data (VDict items)
  = flatten is_none depth self_data (VList items.*2).
Proof. reflexivity. Qed.

Lemma flatten_elements (depth : nat) self_data l :
  Forall (fun x => flatten is_none depth self_data x
                   = Ok (leaves flatten_types x)) l ->
  gather (flatten is_none depth self_data <$> l)
  = Ok (concat (leaves flatten_types <$> l)).
Proof.
  intros Hall. rewrite <- gather_Ok, <- list_fmap_compose. f_equal.
  apply Forall_fmap_ext_1. exact Hall.
Qed.

Lemma flatten_without_None_list (depth : nat) self_data l :
  Forall (fun x => forall depth : nat,
            (height x <= depth)%nat -> has_None is_none x = false ->
            flatten is_none depth self_data x = Ok (leaves flatten_types x)) l ->
  (foldr Nat.max O (height <$> l) <= depth)%nat ->
  existsb (has_None is_none) l = false ->
  gather (flatten is_none depth self_data <$> l)
  = Ok (concat (leaves flatten_types <$> l)).
Proof.
  intros IH Hd Hnone. apply flatten_elements.
  rewrite Forall_forall in IH. apply Forall_forall. intros x Hx.
  apply IH; [exact Hx| |].
  - pose proof (height_elem l x Hx). lia.
  - destruct (has_None is_none x) eqn:Hx'; [|reflexivity].
    assert (existsb (has_None is_none) l = true)
      by (apply existsb_exists; exists x; split;
          [now apply list_elem_of_In | exact Hx']).
    congruence.
Qed.

Lemma flatten_without_None self_data v :
  forall depth : nat,
    (height v <= depth)%nat -> has_None is_none v = false ->
    flatten is_none depth self_data v = Ok (leaves flatten_types v).
Proof.
  induction v as [a|items IH|l IH|l IH|l IH] using MapNestedFacts.value_ind';
    intros depth Hd Hnone.
  - destruct depth as [|depth]; [simpl in Hd; lia|].
    unfold has_None in Hnone. simpl in Hnone. rewrite orb_false_r in Hnone.
    simpl. now rewrite Hnone.
  - rewrite height_values in Hd. destruct depth as [|depth]; [lia|].
    rewrite flatten_dict, leaves_values. rewrite has_None_values in Hnone.
    simpl in Hd. destruct depth as [|depth]; [lia|].
    rewrite flatten_list. rewrite has_None_list in Hnone.
    apply flatten_without_None_list; [|lia|exact Hnone].
    apply Forall_fmap. exact IH.
  - simpl in Hd. destruct depth as [|depth]; [lia|].
    rewrite flatten_list. rewrite has_None_list in Hnone.
    apply flatten_without_None_list; [exact IH|lia|exact Hnone].
  - simpl in Hd. destruct depth as [|depth]; [lia|].
    rewrite flatten_tuple. rewrite has_None_tuple in Hnone.
    apply flatten_without_None_list; [exact IH|lia|exact Hnone].
  - destruct depth as [|depth]; [simpl in Hd; lia|]. reflexivity.
Qed.

Lemma leaves_not_containers v :
  Forall (fun x => match x with VObj _ | VArray _ => True | _ => False end)
         (leaves flatten_types v).
Proof.
  induction v as [a|items IH|l IH|l IH|l IH] using MapNestedFacts.value_ind'.
  - simpl. now repeat constructor.
  - simpl. apply Forall_concat, Forall_fmap.
    eapply Forall_impl; [exact IH|]. now intros [k x].
  - simpl. apply Forall_concat, Forall_fmap. exact IH.
  - simpl. apply Forall_concat, Forall_fmap. exact IH.
  - simpl. now repeat constructor.
Qed.

(** X9.  On a value that holds no [None], [flatten] returns the leaves of
    the value in the order of traversal, the values of a dict in the order
    of its items, as soon as the interpreter has room for the nested calls
    (one per level of list or tuple, two per level of dict); [self.data] is
    not looked at.  What it returns holds no dict, list or tuple. *)
Theorem flatten_returns_leaves self_data v (depth : nat) :
  has_None is_none v = false ->
  (height v <= depth)%nat ->
  flatten is_none depth self_data v = Ok (leaves flatten_types v)
  /\ Forall (fun x => match x with VObj _ | VArray _ => True | _ => False end)
            (leaves flatten_types v).
Proof.
  intros Hnone Hd. split.
  - now apply flatten_without_None.
  - apply leaves_not_containers.
Qed.

Lemma flatten_raises (depth : nat) self_data :
  forall v (e : exn),
    flatten is_none depth self_data v = Raise e -> e = RecursionError.
Proof.
  induction depth as [|depth IH]; intros v e; [now intros [= <-]|].
  assert (Hseq : forall l,
            gather (flatten is_none depth self_data <$> l) = Raise e ->
            e = RecursionError).
  { intros l Hg. apply gather_Raise, list_elem_of_fmap in Hg.
    destruct Hg as (x & Hx & _). symmetry in Hx. exact (IH _ _ Hx). }
  simpl. destruct (if is_None is_none v then self_data else v)
    as [a|items|l|l|l]; try discriminate.
  - apply IH.
  - apply Hseq.
  - apply Hseq.
Qed.

Lemma gather_recursion (depth : nat) self_data l (x : value A) :
  x ∈ l ->
  flatten is_none depth self_data x = Raise RecursionError ->
  gather (flatten is_none depth self_data <$> l) = Raise RecursionError.
Proof.
  intros Hx Hraise.
  destruct (parts_split (flatten is_none depth self_data <$> l))
    as [[xss Hparts]|(before & e & after & Hparts)].
  - assert (Hin : Raise RecursionError ∈ flatten is_none depth self_data <$> l)
      by (apply list_elem_of_fmap; now exists x).
    rewrite Hparts in Hin. apply list_elem_of_fmap in Hin.
    now destruct Hin as (? & ? & _).
  - rewrite Hparts, gather_first_Raise. f_equal.
    assert (Hin : Raise e ∈ flatten is_none depth self_data <$> l)
      by (rewrite Hparts, elem_of_app; right; left).
    apply list_elem_of_fmap in Hin. destruct Hin as (y & Hy & _).
    symmetry in Hy. exact (flatten_raises _ _ _ _ Hy).
Qed.

Lemma flatten_with_None self_data :
  is_None is_none self_data = false ->
  has_None is_none self_data = true ->
  forall (depth : nat) v,
    has_None is_none v = true ->
    flatten is_none depth self_data v = Raise RecursionError.
Proof.
  intros Hself Hleaf. induction depth as [|depth IH]; intros v Hv;
    [reflexivity|].
  assert (Hseq : forall l,
            existsb (has_None is_none) l = true ->
            gather (flatten is_none depth self_data <$> l)
            = Raise RecursionError).
  { intros l Hl. apply existsb_exists in Hl. destruct Hl as (x & Hx & Hnone).
    apply gather_recursion with x; [now apply list_elem_of_In|].
    now apply IH. }
  assert (Hgo : forall w,
            is_None is_none w = false -> has_None is_none w = true ->
            flatten is_none (S depth) self_data w = Raise RecursionError).
  { intros w Hw Hnone. simpl. rewrite Hw. destruct w as [a|items|l|l|l].
    - unfold has_None in Hnone. simpl in Hnone, Hw. rewrite orb_false_r in Hnone.
      congruence.
    - apply IH. now rewrite <- has_None_values.
    - apply Hseq. now rewrite <- has_None_list.
    - apply Hseq. now rewrite <- has_None_tuple.
    - discriminate. }
  destruct (is_None is_none v) eqn:Hnone.
  - transitivity (flatten is_none (S depth) self_data self_data).
    + simpl. now rewrite Hnone, Hself.
    + now apply Hgo.
  - now apply Hgo.
Qed.

(** X10.  When the data of a [NestedDataStructure] is not [None] but holds
    [None] somewhere among its leaves, [flatten] does not return: called
    without argument, with [None], or with any value that holds [None], it
    starts over on [self.data] at each [None] it meets, and ends with a
    [RecursionError] whatever the room for nested calls. *)
Theorem flatten_None_inside_recurses data v (depth : nat) :
  is_None is_none data = false ->
  has_None is_none data = true ->
  has_None is_none v = true ->
  flatten is_none depth (__init__ is_none data) v = Raise RecursionError.
Proof.
  intros Hself Hleaf Hv. unfold __init__. rewrite Hself.
  now apply flatten_with_None.
Qed.

End facts.

Lemma flatten_returns_leaves_witness :
  flatten none_is_minus_one 4 (VList []) two_files
  = Ok [VObj 1; VObj 2; VObj 3].
Proof.
  exact (proj1 (flatten_returns_leaves none_is_minus_one (VList []) two_files 4
                  eq_refl ltac:(simpl; lia))).
Defined.

Lemma flatten_None_inside_recurses_witness :
  flatten none_is_minus_one 1000
    (__init__ none_is_minus_one (VList [VObj 1; VObj (-1)])) (VObj (-1))
  = Raise RecursionError.
Proof.
  exact (flatten_None_inside_recurses none_is_minus_one
           (VList [VObj 1; VObj (-1)]) (VObj (-1)) 1000
           eq_refl eq_refl eq_refl).
Defined.

End FlattenFacts.

(** ** temporary_assignment and the exceptions of dumps *)

Module CacheBlockFacts.
Import Cache.

(** X11.  [with temporary_assignment(obj, attr, value)] runs its block on
    the object with [attr] set to [value] and ends as the block ends.
    Afterwards [attr] is what [getattr(obj, attr, None)] gave before,
    whatever the block assigned to it: an attribute that the object did not
    have is not removed but left set to [None].  The other attributes are
    as the block left them. *)
Theorem temporary_assignment_restores {X} (obj : pyobject) (attr : string)
    (value : pyval) (body : block (X := X)) :
  let inside := body (setattr obj attr value) in
  let after := temporary_assignment obj attr value body in
  after.2 = inside.2
  /\ attrs after.1 !! attr = Some (getattr obj attr PyNone)
  /\ (hasattr obj attr = false -> hasattr after.1 attr = true
      /\ getattr after.1 attr (PyOther "missing") = PyNone)
  /\ (forall other : string, other <> attr ->
        attrs after.1 !! other = attrs inside.1 !! other)
  /\ mro_names after.1 = mro_names inside.1.
Proof.
  unfold temporary_assignment.
  destruct (body (setattr obj attr value)) as [obj' r]. cbn [fst snd].
  assert (Hattr : attrs (setattr obj' attr (getattr obj attr PyNone)) !! attr
                  = Some (getattr obj attr PyNone)) by apply lookup_insert_eq.
  split; [reflexivity|]. split; [exact Hattr|]. split; [|split].
  - intros Hno. unfold hasattr in *. apply bool_decide_eq_false_1 in Hno.
    assert (Hnone : getattr obj attr PyNone = PyNone).
    { unfold getattr. destruct (attrs obj !! attr) as [v|]; [|reflexivity].
      exfalso. apply Hno. now eexists. }
    rewrite Hnone in *. split.
    + apply bool_decide_eq_true_2. rewrite Hattr. now eexists.
    + unfold getattr. now rewrite Hattr.
  - intros other Hother. simpl. now rewrite lookup_insert_ne.
  - reflexivity.
Qed.

Lemma temporary_assignment_restores_witness :
  hasattr plain "cache" = false
  /\ hasattr (temporary_assignment plain "cache" (PyDict []) pass).1 "cache"
     = true.
Proof.
  assert (H1 : hasattr plain "cache" = false) by reflexivity.
  split; [exact H1|].
  destruct (temporary_assignment_restores plain "cache"%string (PyDict []) pass)
    as (_ & _ & Hnew & _).
  exact (proj1 (Hnew H1)).
Defined.

Section dumps.
Variable dump : pyobject -> pyobject * result (list Byte.byte).

(** X12.  [dumps] never ends with an [ImportError].  With [seen] the object
    as the pickler is run on it ([cache] emptied for a tokenizer), an
    [ImportError] of the pickler is caught by [_no_cache_fields], which
    yields a second time, so that [dumps] raises the [RuntimeError] of
    [contextlib]; any other exception, and the bytes written, pass
    unchanged. *)
Theorem dumps_turns_ImportError (obj : pyobject) :
  let seen :=
    if has_tokenizer_cache obj then setattr obj "cache" (PyDict []) else obj in
  raises_ImportError (dumps dump obj).2 = false
  /\ (raises_ImportError (dump seen).2 = true ->
      (dumps dump obj).2
      = Raise (RuntimeError "generator didn't stop after throw()"))
  /\ (raises_ImportError (dump seen).2 = false ->
      (dumps dump obj).2 = (dump seen).2).
Proof.
  assert (Hres : (dumps dump obj).2
                 = after_throw
                     (dump (if has_tokenizer_cache obj
                            then setattr obj "cache" (PyDict []) else obj)).2).
  { unfold dumps, _no_cache_fields, temporary_assignment.
    destruct (has_tokenizer_cache obj); [|reflexivity]. now destruct (dump _). }
  cbn zeta. rewrite Hres.
  destruct (dump _) as [obj' [bytes|[]]]; cbn; repeat split;
    intros; congruence.
Qed.

End dumps.

Lemma dumps_turns_ImportError_witness :
  raises_ImportError (no_module tokenizer).2 = true
  /\ (dumps no_module tokenizer).2
     = Raise (RuntimeError "generator didn't stop after throw()").
Proof.
  split; [reflexivity|].
  exact (proj1 (proj2 (dumps_turns_ImportError no_module tokenizer)) eq_refl).
Defined.

End CacheBlockFacts.

(** ** convert_file_size_to_int: the number part and the rejected strings *)

Module FileSizeNumberFacts.
Import FileSize FileSizeFacts.

(** What [convert_file_size_to_int] does with the text before a unit. *)
Lemma convert_number_unit (digits unit : string) :
  (upper (chars unit) = chars "GIB" ->
   convert_file_size_to_int (inr (digits ++ unit)%string)
   = rbind (py_int (chars digits)) (fun n => Ok (n * 2 ^ 30)))
  /\ (upper (chars unit) = chars "MIB" ->
      convert_file_size_to_int (inr (digits ++ unit)%string)
      = rbind (py_int (chars digits)) (fun n => Ok (n * 2 ^ 20)))
  /\ (upper (chars unit) = chars "KIB" ->
      convert_file_size_to_int (inr (digits ++ unit)%string)
      = rbind (py_int (chars digits)) (fun n => Ok (n * 2 ^ 10)))
  /\ (upper (chars unit) = chars "GB" ->
      convert_file_size_to_int (inr (digits ++ unit)%string)
      = rbind (py_int (chars digits))
          (fun n => Ok (if endswith (chars unit) (chars "b")
                        then n * 10 ^ 9 / 8 else n * 10 ^ 9)))
  /\ (upper (chars unit) = chars "MB" ->
      convert_file_size_to_int (inr (digits ++ unit)%string)
      = rbind (py_int (chars digits))
          (fun n => Ok (if endswith (chars unit) (chars "b")
                        then n * 10 ^ 6 / 8 else n * 10 ^ 6)))
  /\ (upper (chars unit) = chars "KB" ->
      convert_file_size_to_int (inr (digits ++ unit)%string)
      = rbind (py_int (chars digits))
          (fun n => Ok (if endswith (chars unit) (chars "b")
                        then n * 10 ^ 3 / 8 else n * 10 ^ 3))).
Proof.
  assert (Hstrip : forall U, upper (chars unit) = chars U ->
            (0 < length (chars U))%nat ->
            py_slice (chars digits ++ chars unit) 0
              (- Z.of_nat (length (chars U))) = chars digits).
  { intros U HU Hpos. rewrite <- (upper_unit_length _ _ HU).
    apply py_slice_strip_unit. rewrite (upper_unit_length _ _ HU). exact Hpos. }
  assert (Hb : forall U, upper (chars unit) = chars U ->
            (0 < length (chars U))%nat ->
            endswith (chars digits ++ chars unit) (chars "b")
            = endswith (chars unit) (chars "b")).
  { intros U HU Hpos. apply endswith_unit. intros Hnil.
    apply upper_unit_length in HU. rewrite Hnil in HU. simpl in HU. lia. }
  repeat split; intros Hunit; unit_tests digits Hunit.
  - change (-3) with (- Z.of_nat (length (chars "GIB"))).
    now rewrite Hstrip by (assumption || (simpl; lia)).
  - change (-3) with (- Z.of_nat (length (chars "MIB"))).
    now rewrite Hstrip by (assumption || (simpl; lia)).
  - change (-3) with (- Z.of_nat (length (chars "KIB"))).
    now rewrite Hstrip by (assumption || (simpl; lia)).
  - change (-2) with (- Z.of_nat (length (chars "GB"))).
    rewrite Hstrip by (assumption || (simpl; lia)).
    now rewrite (Hb "GB"%string) by (assumption || (simpl; lia)).
  - change (-2) with (- Z.of_nat (length (chars "MB"))).
    rewrite Hstrip by (assumption || (simpl; lia)).
    now rewrite (Hb "MB"%string) by (assumption || (simpl; lia)).
  - change (-2) with (- Z.of_nat (length (chars "KB"))).
    rewrite Hstrip by (assumption || (simpl; lia)).
    now rewrite (Hb "KB"%string) by (assumption || (simpl; lia)).
Qed.

(** X13.  When the text before one of the six units (in any mix of cases)
    is not an integer literal for [int], as in ["1.5GB"] or in ["GB"], the
    exception of [int] leaves [convert_file_size_to_int]; the message about
    the format of [size] is not the one raised. *)
Theorem convert_file_size_to_int_bad_number (digits unit : string) (e : exn) :
  py_int (chars digits) = Raise e ->
  upper (chars unit) ∈ chars <$> ["GIB"; "MIB"; "KIB"; "GB"; "MB"; "KB"]%string ->
  convert_file_size_to_int (inr (digits ++ unit)%string) = Raise e.
Proof.
  intros Hint Hunit.
  destruct (convert_number_unit digits unit)
    as (Hgib & Hmib & Hkib & Hgb & Hmb & Hkb).
  repeat (apply elem_of_cons in Hunit as [Hunit|Hunit]);
    [rewrite Hgib|rewrite Hmib|rewrite Hkib|rewrite Hgb|rewrite Hmb|rewrite Hkb
    |now apply elem_of_nil in Hunit];
    try exact Hunit; now rewrite Hint.
Qed.

Lemma convert_file_size_to_int_bad_number_witness :
  py_int (chars "1.5")
  = Raise (ValueError "invalid literal for int() with base 10")
  /\ convert_file_size_to_int (inr ("1.5" ++ "GB")%string)
     = Raise (ValueError "invalid literal for int() with base 10").
Proof.
  split; [reflexivity|].
  apply convert_file_size_to_int_bad_number; [reflexivity|].
  apply list_elem_of_lookup. now exists 3%nat.
Defined.

(** X14.  With a decimal unit that ends in a lower-case b, the division by
    8 leaves no remainder: the result times 8 is the number times the scale
    of the unit, for negative numbers too.  The number of bytes is the
    number times 125000000, 125000 or 125. *)
Theorem convert_file_size_to_int_bits_exact (digits unit : string) (n : Z) :
  py_int (chars digits) = Ok n ->
  endswith (chars unit) (chars "b") = true ->
  (upper (chars unit) = chars "GB" ->
   convert_file_size_to_int (inr (digits ++ unit)%string)
   = Ok (n * 125000000))
  /\ (upper (chars unit) = chars "MB" ->
      convert_file_size_to_int (inr (digits ++ unit)%string)
      = Ok (n * 125000))
  /\ (upper (chars unit) = chars "KB" ->
      convert_file_size_to_int (inr (digits ++ unit)%string) = Ok (n * 125)).
Proof.
  intros Hint Hb.
  destruct (convert_number_unit digits unit)
    as (_ & _ & _ & Hgb & Hmb & Hkb).
  repeat split; intros Hunit.
  - rewrite Hgb, Hint, Hb by assumption. cbn [rbind]. f_equal.
    change (10 ^ 9) with (125000000 * 8). rewrite Z.mul_assoc.
    apply Z.div_mul. lia.
  - rewrite Hmb, Hint, Hb by assumption. cbn [rbind]. f_equal.
    change (10 ^ 6) with (125000 * 8). rewrite Z.mul_assoc.
    apply Z.div_mul. lia.
  - rewrite Hkb, Hint, Hb by assumption. cbn [rbind]. f_equal.
    change (10 ^ 3) with (125 * 8). rewrite Z.mul_assoc.
    apply Z.div_mul. lia.
Qed.

Lemma convert_file_size_to_int_bits_exact_witness :
  py_int (chars "-3") = Ok (-3)
  /\ endswith (chars "Mb") (chars "b") = true
  /\ upper (chars "Mb") = chars "MB"
  /\ convert_file_size_to_int (inr ("-3" ++ "Mb")%string) = Ok (-3 * 125000).
Proof.
  assert (H1 : py_int (chars "-3") = Ok (-3)) by reflexivity.
  assert (H2 : endswith (chars "Mb") (chars "b") = true) by reflexivity.
  assert (H3 : upper (chars "Mb") = chars "MB") by reflexivity.
  split; [exact H1|]. split; [exact H2|]. split; [exact H3|].
  exact (proj1 (proj2 (convert_file_size_to_int_bits_exact
                         "-3"%string "Mb"%string (-3) H1 H2)) H3).
Defined.

Lemma upper_char_B (c : ascii) :
  upper_char c = "B"%char -> c = "b"%char \/ c = "B"%char.
Proof.
  destruct c as [[] [] [] [] [] [] [] []]; vm_compute; intros Hc;
    first [discriminate Hc | now left | now right].
Qed.

Lemma endswith_last (s : list ascii) (c : ascii) :
  endswith s [c] = true <-> last s = Some c.
Proof.
  unfold endswith. rewrite bool_decide_eq_true. split.
  - intros [k ->]. apply last_snoc.
  - intros Hlast. destruct s as [|a s] using rev_ind; [discriminate|].
    rewrite last_snoc in Hlast. injection Hlast as ->. now exists s.
Qed.

Lemma endswith_trans (s u v : list ascii) :
  endswith s u = true -> endswith u v = true -> endswith s v = true.
Proof.
  unfold endswith. rewrite !bool_decide_eq_true. intros Hu Hv.
  now transitivity u.
Qed.

(** X15.  A string that ends neither in b nor in B is rejected with the
    [ValueError] about the format of [size]: a number without unit is only
    taken as an [int], not as a [str], and [int] is not called on it. *)
Theorem convert_file_size_to_int_needs_unit (s : string) :
  endswith (chars s) (chars "b") = false ->
  endswith (chars s) (chars "B") = false ->
  convert_file_size_to_int (inr s)
  = Raise (ValueError
             "`size` is not in a valid format. Use an integer followed by the unit, e.g., '5GB'.").
Proof.
  intros Hb HB.
  assert (Hup : endswith (upper (chars s)) (chars "B") = false).
  { destruct (endswith (upper (chars s)) (chars "B")) eqn:Hu; [|reflexivity].
    apply endswith_last in Hu. unfold upper in Hu. rewrite fmap_last in Hu.
    destruct (last (chars s)) as [c|] eqn:Hlast; [|discriminate].
    injection Hu as Hu. apply upper_char_B in Hu as [->| ->].
    - apply endswith_last in Hlast. simpl in Hb. congruence.
    - apply endswith_last in Hlast. simpl in HB. congruence. }
  assert (Hnone : forall U : string,
            endswith (chars U) (chars "B") = true ->
            endswith (upper (chars s)) (chars U) = false).
  { intros U HU. destruct (endswith (upper (chars s)) (chars U)) eqn:Hs;
      [|reflexivity].
    pose proof (endswith_trans _ _ _ Hs HU). congruence. }
  unfold convert_file_size_to_int.
  now rewrite !Hnone by reflexivity.
Qed.

Lemma convert_file_size_to_int_needs_unit_witness :
  exists msg : string,
    convert_file_size_to_int (inr "1024"%string) = Raise (ValueError msg)
    /\ convert_file_size_to_int (inl 1024) = Ok 1024.
Proof.
  eexists. split; [|reflexivity].
  exact (convert_file_size_to_int_needs_unit "1024"%string eq_refl eq_refl).
Defined.

End FileSizeNumberFacts.

(** ** _save_code and save_function: file names, sorted globals, pickler flags *)

Module PicklingSaverFacts.
Import Pickling PicklingFacts.

(** *** File names *)

Lemma has_slash_basename (p : string) : has_slash (basename p) = false.
Proof.
  induction p as [|c r IH]; [reflexivity|]. cbn [basename].
  destruct (has_slash r) eqn:Hr; [exact IH|].
  destruct (Ascii.eqb c "/") eqn:Hc; [exact Hr|].
  cbn [has_slash]. now rewrite Hc, Hr.
Qed.

Lemma has_slash_app (dir name : string) :
  has_slash (dir ++ String "/" name) = true.
Proof.
  induction dir as [|c dir IH]; [reflexivity|].
  change (has_slash (String c (dir ++ String "/" name)) = true).
  cbn [has_slash]. rewrite IH. apply orb_true_r.
Qed.

Lemma basename_app (dir name : string) :
  has_slash name = false -> basename (dir ++ "/" ++ name) = name.
Proof.
  intros Hname. change ("/" ++ name)%string with (String "/" name).
  induction dir as [|c dir IH].
  - change (basename (String "/" name) = name). cbn [basename].
    now rewrite Hname.
  - change (basename (String c (dir ++ String "/" name)) = name).
    cbn [basename]. now rewrite has_slash_app.
Qed.

Section code.
Context {O : Type} `{PyObj O}.

(** X16.  [_save_code] keeps no directory and no line of the place of
    definition: the file name it writes holds no slash; the first line of
    the code object does not show in what it writes; and for a code object
    that is not a lambda's, in a file [dir/name] whose path does not start
    with [<], the file name written is [name]. *)
Theorem _save_code_drops_directory (c : code O) :
  has_slash (kept_filename c) = false
  /\ (forall ln : Z,
        _save_code (relocate_code c (co_consts c) (co_filename c) ln)
        = _save_code c)
  /\ (forall (dir name : string) (consts : list O) (ln : Z),
        co_name c <> "<lambda>"%string ->
        startswith (dir ++ "/" ++ name) "<" = false ->
        has_slash name = false ->
        kept_filename (relocate_code c consts (dir ++ "/" ++ name) ln) = name).
Proof.
  split; [|split].
  - unfold kept_filename. destruct (_ || _); [reflexivity|].
    apply has_slash_basename.
  - intros ln. now destruct c.
  - intros dir name consts ln Hlam Hlt Hname. unfold kept_filename.
    cbn [relocate_code co_filename co_name]. rewrite Hlt.
    apply String.eqb_neq in Hlam. rewrite Hlam. cbn [orb].
    now apply basename_app.
Qed.

End code.

Lemma _save_code_drops_directory_witness :
  kept_filename
    (relocate_code (closure_code "/home/a/foo.py" 10) [ONone; OInt 1]
       ("/srv/jobs" ++ "/" ++ "foo.py") 99)
  = "foo.py"%string.
Proof.
  apply (proj2 (proj2 (_save_code_drops_directory
                         (closure_code "/home/a/foo.py" 10))));
    [discriminate | reflexivity | reflexivity].
Defined.

(** *** The order of the keys *)

Lemma ascii_compare_Lt_trans (a b c : ascii) :
  Ascii.compare a b = Lt -> Ascii.compare b c = Lt -> Ascii.compare a c = Lt.
Proof.
  unfold Ascii.compare. rewrite !N.compare_lt_iff. lia.
Qed.

Lemma compare_Lt_trans (a b c : string) :
  String.compare a b = Lt -> String.compare b c = Lt ->
  String.compare a c = Lt.
Proof.
  revert b c. induction a as [|x a IH]; intros [|y b] [|z c]; cbn;
    try congruence.
  destruct (Ascii.compare x y) eqn:Hxy; try discriminate.
  - apply Ascii.compare_eq_iff in Hxy as ->.
    destruct (Ascii.compare y z); try congruence. apply IH.
  - intros _. destruct (Ascii.compare y z) eqn:Hyz; try discriminate.
    + apply Ascii.compare_eq_iff in Hyz as <-. now rewrite Hxy.
    + intros _. now rewrite (ascii_compare_Lt_trans x y z).
Qed.

Lemma str_le_cases (a b : string) :
  str_le a b <-> String.compare a b = Lt \/ a = b.
Proof.
  unfold str_le, String.leb. split.
  - destruct (String.compare a b) eqn:Hc; try discriminate.
    + right. now apply String.compare_eq_iff.
    + now left.
  - intros [-> | ->]; [reflexivity|].
    destruct (String.compare b b) eqn:Hc; try reflexivity.
    pose proof (String.compare_antisym b b) as Ha. rewrite Hc in Ha.
    discriminate.
Qed.

#[local] Instance str_le_trans : Transitive str_le.
Proof.
  intros a b c. rewrite !str_le_cases.
  intros [Hab | ->] [Hbc | ->]; auto.
  left. now apply compare_Lt_trans with b.
Qed.

#[local] Instance str_le_antisym : AntiSymm (=) str_le.
Proof. intros a b. apply String.leb_antisym. Qed.

#[local] Existing Instance str_le_total.

Section order.
Context {O : Type}.
Implicit Types (globs : list (string * O)).

Lemma dict_get_Some globs (k : string) (v : O) :
  NoDup globs.*1 -> dict_get globs k = Some v <-> (k, v) ∈ globs.
Proof.
  unfold dict_get. induction globs as [|[k' v'] globs IH]; intros Hnd.
  - cbn. split; [discriminate|]. intros Hin. now apply elem_of_nil in Hin.
  - apply NoDup_cons in Hnd as [Hk' Hnd]. cbn [find fst].
    rewrite elem_of_cons. destruct (String.eqb_spec k' k) as [->|Hne].
    + cbn. split.
      * intros [= ->]. now left.
      * intros [[= ->]|Hin]; [reflexivity|].
        exfalso. apply Hk'. apply list_elem_of_fmap. now exists (k, v).
    + rewrite (IH Hnd). split; [now right|].
      intros [[= -> ->]|Hin]; [congruence | assumption].
Qed.

Lemma dict_get_Permutation globs globs' (k : string) :
  NoDup globs.*1 -> globs ≡ₚ globs' -> dict_get globs k = dict_get globs' k.
Proof.
  intros Hnd Hperm.
  assert (Hnd' : NoDup globs'.*1) by now rewrite <- Hperm.
  apply option_eq. intros v.
  rewrite (dict_get_Some globs k v Hnd), (dict_get_Some globs' k v Hnd').
  now rewrite Hperm.
Qed.

Lemma sorted_copy_Permutation globs globs' :
  NoDup globs.*1 -> globs ≡ₚ globs' -> sorted_copy globs = sorted_copy globs'.
Proof.
  intros Hnd Hperm. unfold sorted_copy.
  assert (Hkeys : merge_sort str_le globs.*1 = merge_sort str_le globs'.*1).
  { apply (Sorted_unique str_le).
    - apply Sorted_merge_sort, _.
    - apply Sorted_merge_sort, _.
    - now rewrite !merge_sort_Permutation, Hperm. }
  rewrite <- Hkeys. clear Hkeys.
  induction (merge_sort str_le globs.*1) as [|k keys IH]; [reflexivity|].
  cbn [omap list_omap]. rewrite IH.
  now rewrite (dict_get_Permutation globs globs' k Hnd Hperm).
Qed.

End order.

Lemma map_items_keys {X Y} (g : X -> Y) (d : list (string * X)) :
  (map_items g d).*1 = d.*1.
Proof.
  unfold map_items. rewrite <- list_fmap_compose.
  apply list_fmap_ext. now intros _ [k v] _.
Qed.

Lemma view_map_with_globalvars {X Y} (g : X -> Y) (view : dill_view X)
    (gv : list (string * X)) :
  view_map g (with_globalvars view gv)
  = with_globalvars (view_map g view) (map_items g gv).
Proof. now destruct view. Qed.

Lemma with_globalvars_same {O} (view : dill_view O) :
  with_globalvars view (globalvars view) = view.
Proof. now destruct view. Qed.

Lemma save_function_lt_035_order {O} `{PyObj O} (OLDER : bool)
    (p : pickler O) (view : dill_view O) (obj : function O)
    (gv : list (string * O)) :
  NoDup (globalvars view).*1 -> globalvars view ≡ₚ gv ->
  save_function_lt_035 OLDER p (with_globalvars view gv) obj
  = save_function_lt_035 OLDER p view obj.
Proof.
  intros Hnd Hperm. unfold save_function_lt_035.
  cbn [with_globalvars located in_stack globalvars].
  destruct (negb (located view)); [|reflexivity].
  destruct (truthy (_recurse p)), (in_stack view); try reflexivity.
  cbn [items]. now rewrite (sorted_copy_Permutation _ _ Hnd Hperm).
Qed.

(** X17.  With dill < 0.3.5 the order in which [globalvars] returns the
    globals of a function does not show in what [dumps] writes: for a
    function whose [globalvars] dict is given in two orders, the payloads
    are the same. *)
Theorem dumps_lt_035_ignores_globals_order (OLDER : bool)
    (f : function pyobj) (view : dill_view pyobj)
    (gv : list (string * pyobj)) :
  NoDup (globalvars view).*1 ->
  globalvars view ≡ₚ gv ->
  dumps true OLDER (OFunc f (with_globalvars view gv))
  = dumps true OLDER (OFunc f view).
Proof.
  intros Hnd Hperm. unfold dumps, dump. cbn [save save_function].
  rewrite view_map_with_globalvars. f_equal.
  apply save_function_lt_035_order.
  - replace (globalvars (view_map (save true OLDER dump_pickler) view))
      with (map_items (save true OLDER dump_pickler) (globalvars view))
      by now destruct view.
    now rewrite map_items_keys.
  - replace (globalvars (view_map (save true OLDER dump_pickler) view))
      with (map_items (save true OLDER dump_pickler) (globalvars view))
      by now destruct view.
    unfold map_items. now apply fmap_Permutation.
Qed.

Lemma dumps_lt_035_ignores_globals_order_witness :
  dumps true false
    (OFunc (closure "/home/a/foo.py" 10)
       (with_globalvars
          (closure_view [("np", OInt 3); ("a", OInt 1)]%string)
          [("a", OInt 1); ("np", OInt 3)]%string))
  = dumps true false closure_at_foo.
Proof.
  apply dumps_lt_035_ignores_globals_order.
  - cbn. repeat constructor; rewrite ?elem_of_cons, ?elem_of_nil;
      intuition discriminate.
  - apply Permutation_swap.
Defined.

Section savers.
Context {O : Type} `{PyObj O}.

Lemma sorted_copy_singleton (k : string) (v : O) :
  sorted_copy [(k, v)] = [(k, v)].
Proof.
  unfold sorted_copy, dict_get. cbn. now rewrite String.eqb_refl.
Qed.

(** X18.  With dill >= 0.3.5 and [_recurse] set, as [dumps] sets it, the
    dict of globals in the reduction of a function that dill does not find
    by name is [{"__name__": obj.__module__}] for every function: none of
    the globals the function refers to is in it.  These are in the dict of
    [globalvars], in the order in which that dict iterates, in an entry
    that is put on the post-processing list of the reduction, or on the
    list of an object being saved whose identity is among those of the
    globals. *)
Theorem save_function_ge_035_recurse_globals (p : pickler O)
    (view : dill_view O) (obj : function O) :
  located view = false ->
  truthy (_recurse p) = true ->
  let name_only := [("__name__"%string, module_obj obj)] in
  let entry :=
    Setitems (mkDict site_name_literal name_only)
      (mkDict site_globalvars (globalvars view)) in
  reduce_args (save_function_ge_035 p view obj) !! 1%nat
  = Some (FDict (mkDict site_sorted name_only))
  /\ (append_on_stack (glob_ids view) entry (_postproc p) = None ->
      reduce_postproc (save_function_ge_035 p view obj) = [entry])
  /\ (forall stack,
        append_on_stack (glob_ids view) entry (_postproc p) = Some stack ->
        reduce_postproc (save_function_ge_035 p view obj) = []
        /\ exists callable args state clear,
             save_function_ge_035 p view obj
             = SaveReduce (set_postproc stack p) callable args state []
                 (set_postproc stack p) clear).
Proof.
  intros Hloc Hrec name_only entry. subst name_only entry.
  unfold save_function_ge_035. rewrite Hloc, Hrec.
  cbn [negb site site_eqb].
  destruct (append_on_stack _ _ _) as [stack|]; cbn [items];
    rewrite sorted_copy_singleton.
  - split; [reflexivity|]. split; [discriminate|].
    intros stack' [= <-]. split; [reflexivity|]. now repeat eexists.
  - split; [reflexivity|]. split; [reflexivity|]. discriminate.
Qed.

(** X19.  The loop over [_postproc] in [save_function] for dill >= 0.3.5
    appends the entry to the list of the first object on the stack whose
    identity is among [glob_ids] and changes nothing else; the [else]
    branch of the loop is taken exactly when no object on the stack has its
    identity among them. *)
Theorem append_on_stack_first_match (ids : list nat) (entry : postproc O)
    (stack : list (nat * list (postproc O))) :
  (append_on_stack ids entry stack = None
   <-> Forall (fun i => i ∉ ids) stack.*1)
  /\ (forall stack',
        append_on_stack ids entry stack = Some stack' ->
        exists before i procs after,
          stack = before ++ (i, procs) :: after
          /\ stack' = before ++ (i, procs ++ [entry]) :: after
          /\ i ∈ ids
          /\ Forall (fun j => j ∉ ids) before.*1).
Proof.
  induction stack as [|[i procs] rest [IHnone IHsome]].
  - split; [now split|]. discriminate.
  - cbn [append_on_stack]. destruct (decide (i ∈ ids)) as [Hi|Hi].
    + rewrite bool_decide_eq_true_2 by assumption. split.
      * split; [discriminate|]. intros Hall.
        apply Forall_cons_1 in Hall as [Hno _]. now elim Hno.
      * intros stack' [= <-]. now exists [], i, procs, rest.
    + rewrite bool_decide_eq_false_2 by assumption. split.
      * rewrite fmap_None, IHnone. rewrite fmap_cons, Forall_cons. tauto.
      * intros stack' Hs. apply fmap_Some in Hs as (rest' & Hrest & ->).
        destruct (IHsome rest' Hrest)
          as (before & j & procs' & after & -> & -> & Hj & Hbefore).
        exists ((i, procs) :: before), j, procs', after.
        repeat split; [assumption|]. rewrite fmap_cons. now constructor.
Qed.

(** X20.  [save_function] for dill < 0.3.5 leaves the pickler as it found
    it: [_byref] and [_recurse], which it sets for the time of the
    reduction of a function that refers to [super] or is on the stack, have
    their former values afterwards, and the other attributes are not
    touched.  The memo is cleared for an older dill without [_byref] when
    one of [_super], [_memo] and [_recurse] holds. *)
Theorem save_function_lt_035_restores_pickler (OLDER : bool) (p : pickler O)
    (view : dill_view O) (obj : function O) :
  located view = false ->
  let _memo := in_stack view && bool_decide (is_Some (_recurse p)) in
  let _super :=
    bool_decide ("super"%string ∈ co_names (__code__ obj))
    && bool_decide (is_Some (_byref p)) in
  exists during args,
    save_function_lt_035 OLDER p view obj
    = SaveReduce during "_create_function" args None [] p
        (OLDER && negb (truthy (_byref p))
         && (_super || _memo || truthy (_recurse p)))
    /\ _byref during = (if _super then Some true else _byref p)
    /\ _recurse during = (if _memo then Some false else _recurse p)
    /\ _main_modified during = _main_modified p
    /\ _postproc during = _postproc p.
Proof.
  intros Hloc. cbv zeta. unfold save_function_lt_035. rewrite Hloc.
  cbn [negb]. destruct p as [r b m s]. cbn [_recurse _byref].
  destruct (bool_decide ("super"%string ∈ co_names (__code__ obj))),
    (in_stack view), r as [[]|], b as [[]|], OLDER; cbn;
    do 2 eexists; (split; [reflexivity|repeat split]).
Qed.

End savers.

Lemma save_function_ge_035_recurse_globals_witness :
  reduce_args
    (save_function_ge_035 dump_pickler
       (closure_view [("np", OInt 3); ("a", OInt 1)]%string)
       (closure "/home/a/foo.py" 10)) !! 1%nat
  = Some (FDict (mkDict site_sorted [("__name__"%string, OStr "__main__")])).
Proof.
  exact (proj1 (save_function_ge_035_recurse_globals dump_pickler
                  (closure_view [("np", OInt 3); ("a", OInt 1)]%string)
                  (closure "/home/a/foo.py" 10) eq_refl eq_refl)).
Defined.

Lemma save_function_lt_035_restores_pickler_witness :
  exists during args clear,
    save_function_lt_035 true dump_pickler
      (closure_view [("np", OInt 3); ("a", OInt 1)]%string)
      (closure "/home/a/foo.py" 10)
    = SaveReduce during "_create_function" args None [] dump_pickler clear.
Proof.
  destruct (save_function_lt_035_restores_pickler true dump_pickler
              (closure_view [("np", OInt 3); ("a", OInt 1)]%string)
              (closure "/home/a/foo.py" 10) eq_refl)
    as (during & args & Heq & _).
  exists during, args. eexists. exact Heq.
Defined.

End PicklingSaverFacts.

(** ** map_nested: the whole structure, the function, the workers *)

Module MapNestedLawFacts.
Import MapNested SplitFacts MapNestedFacts.

Section facts.
Context {A : Type}.
Implicit Types (v data_struct : value A) (l : list (value A)).
Implicit Types (types : list pytype) (f g : value A -> value A).

Lemma zip_keys_mapped {Y} (h : value A -> Y) (items : list (A * value A)) :
  zip items.*1 (h <$> items.*2) = (fun kv => (kv.1, h kv.2)) <$> items.
Proof.
  induction items as [|[k x] items IH]; [reflexivity|].
  csimpl. now rewrite IH.
Qed.

(** The sequential loop of [map_nested] and the last lines do on the whole
    structure what [_single_map_nested] does. *)
Lemma rebuild_single f types data_struct :
  negb (is_dict data_struct) && negb (isinstance data_struct types) = false ->
  (rebuild data_struct
     (_single_map_nested f types <$> elements (iterable_of data_struct)).*1,
   concat (_single_map_nested f types
             <$> elements (iterable_of data_struct)).*2)
  = _single_map_nested f types data_struct.
Proof.
  intros Hs. destruct (not_singleton_cases _ _ Hs) as [[items ->]|[Hq Hi]].
  - rewrite single_dict. cbn [iterable_of elements rebuild]. f_equal.
    + f_equal. rewrite <- !list_fmap_compose.
      rewrite (list_fmap_compose snd (fun x => (_single_map_nested f types x).1)).
      apply zip_keys_mapped.
    + f_equal. rewrite <- !list_fmap_compose. reflexivity.
  - rewrite single_seq by assumption.
    destruct data_struct; try discriminate; reflexivity.
Qed.

Lemma map_nested_default (obj_iter : A -> option (list (value A)))
    f data_struct (dict_only map_list map_tuple map_numpy : bool)
    (types : option (list pytype)) :
  map_nested obj_iter f data_struct dict_only map_list map_tuple map_numpy
    None types
  = (Ok (_single_map_nested f
           (types_in_force dict_only map_list map_tuple map_numpy types)
           data_struct).1,
     leaves (types_in_force dict_only map_list map_tuple map_numpy types)
       data_struct).
Proof.
  set (T := types_in_force dict_only map_list map_tuple map_numpy types).
  destruct (negb (is_dict data_struct) && negb (isinstance data_struct T))
    eqn:Hs.
  - rewrite map_nested_singleton by assumption.
    now rewrite single_singleton, leaves_singleton by assumption.
  - rewrite map_nested_sequential by easy. fold T.
    rewrite <- (single_calls f T data_struct).
    now rewrite <- (rebuild_single f T data_struct Hs).
Qed.

(** X21.  When [map_nested] runs its sequential loop (no more than one
    worker, or no more elements than workers), or when the slices of the
    workers are traversed (the input is no dict, or [list] is among the
    traversed types), it does not raise, returns what [_single_map_nested]
    returns on the whole structure, and calls the function on the leaves of
    the input, once each, in the order of traversal. *)
Theorem map_nested_is_single_map_nested
    (obj_iter : A -> option (list (value A)))
    f data_struct (dict_only map_list map_tuple map_numpy : bool)
    (num_proc : option Z) (types : option (list pytype)) :
  let T := types_in_force dict_only map_list map_tuple map_numpy types in
  let n := default 1 num_proc in
  n <= 1 \/ py_len (iterable_of data_struct) <= n
  \/ (is_dict data_struct = true -> existsb (pytype_eqb TyList) T = true) ->
  map_nested obj_iter f data_struct dict_only map_list map_tuple map_numpy
    num_proc types
  = (Ok (_single_map_nested f T data_struct).1, leaves T data_struct).
Proof.
  intros T n Hcase.
  transitivity (map_nested obj_iter f data_struct dict_only map_list
                  map_tuple map_numpy None types);
    [|apply map_nested_default].
  assert (Hseq : n <= 1 \/ py_len (iterable_of data_struct) <= n ->
            map_nested obj_iter f data_struct dict_only map_list map_tuple
              map_numpy num_proc types
            = map_nested obj_iter f data_struct dict_only map_list map_tuple
                map_numpy None types).
  { intros Hn.
    destruct (negb (is_dict data_struct) && negb (isinstance data_struct T))
      eqn:Hs.
    - now rewrite !map_nested_singleton.
    - rewrite (map_nested_sequential _ _ _ _ _ _ _ _ None) by easy.
      apply map_nested_sequential; [exact Hs|].
      subst n. destruct num_proc as [w|]; cbv [default from_option id] in Hn;
        cbv zeta iota; apply orb_true_iff;
        destruct Hn; [left|right|left|right]; apply Z.leb_le; lia. }
  destruct Hcase as [Hn|[Hn|Hlist]]; [apply Hseq; now left
                                     |apply Hseq; now right|].
  now apply map_nested_traversed_slices.
Qed.




Lemma split_kwds_length (iterable : value A) (w : Z) :
  length (split_kwds iterable w) = Z.to_nat w.
Proof.
  unfold split_kwds, py_range. now rewrite !length_fmap, length_seq.
Qed.

Lemma split_kwds_lists (items : list (value A)) (w : Z) :
  Forall (fun s => exists l, s = VList l) (split_kwds (VList items) w).
Proof.
  unfold split_kwds. apply Forall_fmap, Forall_forall. intros i _.
  cbv beta. destruct (split_bounds (py_len (VList items)) w i) as [s e].
  cbn. now eexists.
Qed.

Lemma single_on_untraversed_lists f types (slices : list (value A)) :
  existsb (pytype_eqb TyList) types = false ->
  Forall (fun s => exists l, s = VList l) slices ->
  _single_map_nested f types <$> slices = call f <$> slices.
Proof.
  intros Hno Hall. apply Forall_fmap_ext_1.
  eapply Forall_impl; [exact Hall|]. intros s [l ->].
  apply single_singleton. cbn. now rewrite Hno.
Qed.

Lemma call_results f l : (call f <$> l).*1 = f <$> l.
Proof. induction l as [|x l IH]; csimpl; [reflexivity|]. now rewrite IH. Qed.

Lemma call_arguments f l : concat (call f <$> l).*2 = l.
Proof. induction l as [|x l IH]; csimpl; [reflexivity|]. now rewrite IH. Qed.

Lemma unpack_first_raises (obj_iter : A -> option (list (value A)))
    (mapped : list (value A)) (e : exn) :
  mapped <> [] ->
  Forall (fun r => py_iter obj_iter r = Raise e) mapped ->
  unpack obj_iter mapped = Raise e.
Proof.
  intros Hne Hall. destruct Hall as [|r rest Hr _]; [congruence|].
  cbn [unpack]. now rewrite Hr.
Qed.

(** X23.  When the input is a dict, [list] is not among the traversed
    types and the workers are more than one and fewer than the items, the
    function is not called on the values of the dict but on the slices of
    the list of the values, one call per worker; the dict returned has the
    keys of the input paired with what iterating over the results of these
    calls gives, and [map_nested] raises what that iteration raises: the
    [TypeError] of a result that is not iterable. *)
Theorem map_nested_dict_calls_on_slices
    (obj_iter : A -> option (list (value A)))
    f (items : list (A * value A))
    (dict_only map_list map_tuple map_numpy : bool)
    (num_proc : Z) (types : option (list pytype)) :
  let T := types_in_force dict_only map_list map_tuple map_numpy types in
  let slices := split_kwds (VList items.*2) num_proc in
  existsb (pytype_eqb TyList) T = false ->
  1 < num_proc -> num_proc < Z.of_nat (length items) ->
  map_nested obj_iter f (VDict items) dict_only map_list map_tuple map_numpy
    (Some num_proc) types
  = (match unpack obj_iter (f <$> slices) with
     | Ok mapped => Ok (VDict (zip items.*1 mapped))
     | Raise e => Raise e
     end, slices)
  /\ length slices = Z.to_nat num_proc
  /\ (forall e, (forall x, py_iter obj_iter (f x) = Raise e) ->
        (map_nested obj_iter f (VDict items) dict_only map_list map_tuple
           map_numpy (Some num_proc) types).1 = Raise e).
Proof.
  intros T slices Hno Hw Hlen.
  assert (Hrun :
            map_nested obj_iter f (VDict items) dict_only map_list map_tuple
              map_numpy (Some num_proc) types
            = (match unpack obj_iter (f <$> slices) with
               | Ok mapped => Ok (VDict (zip items.*1 mapped))
               | Raise e => Raise e
               end, slices)).
  { rewrite map_nested_parallel.
    - fold T. cbn [iterable_of]. fold slices.
      rewrite (single_on_untraversed_lists f T slices Hno)
        by apply split_kwds_lists.
      now rewrite call_results, call_arguments.
    - reflexivity.
    - apply orb_false_iff. split; apply Z.leb_gt; [lia|].
      unfold py_len. cbn [iterable_of elements]. rewrite length_fmap. lia. }
  split; [exact Hrun|]. split; [apply split_kwds_length|].
  intros e Hraise. rewrite Hrun. cbn [fst].
  rewrite (unpack_first_raises obj_iter (f <$> slices) e); [reflexivity| |].
  - intros Hnil. apply (f_equal length) in Hnil.
    rewrite length_fmap in Hnil. unfold slices in Hnil.
    rewrite split_kwds_length in Hnil. cbn in Hnil. lia.
  - apply Forall_fmap, Forall_forall. intros x _. apply Hraise.
Qed.

Lemma single_leaf f types v :
  is_dict v = false -> isinstance v types = false ->
  _single_map_nested f types v = call f v.
Proof. intros Hd Hi. apply single_singleton. now rewrite Hd, Hi. Qed.

(** Mapping a function whose values are leaves, and mapping a second
    function over the result. *)
Lemma single_compose f g types v :
  (forall x, is_dict (f x) = false /\ isinstance (f x) types = false) ->
  (_single_map_nested g types (_single_map_nested f types v).1).1
  = (_single_map_nested (g ∘ f) types v).1
  /\ leaves types (_single_map_nested f types v).1 = f <$> leaves types v.
Proof.
  intros Hleaf.
  assert (Hone : forall x,
            negb (is_dict x) && negb (isinstance x types) = true ->
            (_single_map_nested g types (_single_map_nested f types x).1).1
            = (_single_map_nested (g ∘ f) types x).1
            /\ leaves types (_single_map_nested f types x).1
               = f <$> leaves types x).
  { intros x Hx. destruct (Hleaf x) as [Hd Hi].
    rewrite !(single_singleton _ _ x), (leaves_singleton _ x) by exact Hx.
    cbn [call fst]. rewrite single_leaf, leaves_singleton by
      (assumption || now rewrite Hd, Hi). now split. }
  assert (Hmany : forall v' l,
            is_seq v' = true -> isinstance v' types = true ->
            elements v' = l ->
            Forall (fun x =>
                      (_single_map_nested g types
                         (_single_map_nested f types x).1).1
                      = (_single_map_nested (g ∘ f) types x).1
                      /\ leaves types (_single_map_nested f types x).1
                         = f <$> leaves types x) l ->
            (_single_map_nested g types (_single_map_nested f types v').1).1
            = (_single_map_nested (g ∘ f) types v').1
            /\ leaves types (_single_map_nested f types v').1
               = f <$> leaves types v').
  { intros v' l Hq Hi <- IH.
    rewrite (single_seq f), (single_seq (g ∘ f)) by assumption. cbn [fst].
    rewrite single_seq, leaves_seq, (leaves_seq types v')
      by (rewrite ?isinstance_rewrap; now destruct v').
    cbn [fst]. rewrite !elements_rewrap by assumption. split.
    - destruct v'; try discriminate; cbn [rewrap]; f_equal;
        rewrite <- !list_fmap_compose; apply Forall_fmap_ext_1;
        (eapply Forall_impl; [exact IH|]); now intros x [Hx _].
    - rewrite <- !list_fmap_compose.
      rewrite (Forall_fmap_ext_1
                 (leaves types ∘ (fst ∘ _single_map_nested f types))
                 (fmap f ∘ leaves types))
        by (eapply Forall_impl; [exact IH|]; now intros x [_ Hx]).
      clear. induction (elements v') as [|x l IH]; [reflexivity|].
      csimpl. now rewrite fmap_app, IH. }
  induction v as [a|items IH|l IH|l IH|l IH] using value_ind'.
  - now apply Hone.
  - rewrite (single_dict f), (single_dict (g ∘ f)). cbn [fst].
    rewrite single_dict. cbn [fst leaves is_dict negb andb]. split.
    + f_equal. rewrite <- list_fmap_compose. apply Forall_fmap_ext_1.
      eapply Forall_impl; [exact IH|]. intros [k x] [Hx _]. cbn in *.
      now rewrite Hx.
    + rewrite <- list_fmap_compose.
      rewrite (Forall_fmap_ext_1
                 ((fun kv : A * value A => let (_, x) := kv in leaves types x)
                    ∘ (fun kv => (kv.1, (_single_map_nested f types kv.2).1)))
                 (fmap f ∘ (fun kv : A * value A =>
                              let (_, x) := kv in leaves types x)))
        by (eapply Forall_impl; [exact IH|]; now intros [k x] [_ Hx]).
      clear. induction items as [|[k x] items IH]; [reflexivity|].
      csimpl. now rewrite fmap_app, IH.
  - destruct (isinstance (VList l) types) eqn:Hinst.
    + now apply (Hmany (VList l) l).
    + apply Hone. cbn in *. now rewrite Hinst.
  - destruct (isinstance (VTuple l) types) eqn:Hinst.
    + now apply (Hmany (VTuple l) l).
    + apply Hone. cbn in *. now rewrite Hinst.
  - destruct (isinstance (VArray l) types) eqn:Hinst.
    + now apply (Hmany (VArray l) l).
    + apply Hone. cbn in *. now rewrite Hinst.
Qed.

(** X24.  Let [np.ndarray] not be among the traversed types, so that no
    result is rebuilt by [np.array] (which turns results that are lists or
    tuples into further dimensions of the array); let the values of [f] be
    leaves (no dict, no instance of the traversed types), and let
    [map_nested] run with its default number of workers.  Then the leaves of
    [map_nested(f, data)] are the images under [f] of the leaves of [data],
    in order, and mapping [g] over that result gives what mapping the
    composition of [g] after [f] over [data] gives; [g] is called on the
    images of the leaves. *)
Theorem map_nested_compose (obj_iter : A -> option (list (value A)))
    f g data_struct (dict_only map_list map_tuple map_numpy : bool)
    (types : option (list pytype)) :
  let T := types_in_force dict_only map_list map_tuple map_numpy types in
  let run h d :=
    map_nested obj_iter h d dict_only map_list map_tuple map_numpy None
      types in
  existsb (pytype_eqb TyNdarray) T = false ->
  (forall x, is_dict (f x) = false /\ isinstance (f x) T = false) ->
  exists mapped,
    (run f data_struct).1 = Ok mapped
    /\ leaves T mapped = f <$> leaves T data_struct
    /\ (run g mapped).1 = (run (g ∘ f) data_struct).1
    /\ (run g mapped).2 = f <$> leaves T data_struct.
Proof.
  intros T run _ Hleaf. subst run. cbv beta.
  exists (_single_map_nested f T data_struct).1.
  rewrite !map_nested_default. fold T. cbn [fst snd].
  destruct (single_compose f g T data_struct Hleaf) as [Hcomp Hleaves].
  now rewrite Hcomp, Hleaves.
Qed.

End facts.

Lemma map_nested_is_single_map_nested_witness :
  map_nested no_iter wrap three_items false true false false (Some 2) None
  = (Ok (VDict [(10, VList [VObj 1]); (20, VList [VObj 2]);
                (30, VList [VObj 3])]),
     [VObj 1; VObj 2; VObj 3]).
Proof.
  apply (map_nested_is_single_map_nested no_iter wrap three_items
           false true false false (Some 2) None).
  right. right. reflexivity.
Defined.


Lemma map_nested_dict_calls_on_slices_witness :
  (map_nested no_iter (fun _ => VObj 0) three_items true true false false
     (Some 2) None).1 = Raise (TypeError "object is not iterable")
  /\ (map_nested no_iter (fun _ => VObj 0) three_items true true false false
        None None).1 = Ok (VDict [(10, VObj 0); (20, VObj 0); (30, VObj 0)]).
Proof.
  split; [|reflexivity].
  apply (proj2 (proj2 (map_nested_dict_calls_on_slices no_iter
                         (fun _ => VObj 0)
                         [(10, VObj 1); (20, VObj 2); (30, VObj 3)]
                         true true false false 2 None
                         eq_refl ltac:(lia) ltac:(simpl; lia)))).
  reflexivity.
Defined.

Lemma map_nested_compose_witness :
  exists mapped,
    (map_nested no_iter (fun _ => VObj 0) three_items false true false false
       None None).1 = Ok mapped
    /\ (map_nested no_iter wrap mapped false true false false None None).1
       = (map_nested no_iter (wrap ∘ (fun _ => VObj 0)) three_items
            false true false false None None).1.
Proof.
  destruct (map_nested_compose no_iter (fun _ => VObj 0) wrap three_items
              false true false false None eq_refl ltac:(now split))
    as (mapped & Hm & _ & Hc & _).
  exists mapped. now split.
Defined.

End MapNestedLawFacts.

(** ** temp_seed: what is set back *)

Module SeedFacts.
Import Seed.

Section facts.
Context {Np Torch Cuda Gen Rng Rest X : Type}.
Variable np_random_seed : Z -> Np -> Np.
Variable torch_manual_seed : Z -> Torch -> Torch.
Variable manual_seed_on_cuda : Z -> Cuda -> Cuda.
Variable cuda_manual_seed_all : Z -> Cuda -> Cuda.
Variable from_seed : Z -> Gen.
Variable _set_global_seed : Z -> @tf_context Rng Rest -> @tf_context Rng Rest.
Variables (TORCH_AVAILABLE TF_AVAILABLE : bool).
Variables (cuda_is_available executing_eagerly : bool).

Local Abbreviation with_temp_seed :=
  (temp_seed (X := X) np_random_seed torch_manual_seed manual_seed_on_cuda
     cuda_manual_seed_all from_seed _set_global_seed TORCH_AVAILABLE TF_AVAILABLE
     cuda_is_available executing_eagerly).

Local Abbreviation at_entry :=
  (seeded np_random_seed torch_manual_seed manual_seed_on_cuda
     cuda_manual_seed_all from_seed _set_global_seed TORCH_AVAILABLE TF_AVAILABLE
     cuda_is_available).

(** X25.  For a seed that numpy accepts, and unless tensorflow is asked
    for and does not execute eagerly, [with temp_seed(seed, ...)] runs its
    block on the seeded generators, and afterwards, however the block ends
    and whatever it drew or set, the state of numpy is the one from before
    the statement; so is the state of torch when torch is asked for and
    available, and the global generator, [_seed] and [_rng] of tensorflow
    when tensorflow is; the states that were not asked for are as the block
    left them.  The states of the CUDA devices, when torch is asked for and
    CUDA is available, are set back to what they were when [temp_seed] read
    them, which is after [torch.random.manual_seed(seed)] has seeded the
    devices: not to what they were before the statement.  The statement
    ends as the block ends, except that deleting [_rng] raises when the
    context had none before and has none after the block. *)
Theorem temp_seed_restores (seed : Z) (set_pytorch set_tensorflow : bool)
    (body : seeded_block (X := X)) (r : generators) :
  0 <= seed < 2 ^ 32 ->
  set_tensorflow && TF_AVAILABLE && negb executing_eagerly = false ->
  let inside := body (at_entry seed set_pytorch set_tensorflow r) in
  let after := with_temp_seed seed set_pytorch set_tensorflow body r in
  np_random after.1 = np_random r
  /\ torch_random after.1
     = (if set_pytorch && TORCH_AVAILABLE
        then torch_random r else torch_random inside.1)
  /\ torch_cuda after.1
     = (if set_pytorch && TORCH_AVAILABLE && cuda_is_available
        then manual_seed_on_cuda seed (torch_cuda r)
        else torch_cuda inside.1)
  /\ tf_generator after.1
     = (if set_tensorflow && TF_AVAILABLE
        then tf_generator r else tf_generator inside.1)
  /\ (set_tensorflow && TF_AVAILABLE = true ->
      _seed (tf_eager_context after.1) = _seed (tf_eager_context r)
      /\ _rng (tf_eager_context after.1) = _rng (tf_eager_context r)
      /\ tf_rest (tf_eager_context after.1)
         = tf_rest (tf_eager_context inside.1))
  /\ (set_tensorflow && TF_AVAILABLE = false ->
      tf_eager_context after.1 = tf_eager_context inside.1)
  /\ (set_tensorflow && TF_AVAILABLE = false
      \/ is_Some (_rng (tf_eager_context r))
      \/ is_Some (_rng (tf_eager_context inside.1)) ->
      after.2 = inside.2).
Proof.
  intros _ Hmode. cbv zeta. unfold temp_seed, seeded. rewrite Hmode.
  destruct r as [np torch cuda gen [sd rng rest]].
  cbn [np_random torch_random torch_cuda tf_generator tf_eager_context
         set_np set_torch set_cuda set_tf_generator set_tf_context
         _seed _rng tf_rest].
  destruct (set_pytorch && TORCH_AVAILABLE), cuda_is_available,
    (set_tensorflow && TF_AVAILABLE);
    cbn [np_random torch_random torch_cuda tf_generator tf_eager_context
           set_np set_torch set_cuda set_tf_generator set_tf_context
           _seed _rng tf_rest andb];
    match goal with
    | |- context [body ?x] =>
        destruct (body x) as [[np' torch' cuda' gen' [sd' rng' rest']] out]
    end;
    cbn [np_random torch_random torch_cuda tf_generator tf_eager_context
           set_np set_torch set_cuda set_tf_generator set_tf_context
           _seed _rng tf_rest fst snd restore_context];
    try (destruct rng as [g|], rng' as [g'|]);
    cbn [np_random torch_random torch_cuda tf_generator tf_eager_context
           set_np set_torch set_cuda set_tf_generator set_tf_context
           _seed _rng tf_rest fst snd];
    repeat split; try discriminate; try reflexivity;
    intros [Hno|[[? Hsome]|[? Hsome]]]; discriminate || reflexivity.
Qed.

(** X26.  When tensorflow is asked for, is available and does not execute
    eagerly, [temp_seed] raises [ValueError] before its [try] statement:
    the block is not run, and nothing is set back, numpy stays seeded and
    the global generator of tensorflow stays the one made from the seed;
    the states of torch stay seeded too when torch was asked for. *)
Theorem temp_seed_not_eager_leaves_seeded (seed : Z)
    (set_pytorch set_tensorflow : bool)
    (body : seeded_block (X := X)) (r : generators) :
  set_tensorflow && TF_AVAILABLE && negb executing_eagerly = true ->
  let after := with_temp_seed seed set_pytorch set_tensorflow body r in
  raises_ValueError after.2 = true
  /\ np_random after.1 = np_random_seed seed (np_random r)
  /\ tf_generator after.1 = from_seed seed
  /\ tf_eager_context after.1 = tf_eager_context r
  /\ (set_pytorch && TORCH_AVAILABLE = true ->
      torch_random after.1 = torch_manual_seed seed (torch_random r))
  /\ (forall body' : seeded_block (X := X),
        with_temp_seed seed set_pytorch set_tensorflow body' r = after).
Proof.
  intros Hmode. cbv zeta. unfold temp_seed. rewrite Hmode.
  apply andb_true_iff in Hmode as [Htf _]. rewrite Htf.
  destruct r as [np torch cuda gen c].
  destruct (set_pytorch && TORCH_AVAILABLE), cuda_is_available; cbn;
    repeat split; discriminate || reflexivity.
Qed.

End facts.

Lemma temp_seed_restores_witness :
  np_random
    (temp_seed seed_to seed_to seed_to seed_to (fun seed => seed) seed_context
       true true true true 42 true true draw counters).1
  = np_random counters
  /\ torch_cuda
       (temp_seed seed_to seed_to seed_to seed_to (fun seed => seed)
          seed_context true true true true 42 true true draw counters).1
     = 42
  /\ torch_cuda counters = 3.
Proof.
  pose proof (temp_seed_restores seed_to seed_to seed_to seed_to
                (fun seed => seed) seed_context true true true true 42
                true true draw counters ltac:(lia) eq_refl) as Hr.
  split; [exact (proj1 Hr)|]. split; [|reflexivity].
  exact (proj1 (proj2 (proj2 Hr))).
Defined.

Lemma temp_seed_not_eager_leaves_seeded_witness :
  np_random
    (temp_seed seed_to seed_to seed_to seed_to (fun seed => seed)
       seed_context true true false false 42 false true draw counters).1
  = 42.
Proof.
  exact (proj1 (proj2 (temp_seed_not_eager_leaves_seeded seed_to seed_to
                         seed_to seed_to (fun seed => seed) seed_context
                         true true false false 42 false true draw counters
                         eq_refl))).
Defined.

End SeedFacts.
